(** * Task store, sharing ledger and access gateway

    A shallow embedding of the data-access layer ([server/storage.ts]), the
    table definitions ([shared/schema.ts]) and the request handlers
    ([registerRoutes]) of the task-management application, followed by the
    properties of the authorization rules.

    Conventions of the embedding.
    - A table is the list of its rows, in insertion order.  A [select]
      without [orderBy] returns rows in table order and [limit(1)] keeps the
      first one.
    - [serial] columns draw their value from a per-table sequence kept in the
      store; identifiers and timestamps (milliseconds) are integers [Z].  A
      statement whose identifier parameter is no 32-bit integer throws.
    - An [async] storage method is a computation in the monad [M]: it reads
      and writes the store and may throw.  A store failure other than a
      violated constraint (connection loss, exhausted sequence) is outside
      the model.
    - A route handler is modelled from the point where [authenticateUser] has
      set [req.user], path parameters have gone through [parseInt] and the
      body has gone through the zod schema: the handler receives the decoded
      token fields, the integer parameters and the outcome of [.parse]. *)

From Stdlib Require Import ZArith List String Ascii Bool Lia Permutation Sorted.
From Stdlib Require Import DecimalString.
Import ListNotations.

Local Open Scope string_scope.
Local Open Scope list_scope.
Local Open Scope Z_scope.

(** ** shared/schema.ts *)

Inductive TaskStatus := todo | inprogress | completed.
Inductive TaskPriority := low | medium | high.
Inductive SharePermission := view | edit.

(** [users] *)
Record User := mkUser {
  user_id : Z;
  firebaseUid : string;
  email : string;
  displayName : option string;
  user_createdAt : Z
}.

(** [tasks] *)
Record Task := mkTask {
  id : Z;
  title : string;
  description : option string;
  status : TaskStatus;
  priority : TaskPriority;
  dueDate : option Z;
  createdAt : Z;
  updatedAt : Z;
  ownerId : Z
}.

(** [taskShares] *)
Record TaskShare := mkTaskShare {
  share_id : Z;
  taskId : Z;
  sharedWithId : Z;
  permission : SharePermission;
  share_createdAt : Z
}.

(** [InsertUser]: [users] without [id] and [createdAt]. *)
Record InsertUser := mkInsertUser {
  iu_firebaseUid : string;
  iu_email : string;
  iu_displayName : option string
}.

(** [InsertTask]: [tasks] without [id], [createdAt], [updatedAt]; columns
    with a default are optional, nullable columns absent or [null] are both
    stored as NULL. *)
Record InsertTask := mkInsertTask {
  it_title : string;
  it_description : option string;
  it_status : option TaskStatus;
  it_priority : option TaskPriority;
  it_dueDate : option Z;
  it_ownerId : Z
}.

(** [UpdateTask = insertTaskSchema.partial().omit({ ownerId })]: every field
    optional ([None] = key absent); a nullable column carries a second
    option ([Some None] = explicit [null]).  There is no [ownerId], [id],
    [createdAt] or [updatedAt] key. *)
Record UpdateTask := mkUpdateTask {
  upd_title : option string;
  upd_description : option (option string);
  upd_status : option TaskStatus;
  upd_priority : option TaskPriority;
  upd_dueDate : option (option Z)
}.

(** [InsertTaskShare]: [taskShares] without [id] and [createdAt]. *)
Record InsertTaskShare := mkInsertTaskShare {
  its_taskId : Z;
  its_sharedWithId : Z;
  its_permission : option SharePermission
}.

(** [ShareTaskRequest] *)
Record ShareTaskRequest := mkShareTaskRequest {
  req_taskId : Z;
  req_email : string;
  req_permission : SharePermission
}.

(** [TaskShare & { sharedWith: User }]; [sharedWith] is the right side of a
    left join and is [None] when no user row matched. *)
Record ShareWithUser := mkShareWithUser {
  share : TaskShare;
  sharedWith : option User
}.

(** [TaskWithOwner = Task & { owner; shares }].  The task columns are spread
    from a join row; in [getUserSharedTasks] they come from the nullable side
    of a left join, hence the option. *)
Record TaskWithOwner := mkTaskWithOwner {
  task : option Task;
  owner : option User;
  shares : list ShareWithUser
}.

(** ** The store *)

Record DB := mkDB {
  users : list User;
  tasks : list Task;
  task_shares : list TaskShare;
  users_id_seq : Z;
  tasks_id_seq : Z;
  task_shares_id_seq : Z
}.

(** The two clocks a request reads: [new Date()] / [Date.now()] in the
    server process and [now()] in the database ([defaultNow()]). *)
Record Clock := mkClock {
  Date_now : Z;
  db_now : Z
}.

(** ** Exceptions and the storage monad *)

Inductive Exn :=
| ZodError
| Error (message : string).

Definition M (A : Type) : Type := DB -> (Exn + A) * DB.

Definition ret {A} (a : A) : M A := fun db => (inr a, db).

Definition bind {A B} (c : M A) (k : A -> M B) : M B :=
  fun db =>
    match c db with
    | (inr a, db') => k a db'
    | (inl e, db') => (inl e, db')
    end.

Definition throw {A} (e : Exn) : M A := fun db => (inl e, db).

Definition gets {A} (f : DB -> A) : M A := fun db => (inr (f db), db).

Notation "x <- c ;; k" := (bind c (fun x => k))
  (at level 61, c at next level, right associativity).

(** ** Query building blocks (drizzle-orm) *)

(** [l.leftJoin(r, on)]: every left row once per matching right row
    ([rows_of]), or once with a null right side when nothing matches. *)
Definition rows_of {A B} (a : A) (r : list B) (on : A -> B -> bool)
  : list (A * option B) :=
  match filter (on a) r with
  | [] => [(a, None)]
  | ms => map (fun b => (a, Some b)) ms
  end.

Definition leftJoin {A B} (l : list A) (r : list B) (on : A -> B -> bool)
  : list (A * option B) :=
  flat_map (fun a => rows_of a r on) l.

(** SQL truth values: [None] is NULL. *)
Definition sql_or (a b : option bool) : option bool :=
  match a, b with
  | Some true, _ | _, Some true => Some true
  | Some false, Some false => Some false
  | _, _ => None
  end.

Definition sql_and (a b : option bool) : option bool :=
  match a, b with
  | Some false, _ | _, Some false => Some false
  | Some true, Some true => Some true
  | _, _ => None
  end.

(** [.where(c)] keeps the rows on which the condition is TRUE. *)
Definition sql_true (c : option bool) : bool :=
  match c with Some true => true | _ => false end.

(** [orderBy(desc(key))]: a stable insertion sort, greatest key first.  A
    NULL key ([None]) sorts before every value, as PostgreSQL does for
    DESC. *)
Definition key_geb (a b : option Z) : bool :=
  match a, b with
  | None, _ => true
  | Some _, None => false
  | Some x, Some y => y <=? x
  end.

Fixpoint insert_desc {A} (key : A -> option Z) (x : A) (l : list A) : list A :=
  match l with
  | [] => [x]
  | y :: l' =>
      if key_geb (key x) (key y) then x :: y :: l'
      else y :: insert_desc key x l'
  end.

Definition orderByDesc {A} (key : A -> option Z) (l : list A) : list A :=
  fold_right (insert_desc key) [] l.

(** *** Integer parameters

    [serial] and [integer] columns are 32-bit.  PostgreSQL rejects a
    statement whose parameter for such a column is not a 32-bit integer
    ("out of range for type integer") before it reads or writes a row.
    The exact text of the error depends on the driver and reaches no
    response; what matters is that it is an [Error] whose message is not
    the one [updateTask] throws.

    The parameters in question are the task identifiers and the recipient
    identifier that the routes take from the path and from the body.  A
    user identifier reaches the storage from a user row that was just read
    or written, and the health check asks for user 1.

    The rows of a real store hold 32-bit values only.  The model keeps
    identifiers in [Z] and lets a list of rows hold any of them; so that
    reading and updating are defined on every such list, a task identifier
    that a row of the store carries ([task_id_known]) is taken as a value
    of the column.  The statements that delete apply the range test alone.
    On a store whose rows are 32-bit the two tests are the same. *)

Definition int4 (z : Z) : bool :=
  (-2147483648 <=? z) && (z <=? 2147483647).

Definition out_of_range : Exn :=
  Error "value is out of range for type integer".

Definition checked {A} (ok : DB -> bool) (stmt : M A) : M A :=
  fun db => if ok db then stmt db else (inl out_of_range, db).

Definition task_id_known (db : DB) (tid : Z) : bool :=
  existsb (fun t => id t =? tid) (tasks db)
  || existsb (fun s => taskId s =? tid) (task_shares db).

Definition task_id_param (tid : Z) (db : DB) : bool :=
  int4 tid || task_id_known db tid.

(** *** ILIKE

    The model of ILIKE is that of PostgreSQL on ASCII text: [lower] folds
    the letters A to Z, and [like_match] works on the bytes of the string,
    so ["_"] stands for one byte.  On text with other letters PostgreSQL
    folds case by the locale and matches characters, not bytes; nothing
    is claimed there. *)

Definition lower (c : ascii) : ascii :=
  let n := nat_of_ascii c in
  if (Nat.leb 65 n && Nat.leb n 90)%bool then ascii_of_nat (n + 32) else c.

Definition eqb_ci (a b : ascii) : bool := Ascii.eqb (lower a) (lower b).

(** [like_match p t]: PostgreSQL's pattern matching with case folded.  ["%"]
    matches any run of characters, ["_"] any single character and a
    backslash makes the next pattern character literal.  A pattern that
    ends in a lone backslash is an error in PostgreSQL; the patterns built
    below always end in ["%"], so that case ([false] here) is never
    reached from them. *)
Fixpoint like_match (p t : list ascii) {struct p} : bool :=
  match p with
  | [] => match t with [] => true | _ => false end
  | "%"%char :: p' =>
      (fix star (t : list ascii) : bool :=
         like_match p' t ||
         match t with
         | [] => false
         | _ :: t' => star t'
         end) t
  | "_"%char :: p' =>
      match t with
      | [] => false
      | _ :: t' => like_match p' t'
      end
  | "\"%char :: q =>
      match q with
      | [] => false
      | c :: p' =>
          match t with
          | [] => false
          | d :: t' => eqb_ci c d && like_match p' t'
          end
      end
  | c :: p' =>
      match t with
      | [] => false
      | d :: t' => eqb_ci c d && like_match p' t'
      end
  end.

(** [ilike(column, pattern)]: NULL on a NULL column. *)
Definition ilike (column : option string) (pattern : string) : option bool :=
  match column with
  | None => None
  | Some s =>
      Some (like_match (list_ascii_of_string pattern) (list_ascii_of_string s))
  end.

(** JavaScript truthiness of an optional string ([if (search)]). *)
Definition truthy (s : option string) : bool :=
  match s with
  | None => false
  | Some s => negb (String.eqb s "")
  end.

(** ** server/storage.ts: [DatabaseStorage] *)

Definition limit {A} (n : nat) (rows : list A) : list A := firstn n rows.

Definition set_users (db : DB) (us : list User) (seq : Z) : DB :=
  mkDB us (tasks db) (task_shares db) seq (tasks_id_seq db)
       (task_shares_id_seq db).

Definition set_tasks (db : DB) (ts : list Task) (seq : Z) : DB :=
  mkDB (users db) ts (task_shares db) (users_id_seq db) seq
       (task_shares_id_seq db).

Definition set_task_shares (db : DB) (ss : list TaskShare) (seq : Z) : DB :=
  mkDB (users db) (tasks db) ss (users_id_seq db) (tasks_id_seq db) seq.

Definition getUser (uid : Z) : M (option User) :=
  result <- gets (fun db =>
              limit 1 (filter (fun u => user_id u =? uid) (users db)));;
  ret (hd_error result).

Definition getUserByFirebaseUid (fuid : string) : M (option User) :=
  result <- gets (fun db =>
              limit 1 (filter (fun u => String.eqb (firebaseUid u) fuid)
                              (users db)));;
  ret (hd_error result).

Definition getUserByEmail (mail : string) : M (option User) :=
  result <- gets (fun db =>
              limit 1 (filter (fun u => String.eqb (email u) mail)
                              (users db)));;
  ret (hd_error result).

(** [insert(users)]: the sequence value is drawn first, then the UNIQUE
    constraint on [firebase_uid] is checked; a rejected insert does not give
    the sequence value back. *)
Definition createUser (user : InsertUser) (clk : Clock) : M User :=
  fun db =>
    let row := mkUser (users_id_seq db) (iu_firebaseUid user) (iu_email user)
                      (iu_displayName user) (db_now clk) in
    if existsb (fun u => String.eqb (firebaseUid u) (iu_firebaseUid user))
               (users db)
    then (inl (Error "duplicate key value violates unique constraint"),
          set_users db (users db) (users_id_seq db + 1))
    else (inr row, set_users db (users db ++ [row]) (users_id_seq db + 1)).

Definition on_owner (t : Task) (u : User) : bool := ownerId t =? user_id u.

Definition on_sharedWith (s : TaskShare) (u : User) : bool :=
  sharedWithId s =? user_id u.

(** The query [select().from(taskShares).leftJoin(users, ...)
    .where(eq(taskShares.taskId, tid))] followed by the [map] that renames
    the joined user to [sharedWith].  The source writes it three times (in
    [getTaskById], in the loop of [getTasksByUserId], in [getTaskShares]). *)
Definition sharesOf (tid : Z) (db : DB) : list ShareWithUser :=
  map (fun r => mkShareWithUser (fst r) (snd r))
      (filter (fun r => taskId (fst r) =? tid)
              (leftJoin (task_shares db) (users db) on_sharedWith)).

Definition getTaskById (tid : Z) : M (option TaskWithOwner) :=
  taskResult <- checked (task_id_param tid)
                  (gets (fun db =>
                     limit 1 (filter (fun r => id (fst r) =? tid)
                                     (leftJoin (tasks db) (users db)
                                               on_owner))));;
  match taskResult with
  | [] => ret None
  | r :: _ =>
      shares <- gets (sharesOf tid);;
      ret (Some (mkTaskWithOwner (Some (fst r)) (snd r) shares))
  end.

Definition or_default {A} (o : option A) (d : A) : A :=
  match o with Some a => a | None => d end.

(** The WHERE clause of [getTasksByUserId]; the pattern is the template
    literal with [search] spliced in as it is. *)
Definition owned_where (userId : Z) (search : option string) (t : Task)
  : option bool :=
  if truthy search then
    let pattern := ("%" ++ or_default search "" ++ "%")%string in
    sql_and (Some (ownerId t =? userId))
            (sql_or (ilike (Some (title t)) pattern)
                    (ilike (description t) pattern))
  else Some (ownerId t =? userId).

(** [for (const x of xs) { out.push(await f(x)) }] *)
Fixpoint forEach {A B} (f : A -> M B) (xs : list A) : M (list B) :=
  match xs with
  | [] => ret []
  | x :: xs' =>
      y <- f x;;
      ys <- forEach f xs';;
      ret (y :: ys)
  end.

Definition getTasksByUserId (userId : Z) (search : option string)
  : M (list TaskWithOwner) :=
  tasksResult <- gets (fun db =>
                   orderByDesc (fun r => Some (createdAt (fst r)))
                     (filter (fun r => sql_true (owned_where userId search (fst r)))
                             (leftJoin (tasks db) (users db) on_owner)));;
  forEach (fun row =>
             shares <- gets (sharesOf (id (fst row)));;
             ret (mkTaskWithOwner (Some (fst row)) (snd row) shares))
          tasksResult.

(** [insert(tasks).values({ ...task, updatedAt: new Date() })]: [id] from the
    sequence, [status], [priority] and [createdAt] from the column defaults
    when absent; [owner_id] must reference a user. *)
Definition createTask (t : InsertTask) (clk : Clock) : M Task :=
  fun db =>
    let row := mkTask (tasks_id_seq db) (it_title t) (it_description t)
                      (or_default (it_status t) todo)
                      (or_default (it_priority t) medium)
                      (it_dueDate t) (db_now clk) (Date_now clk)
                      (it_ownerId t) in
    if existsb (fun u => user_id u =? it_ownerId t) (users db)
    then (inr row, set_tasks db (tasks db ++ [row]) (tasks_id_seq db + 1))
    else (inl (Error "violates foreign key constraint"),
          set_tasks db (tasks db) (tasks_id_seq db + 1)).

(** [.set({ ...updates, updatedAt: new Date() })] on one row: a key that is
    absent leaves its column alone. *)
Definition apply_updates (updates : UpdateTask) (clk : Clock) (t : Task) : Task :=
  mkTask (id t)
         (or_default (upd_title updates) (title t))
         (or_default (upd_description updates) (description t))
         (or_default (upd_status updates) (status t))
         (or_default (upd_priority updates) (priority t))
         (or_default (upd_dueDate updates) (dueDate t))
         (createdAt t)
         (Date_now clk)
         (ownerId t).

(** [and(eq(tasks.id, id), eq(tasks.ownerId, userId))] *)
Definition id_and_owner (tid userId : Z) (t : Task) : bool :=
  (id t =? tid) && (ownerId t =? userId).

Definition updateTask (tid userId : Z) (updates : UpdateTask) (clk : Clock)
  : M Task :=
  result <- checked (task_id_param tid)
              (fun db =>
                 (inr (map (apply_updates updates clk)
                           (filter (id_and_owner tid userId) (tasks db))),
                  set_tasks db
                    (map (fun t => if id_and_owner tid userId t
                                   then apply_updates updates clk t else t)
                         (tasks db))
                    (tasks_id_seq db)));;
  match result with
  | [] => throw (Error "Task not found or access denied")
  | t :: _ => ret t
  end.

(** [delete(tasks).where(...)]; the rows of [task_shares] whose [task_id]
    references a deleted task go with it ([onDelete: "cascade"]). *)
Definition deleteTask (tid userId : Z) : M bool :=
  result <- checked (fun _ => int4 tid)
              (fun db =>
                 let gone := filter (id_and_owner tid userId) (tasks db) in
                 (inr gone,
                  mkDB (users db)
                       (filter (fun t => negb (id_and_owner tid userId t))
                               (tasks db))
                       (filter (fun s =>
                                  negb (existsb (fun t => id t =? taskId s)
                                                gone))
                               (task_shares db))
                       (users_id_seq db) (tasks_id_seq db)
                       (task_shares_id_seq db)));;
  ret (Nat.ltb 0 (List.length result)).

(** [insert(taskShares)]: [task_id] and [shared_with_id] must reference
    existing rows; [permission] defaults to [view]. *)
Definition shareTask (s : InsertTaskShare) (clk : Clock) : M TaskShare :=
  fun db =>
    let row := mkTaskShare (task_shares_id_seq db) (its_taskId s)
                           (its_sharedWithId s)
                           (or_default (its_permission s) view)
                           (db_now clk) in
    if existsb (fun t => id t =? its_taskId s) (tasks db)
       && existsb (fun u => user_id u =? its_sharedWithId s) (users db)
    then (inr row,
          set_task_shares db (task_shares db ++ [row])
                          (task_shares_id_seq db + 1))
    else (inl (Error "violates foreign key constraint"),
          set_task_shares db (task_shares db) (task_shares_id_seq db + 1)).

Definition getTaskShares (tid : Z) : M (list ShareWithUser) :=
  checked (task_id_param tid) (gets (sharesOf tid)).

Definition removeTaskShare (tid swid : Z) : M bool :=
  result <- checked (fun _ => int4 tid && int4 swid)
              (fun db =>
                 let hit s := (taskId s =? tid) && (sharedWithId s =? swid) in
                 (inr (filter hit (task_shares db)),
                  set_task_shares db
                    (filter (fun s => negb (hit s)) (task_shares db))
                    (task_shares_id_seq db)));;
  ret (Nat.ltb 0 (List.length result)).

Definition on_task (s : TaskShare) (t : Task) : bool := taskId s =? id t.

(** Second join of [getUserSharedTasks]: [tasks.ownerId = users.id], where
    [tasks] is itself a nullable side. *)
Definition on_owner_opt (r : TaskShare * option Task) (u : User) : bool :=
  match snd r with
  | Some t => ownerId t =? user_id u
  | None => false
  end.

Definition getUserSharedTasks (userId : Z) : M (list TaskWithOwner) :=
  result <- gets (fun db =>
              orderByDesc (fun r => option_map createdAt (snd (fst r)))
                (filter (fun r => sharedWithId (fst (fst r)) =? userId)
                        (leftJoin (leftJoin (task_shares db) (tasks db) on_task)
                                  (users db) on_owner_opt)));;
  ret (map (fun row => mkTaskWithOwner (snd (fst row)) (snd row) []) result).

(** ** Request handlers ([registerRoutes]) *)

(** [req.user], set by [authenticateUser] from the verified token. *)
Record AuthUser := mkAuthUser {
  uid : string;
  auth_email : string;
  name : option string
}.

(** Response bodies. *)
Inductive Json :=
| JMessage (message : string)
| JInvalid (message : string)
| JUser (u : User)
| JTask (t : Task)
| JTaskWithOwner (t : TaskWithOwner)
| JTasks (ts : list TaskWithOwner)
| JShare (s : TaskShare)
| JShares (ss : list ShareWithUser)
| JHealth (status database : string) (error : option string)
| JEmpty.

Record Response := mkResponse {
  res_status : Z;
  res_body : Json
}.

(** [schema.parse(body)]: the parsed value, or a thrown [ZodError]. *)
Definition parse {A} (parsed : option A) : M A :=
  match parsed with
  | Some a => ret a
  | None => throw ZodError
  end.

(** [try { ... } catch (error) { ... }] around a handler body. *)
Definition try_catch (body : M Response) (handler : Exn -> Response)
  : DB -> Response * DB :=
  fun db =>
    match body db with
    | (inr r, db') => (r, db')
    | (inl e, db') => (handler e, db')
    end.

(** [displayName || null] *)
Definition or_null (s : option string) : option string :=
  match s with
  | Some x => if String.eqb x "" then None else Some x
  | None => None
  end.

Definition getOrCreateUser (fuid mail : string) (dname : option string)
                           (clk : Clock) : M User :=
  user <- getUserByFirebaseUid fuid;;
  match user with
  | Some u => ret u
  | None => createUser (mkInsertUser fuid mail (or_null dname)) clk
  end.

Definition currentUser (req : AuthUser) (clk : Clock) : M User :=
  getOrCreateUser (uid req) (auth_email req) (name req) clk.

(** [GET /api/health]; it is registered without [authenticateUser]. *)
Definition get_health : DB -> Response * DB :=
  try_catch
    (_ <- getUser 1;;
     ret (mkResponse 200 (JHealth "healthy" "connected" None)))
    (fun e =>
       mkResponse 503
         (JHealth "unhealthy" "disconnected"
                  (Some match e with
                        | Error m => m
                        | ZodError => "Unknown error"
                        end))).

(** [GET /api/tasks] *)
Definition get_tasks (req : AuthUser) (search : option string) (clk : Clock)
  : DB -> Response * DB :=
  try_catch
    (user <- currentUser req clk;;
     ownedTasks <- getTasksByUserId (user_id user) search;;
     sharedTasks <- getUserSharedTasks (user_id user);;
     ret (mkResponse 200 (JTasks (ownedTasks ++ sharedTasks))))
    (fun _ => mkResponse 500 (JMessage "Failed to fetch tasks")).

(** [task.ownerId === user.id || task.shares.some(...)] *)
Definition hasAccess (t : TaskWithOwner) (user : User) : bool :=
  match task t with
  | Some row => ownerId row =? user_id user
  | None => false
  end
  || existsb (fun s => sharedWithId (share s) =? user_id user) (shares t).

(** [GET /api/tasks/:id] *)
Definition get_task (req : AuthUser) (tid : Z) (clk : Clock)
  : DB -> Response * DB :=
  try_catch
    (user <- currentUser req clk;;
     t <- getTaskById tid;;
     match t with
     | None => ret (mkResponse 404 (JMessage "Task not found"))
     | Some t =>
         if negb (hasAccess t user)
         then ret (mkResponse 403 (JMessage "Access denied"))
         else ret (mkResponse 200 (JTaskWithOwner t))
     end)
    (fun _ => mkResponse 500 (JMessage "Failed to fetch task")).

(** The body of [POST /api/tasks] once parsed; [ownerId] is set by the
    handler from the caller, whatever the body says. *)
Record TaskBody := mkTaskBody {
  tb_title : string;
  tb_description : option string;
  tb_status : option TaskStatus;
  tb_priority : option TaskPriority;
  tb_dueDate : option Z
}.

(** [POST /api/tasks] *)
Definition post_task (req : AuthUser) (body : option TaskBody) (clk : Clock)
  : DB -> Response * DB :=
  try_catch
    (user <- currentUser req clk;;
     b <- parse body;;
     t <- createTask (mkInsertTask (tb_title b) (tb_description b)
                                   (tb_status b) (tb_priority b)
                                   (tb_dueDate b) (user_id user)) clk;;
     ret (mkResponse 201 (JTask t)))
    (fun e =>
       match e with
       | ZodError => mkResponse 400 (JInvalid "Invalid task data")
       | Error _ => mkResponse 500 (JMessage "Failed to create task")
       end).

(** [PUT /api/tasks/:id] *)
Definition put_task (req : AuthUser) (tid : Z) (body : option UpdateTask)
                    (clk : Clock) : DB -> Response * DB :=
  try_catch
    (user <- currentUser req clk;;
     updates <- parse body;;
     t <- updateTask tid (user_id user) updates clk;;
     ret (mkResponse 200 (JTask t)))
    (fun e =>
       match e with
       | ZodError => mkResponse 400 (JInvalid "Invalid update data")
       | Error m =>
           if String.eqb m "Task not found or access denied"
           then mkResponse 404 (JMessage m)
           else mkResponse 500 (JMessage "Failed to update task")
       end).

(** [DELETE /api/tasks/:id] *)
Definition delete_task (req : AuthUser) (tid : Z) (clk : Clock)
  : DB -> Response * DB :=
  try_catch
    (user <- currentUser req clk;;
     success <- deleteTask tid (user_id user);;
     if negb success
     then ret (mkResponse 404 (JMessage "Task not found or access denied"))
     else ret (mkResponse 204 JEmpty))
    (fun _ => mkResponse 500 (JMessage "Failed to delete task")).

(** [!task || task.ownerId !== user.id] *)
Definition not_owner (t : option TaskWithOwner) (user : User) : bool :=
  match t with
  | None => true
  | Some t =>
      match task t with
      | Some row => negb (ownerId row =? user_id user)
      | None => true
      end
  end.

(** [`placeholder_${Date.now()}_${email}`] *)
Definition placeholderUid (clk : Clock) (mail : string) : string :=
  ("placeholder_" ++ NilZero.string_of_int (Z.to_int (Date_now clk))
                  ++ "_" ++ mail)%string.

(** [POST /api/tasks/share] *)
Definition post_share (req : AuthUser) (body : option ShareTaskRequest)
                      (clk : Clock)
  : DB -> Response * DB :=
  try_catch
    (user <- currentUser req clk;;
     shareData <- parse body;;
     t <- getTaskById (req_taskId shareData);;
     if not_owner t user
     then ret (mkResponse 403 (JMessage "You can only share tasks you own"))
     else
       found <- getUserByEmail (req_email shareData);;
       sharedWithUser <-
         match found with
         | Some u => ret u
         | None =>
             createUser (mkInsertUser
                           (placeholderUid clk (req_email shareData))
                           (req_email shareData) None) clk
         end;;
       existingShares <- getTaskShares (req_taskId shareData);;
       let alreadyShared :=
         existsb (fun s => sharedWithId (share s) =? user_id sharedWithUser)
                 existingShares in
       if alreadyShared
       then ret (mkResponse 400
                   (JMessage "Task is already shared with this user"))
       else
         taskShare <- shareTask (mkInsertTaskShare
                                   (req_taskId shareData)
                                   (user_id sharedWithUser)
                                   (Some (req_permission shareData))) clk;;
         ret (mkResponse 201 (JShare taskShare)))
    (fun e =>
       match e with
       | ZodError => mkResponse 400 (JInvalid "Invalid share data")
       | Error _ => mkResponse 500 (JMessage "Failed to share task")
       end).

(** [GET /api/tasks/:id/shares] *)
Definition get_shares (req : AuthUser) (tid : Z) (clk : Clock)
  : DB -> Response * DB :=
  try_catch
    (user <- currentUser req clk;;
     t <- getTaskById tid;;
     if not_owner t user
     then ret (mkResponse 403 (JMessage "Access denied"))
     else
       ss <- getTaskShares tid;;
       ret (mkResponse 200 (JShares ss)))
    (fun _ => mkResponse 500 (JMessage "Failed to fetch task shares")).

(** [DELETE /api/tasks/:id/shares/:userId] *)
Definition delete_share (req : AuthUser) (tid swid : Z) (clk : Clock)
  : DB -> Response * DB :=
  try_catch
    (user <- currentUser req clk;;
     t <- getTaskById tid;;
     if not_owner t user
     then ret (mkResponse 403 (JMessage "Access denied"))
     else
       success <- removeTaskShare tid swid;;
       if negb success
       then ret (mkResponse 404 (JMessage "Share not found"))
       else ret (mkResponse 204 JEmpty))
    (fun _ => mkResponse 500 (JMessage "Failed to remove task share")).

(** [GET /api/user] *)
Definition get_user (req : AuthUser) (clk : Clock) : DB -> Response * DB :=
  try_catch
    (user <- currentUser req clk;;
     ret (mkResponse 200 (JUser user)))
    (fun _ => mkResponse 500 (JMessage "Failed to get user")).

(** *** [authenticateUser] and the route table

    [verifyFirebaseToken] wraps the identity provider's [verifyIdToken]; it
    is a parameter here: [None] when it throws, otherwise the [uid], [email]
    and [name] of the decoded token. *)

Section Gateway.
Variable verifyFirebaseToken : string -> option AuthUser.

(** [authHeader.substring(7)] *)
Definition bearerToken (authHeader : string) : string :=
  substring 7 (String.length authHeader - 7) authHeader.

(** The middleware in front of every route but the health check: [next] is
    the route handler, called with [req.user] set. *)
Definition authenticateUser (authorization : option string)
                            (next : AuthUser -> DB -> Response * DB)
  : DB -> Response * DB :=
  fun db =>
    match authorization with
    | None => (mkResponse 401 (JMessage "No token provided"), db)
    | Some authHeader =>
        if negb (prefix "Bearer " authHeader)
        then (mkResponse 401 (JMessage "No token provided"), db)
        else
          match verifyFirebaseToken (bearerToken authHeader) with
          | Some user => next user db
          | None => (mkResponse 401 (JMessage "Invalid token"), db)
          end
    end.

(** The routes of [registerRoutes], with their path and query parameters
    and parsed bodies.  All but [GET_health] are registered behind
    [authenticateUser]. *)
Inductive Route :=
| GET_health
| GET_user
| GET_tasks (search : option string)
| GET_task (tid : Z)
| POST_task (body : option TaskBody)
| PUT_task (tid : Z) (body : option UpdateTask)
| DELETE_task (tid : Z)
| POST_share (body : option ShareTaskRequest)
| GET_shares (tid : Z)
| DELETE_share (tid swid : Z).

Definition route_handler (r : Route) (clk : Clock) (user : AuthUser)
  : DB -> Response * DB :=
  match r with
  | GET_health => get_health
  | GET_user => get_user user clk
  | GET_tasks search => get_tasks user search clk
  | GET_task tid => get_task user tid clk
  | POST_task body => post_task user body clk
  | PUT_task tid body => put_task user tid body clk
  | DELETE_task tid => delete_task user tid clk
  | POST_share body => post_share user body clk
  | GET_shares tid => get_shares user tid clk
  | DELETE_share tid swid => delete_share user tid swid clk
  end.

(** One request: its [Authorization] header, its route and the clocks it
    reads. *)
Record HttpRequest := mkHttpRequest {
  authorization : option string;
  route : Route;
  clock : Clock
}.

Definition registerRoutes (req : HttpRequest) : DB -> Response * DB :=
  match route req with
  | GET_health => get_health
  | r => authenticateUser (authorization req) (route_handler r (clock req))
  end.

(** A run of requests, one after the other. *)
Definition serve (reqs : list HttpRequest) (db : DB) : DB :=
  fold_left (fun db req => snd (registerRoutes req db)) reqs db.
End Gateway.

(** ** Vocabulary of the properties *)

(** Some task row has identifier [tid] and owner [userId]. *)
Definition owns (db : DB) (tid userId : Z) : Prop :=
  exists t, In t (tasks db) /\ id t = tid /\ ownerId t = userId.

(** Some share row grants task [tid] to [userId]. *)
Definition sharedTo (db : DB) (tid userId : Z) : Prop :=
  exists s, In s (task_shares db) /\ taskId s = tid /\ sharedWithId s = userId.

(** [getTaskById(tid)?.ownerId] *)
Definition ownerOf (db : DB) (tid : Z) : option Z :=
  match fst (getTaskById tid db) with
  | inr (Some t) => option_map ownerId (task t)
  | _ => None
  end.

(** One call of [updateTask], and a run of such calls one after the other,
    whether they succeed or throw. *)
Record UpdateCall := mkUpdateCall {
  call_id : Z;
  call_userId : Z;
  call_updates : UpdateTask;
  call_clock : Clock
}.

Definition run_updates (calls : list UpdateCall) (db : DB) : DB :=
  fold_left (fun db c =>
               snd (updateTask (call_id c) (call_userId c) (call_updates c)
                               (call_clock c) db))
            calls db.

(** Newest first: every entry was created no earlier than all entries after
    it (an entry without task columns counts as newest, as NULL does). *)
Definition created_geb (a b : TaskWithOwner) : Prop :=
  key_geb (option_map createdAt (task a)) (option_map createdAt (task b)) = true.

Definition newest_first (l : list TaskWithOwner) : Prop :=
  StronglySorted created_geb l.

(** "Case-insensitively contains", in the words of the specification: some
    run of consecutive characters of the text equals the search term once
    case is folded.  [contains_ci] decides it ([contains_ci_spec] below). *)
Definition Contains_ci (needle hay : list ascii) : Prop :=
  exists pre mid post,
    hay = pre ++ mid ++ post /\ map lower mid = map lower needle.

Fixpoint prefix_ci (s t : list ascii) : bool :=
  match s, t with
  | [], _ => true
  | _ :: _, [] => false
  | c :: s', d :: t' => eqb_ci c d && prefix_ci s' t'
  end.

Fixpoint contains_ci_list (s t : list ascii) : bool :=
  prefix_ci s t ||
  match t with
  | [] => false
  | _ :: t' => contains_ci_list s t'
  end.

Definition contains_ci (needle hay : string) : bool :=
  contains_ci_list (list_ascii_of_string needle) (list_ascii_of_string hay).

(** The characters ILIKE gives a meaning of their own. *)
Definition is_meta (c : ascii) : bool :=
  Ascii.eqb c "%" || Ascii.eqb c "_" || Ascii.eqb c "\".

Definition plain (s : string) : bool :=
  forallb (fun c => negb (is_meta c)) (list_ascii_of_string s).

(** Text in ASCII: every byte below 128.  On such text the case folding of
    the database is [lower]. *)
Definition ascii_text (s : string) : bool :=
  forallb (fun c => Nat.ltb (nat_of_ascii c) 128) (list_ascii_of_string s).

Definition ascii_task (t : Task) : bool :=
  ascii_text (title t) &&
  match description t with
  | Some d => ascii_text d
  | None => true
  end.

(** What the specification asks of a row for a search term: the owner is
    [userId] and the title, or the description when there is one, contains
    the term. *)
Definition search_hit (userId : Z) (term : string) (t : Task) : bool :=
  (ownerId t =? userId) &&
  (contains_ci term (title t) ||
   match description t with
   | Some d => contains_ci term d
   | None => false
   end).

(** ** A small store used in the examples

    Alice owns one task and has shared it with Bob for viewing. *)

Definition alice : User := mkUser 1 "uid-alice" "alice@example.com" (Some "Alice") 100.
Definition bob : User := mkUser 2 "uid-bob" "bob@example.com" None 200.
Definition report : Task := mkTask 1 "Write report" None todo high None 300 300 1.
Definition share_view : TaskShare := mkTaskShare 1 1 2 view 400.

Definition db_shared : DB := mkDB [alice; bob] [report] [share_view] 3 2 2.

Definition req_alice : AuthUser := mkAuthUser "uid-alice" "alice@example.com" (Some "Alice").
Definition req_bob : AuthUser := mkAuthUser "uid-bob" "bob@example.com" None.

Definition clock0 : Clock := mkClock 500 501.
Definition clock1 : Clock := mkClock 600 601.

Definition rename : UpdateTask :=
  mkUpdateTask (Some "Taken over") None None None None.

(** Alice's store before any share, and her request to share the task with
    an address nobody has registered under. *)
Definition db_unshared : DB := mkDB [alice] [report] [] 2 2 1.

Definition share_with_carol : ShareTaskRequest :=
  mkShareTaskRequest 1 "carol@example.com" edit.

(** The same share asked for again, this time read-only. *)
Definition share_with_carol_view : ShareTaskRequest :=
  mkShareTaskRequest 1 "carol@example.com" view.

(** The store once Alice's request to share with Carol has been served. *)
Definition db_carol : DB :=
  snd (post_share req_alice (Some share_with_carol) clock0 db_unshared).

(** Alice's request to share her task with herself. *)
Definition share_with_self : ShareTaskRequest :=
  mkShareTaskRequest 1 "alice@example.com" view.

(** A store in which Alice's report is shared with Bob and with Carol, and
    a second task of hers with Bob. *)
Definition carol : User := mkUser 3 "uid-carol" "carol@example.com" None 250.
Definition notes : Task := mkTask 2 "Meeting notes" (Some "weekly") inprogress low None 350 350 1.

Definition db_two_shares : DB :=
  mkDB [alice; bob; carol] [report; notes]
       [mkTaskShare 1 1 2 view 400; mkTaskShare 2 1 3 edit 410;
        mkTaskShare 3 2 2 view 420]
       4 3 4.

(** The constraints of [shared/schema.ts]: primary keys drawn from their
    sequences, [firebase_uid] unique, and the three foreign keys. *)
Record consistent (db : DB) : Prop := mkConsistent {
  user_pk : NoDup (map user_id (users db));
  user_seq : Forall (fun u => user_id u < users_id_seq db) (users db);
  user_uid : NoDup (map firebaseUid (users db));
  task_pk : NoDup (map id (tasks db));
  task_seq : Forall (fun t => id t < tasks_id_seq db) (tasks db);
  share_pk : NoDup (map share_id (task_shares db));
  share_seq :
    Forall (fun s => share_id s < task_shares_id_seq db) (task_shares db);
  task_owner_fk :
    Forall (fun t => In (ownerId t) (map user_id (users db))) (tasks db);
  share_task_fk :
    Forall (fun s => In (taskId s) (map id (tasks db))) (task_shares db);
  share_user_fk :
    Forall (fun s => In (sharedWithId s) (map user_id (users db)))
           (task_shares db)
}.

(** A computation that keeps the constraints, whether it returns or throws. *)
Definition keeps {A} (c : M A) : Prop :=
  forall db, consistent db -> consistent (snd (c db)).

(** An entry whose joined columns are all there: the task, its owner's row,
    and the recipient's row of every share listed with it. *)
Definition joined (e : TaskWithOwner) : Prop :=
  exists row u,
    task e = Some row /\ owner e = Some u /\ user_id u = ownerId row /\
    Forall (fun s => exists r, sharedWith s = Some r /\
                               user_id r = sharedWithId (share s) /\
                               taskId (share s) = id row)
           (shares e).

(** The task columns [getTaskById(tid)] returns, if any. *)
Definition taskOf (db : DB) (tid : Z) : option Task :=
  match fst (getTaskById tid db) with
  | inr (Some t) => task t
  | _ => None
  end.

(** The rows of task [tid] in [db] are still rows of [db2], and the share
    rows of [tid] are the same in both. *)
Definition same_task (tid : Z) (db db2 : DB) : Prop :=
  (forall t, In t (tasks db) -> id t = tid -> In t (tasks db2)) /\
  (forall s, taskId s = tid ->
             (In s (task_shares db2) <-> In s (task_shares db))).

(** Carol signing in for the first time. *)
Definition req_carol : AuthUser :=
  mkAuthUser "uid-carol" "carol@example.com" None.

(** A handler body that, when it returns, answers with a status in [S]. *)
Definition answers (S : list Z) (c : M Response) : Prop :=
  forall db r db', c db = (inr r, db') -> In (res_status r) S.

(** The store of a fresh deployment. *)
Definition empty_db : DB := mkDB [] [] [] 1 1 1.

(** A verifier for the examples: two tokens are known. *)
Definition demo_verifier (token : string) : option AuthUser :=
  if String.eqb token "token-alice" then Some req_alice
  else if String.eqb token "token-bob" then Some req_bob
  else None.

(** * Properties *)

(** ** Lists, joins and queries *)

Section ListFacts.
Context {A B : Type}.

Lemma filter_nil_existsb (p : A -> bool) (l : list A) :
  filter p l = [] <-> existsb p l = false.
Proof.
  induction l as [|a l IH]; simpl; [tauto|].
  destruct (p a); simpl; [split; discriminate | exact IH].
Qed.

Lemma existsb_filter_cons (p : A -> bool) (l : list A) a l' :
  filter p l = a :: l' -> existsb p l = true.
Proof.
  intros H. destruct (existsb p l) eqn:E; [reflexivity|].
  apply filter_nil_existsb in E. congruence.
Qed.

Lemma hd_error_limit_1 (l : list A) : hd_error (limit 1 l) = hd_error l.
Proof. destruct l; reflexivity. Qed.

Lemma hd_error_filter_app (p : A -> bool) (l l' : list A) x :
  hd_error (filter p l) = Some x ->
  hd_error (filter p (l ++ l')) = Some x.
Proof.
  rewrite filter_app. destruct (filter p l); simpl; congruence.
Qed.

Lemma hd_error_filter_In (p : A -> bool) (l : list A) x :
  hd_error (filter p l) = Some x -> In x l /\ p x = true.
Proof.
  intros H. apply filter_In.
  destruct (filter p l); simpl in H; inversion H; subst. now left.
Qed.

Lemma map_if_id (p : A -> bool) (g : A -> A) (l : list A) :
  filter p l = [] -> map (fun a => if p a then g a else a) l = l.
Proof.
  induction l as [|a l IH]; simpl; [reflexivity|].
  destruct (p a); [discriminate|]. intros H. now rewrite IH.
Qed.

(** Left joins: every left row survives, in order, at least once. *)

Lemma leftJoin_cons (a : A) (l : list A) (r : list B) on :
  leftJoin (a :: l) r on = rows_of a r on ++ leftJoin l r on.
Proof. reflexivity. Qed.

Lemma rows_of_fst (a : A) (r : list B) on x :
  In x (rows_of a r on) -> fst x = a.
Proof.
  unfold rows_of. destruct (filter (on a) r) as [|b ms].
  - intros [<-|[]]. reflexivity.
  - rewrite in_map_iff. intros (b' & <- & _). reflexivity.
Qed.

Lemma rows_of_not_nil (a : A) (r : list B) on : rows_of a r on <> [].
Proof. unfold rows_of. destruct (filter (on a) r); discriminate. Qed.

Lemma filter_rows_of (p : A -> bool) a (r : list B) on :
  filter (fun x => p (fst x)) (rows_of a r on) =
  if p a then rows_of a r on else [].
Proof.
  assert (H : forall x, In x (rows_of a r on) -> fst x = a)
    by (intros; eapply rows_of_fst; eassumption).
  induction (rows_of a r on) as [|x rs IH]; simpl.
  - now destruct (p a).
  - rewrite (H x (or_introl eq_refl)), IH by (intros; apply H; now right).
    now destruct (p a).
Qed.

Lemma filter_leftJoin_cons (p : A -> bool) a l (r : list B) on :
  filter (fun x => p (fst x)) (leftJoin (a :: l) r on) =
  (if p a then rows_of a r on else [])
    ++ filter (fun x => p (fst x)) (leftJoin l r on).
Proof.
  rewrite leftJoin_cons, filter_app.
  now rewrite filter_rows_of.
Qed.

Lemma hd_error_leftJoin (p : A -> bool) l (r : list B) on :
  option_map fst
    (hd_error (filter (fun x => p (fst x)) (leftJoin l r on))) =
  hd_error (filter p l).
Proof.
  induction l as [|a l IH]; [reflexivity|].
  rewrite filter_leftJoin_cons. simpl. destruct (p a); [|exact IH].
  pose proof (rows_of_not_nil a r on) as Hn.
  pose proof (rows_of_fst a r on) as Hf.
  destruct (rows_of a r on) as [|x rs]; [congruence|].
  simpl. now rewrite (Hf x (or_introl eq_refl)).
Qed.

Lemma In_leftJoin_fst (l : list A) (r : list B) on a :
  In a (map fst (leftJoin l r on)) <-> In a l.
Proof.
  induction l as [|a0 l IH]; [simpl; tauto|].
  rewrite leftJoin_cons.
  rewrite map_app, in_app_iff, IH. simpl.
  pose proof (rows_of_not_nil a0 r on) as Hn.
  pose proof (rows_of_fst a0 r on) as Hf.
  split.
  - intros [H|H]; [left|now right].
    apply in_map_iff in H as (x & <- & Hx). symmetry. now apply Hf.
  - intros [<-|H]; [left|now right].
    destruct (rows_of a0 r on) as [|x rs]; [congruence|].
    left. simpl. now apply Hf; left.
Qed.

Lemma In_filter_leftJoin_fst (p : A -> bool) (l : list A) (r : list B) on a :
  In a (map fst (filter (fun x => p (fst x)) (leftJoin l r on))) <->
  In a l /\ p a = true.
Proof.
  rewrite in_map_iff. split.
  - intros (x & <- & Hx). apply filter_In in Hx as [Hx Hp].
    split; [|exact Hp]. apply (In_leftJoin_fst l r on). now apply in_map.
  - intros [Ha Hp]. apply (In_leftJoin_fst l r on) in Ha.
    apply in_map_iff in Ha as (x & <- & Hx).
    exists x. split; [reflexivity|]. apply filter_In. now split.
Qed.

Lemma existsb_leftJoin (p q : A -> bool) (l : list A) (r : list B) on :
  existsb (fun x => q (fst x))
          (filter (fun x => p (fst x)) (leftJoin l r on)) =
  existsb (fun a => p a && q a) l.
Proof.
  induction l as [|a l IH]; [reflexivity|].
  rewrite filter_leftJoin_cons, existsb_app, IH. simpl. f_equal.
  pose proof (rows_of_not_nil a r on) as Hn.
  pose proof (rows_of_fst a r on) as Hf.
  destruct (p a); [|reflexivity]. simpl.
  induction (rows_of a r on) as [|x rs IHrs]; [congruence|].
  simpl. rewrite (Hf x (or_introl eq_refl)).
  destruct (q a); [reflexivity|]. simpl.
  destruct rs as [|y rs']; [reflexivity|].
  apply IHrs; [discriminate|]. intros z Hz. apply Hf. now right.
Qed.

(** When the join key identifies at most one right row, the join has
    exactly one row per left row. *)
Lemma leftJoin_fst_unique (l : list A) (r : list B) on :
  (forall a, In a l -> (List.length (filter (on a) r) <= 1)%nat) ->
  map fst (leftJoin l r on) = l.
Proof.
  induction l as [|a l IH]; intros H; [reflexivity|].
  rewrite leftJoin_cons, map_app, IH by (intros; apply H; now right).
  specialize (H a (or_introl eq_refl)). unfold rows_of.
  destruct (filter (on a) r) as [|b [|b' ms]]; simpl in *;
    [reflexivity | reflexivity | lia].
Qed.

Lemma map_fst_filter (p : A -> bool) (l : list (A * option B)) :
  map fst (filter (fun x => p (fst x)) l) = filter p (map fst l).
Proof.
  induction l as [|x l IH]; simpl; [reflexivity|].
  destruct (p (fst x)); simpl; now rewrite IH.
Qed.

End ListFacts.

(** A key column without repetition matches at most one row. *)
Lemma filter_key_unique {B} (f : B -> Z) (k : Z) (r : list B) :
  NoDup (map f r) ->
  (List.length (filter (fun b => Z.eqb k (f b)) r) <= 1)%nat.
Proof.
  induction r as [|b r IH]; simpl; intros Hnd; [lia|].
  inversion Hnd as [|x xs Hnotin Hnd']; subst.
  destruct (Z.eqb_spec k (f b)) as [->|Hne]; [|now apply IH].
  assert (Hnil : filter (fun b0 => f b =? f b0) r = []).
  { apply filter_nil_existsb. apply not_true_iff_false. intros Hex.
    apply existsb_exists in Hex as (b' & Hin & Heq).
    apply Z.eqb_eq in Heq. apply Hnotin. rewrite Heq. now apply in_map. }
  rewrite Hnil. simpl. lia.
Qed.


(** ** The task store *)

Lemma set_tasks_same db : set_tasks db (tasks db) (tasks_id_seq db) = db.
Proof. now destruct db. Qed.

Lemma id_and_owner_true tid userId t :
  id_and_owner tid userId t = true <-> id t = tid /\ ownerId t = userId.
Proof.
  unfold id_and_owner. rewrite andb_true_iff, !Z.eqb_eq. tauto.
Qed.

Lemma owns_existsb db tid userId :
  owns db tid userId <-> existsb (id_and_owner tid userId) (tasks db) = true.
Proof.
  unfold owns. rewrite existsb_exists.
  split; intros (t & Hin & H); exists t; (split; [exact Hin|]);
    now apply id_and_owner_true.
Qed.

Lemma not_owns_filter db tid userId :
  ~ owns db tid userId <-> filter (id_and_owner tid userId) (tasks db) = [].
Proof.
  rewrite owns_existsb, filter_nil_existsb.
  destruct (existsb _ _); split; congruence.
Qed.

(** *** Integer parameters *)

Lemma int4_param tid db : int4 tid = true -> task_id_param tid db = true.
Proof. unfold task_id_param. now intros ->. Qed.

Lemma task_row_param tid db t :
  In t (tasks db) -> id t = tid -> task_id_param tid db = true.
Proof.
  intros Hin Hid. unfold task_id_param, task_id_known.
  rewrite !orb_true_iff. right. left. apply existsb_exists.
  exists t. split; [exact Hin | now apply Z.eqb_eq].
Qed.

Lemma share_row_param tid db s :
  In s (task_shares db) -> taskId s = tid -> task_id_param tid db = true.
Proof.
  intros Hin Hid. unfold task_id_param, task_id_known.
  rewrite !orb_true_iff. right. right. apply existsb_exists.
  exists s. split; [exact Hin | now apply Z.eqb_eq].
Qed.

Lemma owns_param db tid userId :
  owns db tid userId -> task_id_param tid db = true.
Proof. intros (t & Hin & Hid & _). now apply (task_row_param tid db t). Qed.

Lemma task_id_param_false tid db :
  task_id_param tid db = false <->
  int4 tid = false /\
  (forall t, In t (tasks db) -> id t <> tid) /\
  (forall s, In s (task_shares db) -> taskId s <> tid).
Proof.
  split.
  - intros H. destruct (int4 tid) eqn:E.
    + now rewrite (int4_param tid db E) in H.
    + split; [reflexivity|]. split.
      * intros t Hin Hid. now rewrite (task_row_param tid db t Hin Hid) in H.
      * intros x Hin Hid. now rewrite (share_row_param tid db x Hin Hid) in H.
  - intros (Hr & Ht & Hs). unfold task_id_param, task_id_known. rewrite Hr.
    simpl. apply orb_false_iff. split; apply not_true_iff_false; intros Hex;
      apply existsb_exists in Hex as (x & Hin & Hid); apply Z.eqb_eq in Hid.
    + exact (Ht x Hin Hid).
    + exact (Hs x Hin Hid).
Qed.

(** On a store whose rows hold 32-bit task identifiers, as every store of
    the database does, the test is the range test. *)
Lemma task_id_param_int4 tid db :
  (forall t, In t (tasks db) -> int4 (id t) = true) ->
  (forall s, In s (task_shares db) -> int4 (taskId s) = true) ->
  task_id_param tid db = int4 tid.
Proof.
  intros Ht Hs. destruct (int4 tid) eqn:Hr; [now apply int4_param|].
  apply task_id_param_false. split; [exact Hr|]. split.
  - intros t Hin Hid. specialize (Ht t Hin). congruence.
  - intros x Hin Hid. specialize (Hs x Hin). congruence.
Qed.

Lemma existsb_map_key {A} (f : A -> Z) (k : Z) (l : list A) :
  existsb (fun a => f a =? k) l = existsb (fun x => x =? k) (map f l).
Proof. induction l as [|a l IH]; simpl; [reflexivity | now rewrite IH]. Qed.

Lemma task_id_param_same db db' tid :
  map id (tasks db') = map id (tasks db) ->
  task_shares db' = task_shares db ->
  task_id_param tid db' = task_id_param tid db.
Proof.
  intros Ht Hs. unfold task_id_param, task_id_known.
  now rewrite Hs, !(existsb_map_key id), Ht.
Qed.

(** [updateTask] in closed form: it raises the range error and leaves the
    store as it was when the id is no value of the column; otherwise it
    throws its own error and leaves the store as it was when no row
    matches, and else rewrites every matching row and returns the first. *)
Lemma updateTask_eq tid userId updates clk db :
  updateTask tid userId updates clk db =
  if task_id_param tid db then
    match filter (id_and_owner tid userId) (tasks db) with
    | [] => (inl (Error "Task not found or access denied"), db)
    | t0 :: _ =>
        (inr (apply_updates updates clk t0),
         set_tasks db
           (map (fun t => if id_and_owner tid userId t
                          then apply_updates updates clk t else t) (tasks db))
           (tasks_id_seq db))
    end
  else (inl out_of_range, db).
Proof.
  unfold updateTask, bind, checked.
  destruct (task_id_param tid db); [|reflexivity].
  destruct (filter (id_and_owner tid userId) (tasks db)) eqn:E; simpl.
  - unfold throw. now rewrite map_if_id, set_tasks_same.
  - reflexivity.
Qed.

(** C1, as stated, fails: Alice owns task 1 and no task has the id
    2147483648, which is no 32-bit integer; [updateTask] for that id does
    not fail with "Task not found or access denied" but with the range
    error of the database. *)
Lemma updateTask_id_out_of_range :
  (forall t, In t (tasks db_shared) -> id t <> 2147483648) /\
  updateTask 2147483648 1 rename clock0 db_shared =
  (inl out_of_range, db_shared) /\
  out_of_range <> Error "Task not found or access denied".
Proof.
  repeat split.
  - intros t [<-|[]]. discriminate.
  - discriminate.
Qed.

(** C1, amended: [updateTask(id, userId, patch)] returns a task exactly when
    a task with that id owned by [userId] exists, and then the returned
    task is that row with the patch applied, stored in place of the old
    one, rows of other owners being untouched.  In every other case it
    fails and the store is left exactly as it was: for an id the database
    accepts as a value of the id column, which every id in the 32-bit range
    is, with the one error "Task not found or access denied", whether no
    task has the id or another user owns it; for any other id, which is
    then outside the 32-bit range and carried by no row, with the range
    error of the database. *)
Theorem updateTask_owner_only :
  forall tid userId updates clk db,
    ((exists t db', updateTask tid userId updates clk db = (inr t, db'))
     <-> owns db tid userId) /\
    (forall t db',
        updateTask tid userId updates clk db = (inr t, db') ->
        (exists t0, In t0 (tasks db) /\ id t0 = tid /\ ownerId t0 = userId /\
                    t = apply_updates updates clk t0) /\
        In t (tasks db') /\
        (forall t1, In t1 (tasks db) -> ownerId t1 <> userId ->
                    In t1 (tasks db'))) /\
    (~ owns db tid userId -> task_id_param tid db = true ->
     updateTask tid userId updates clk db =
     (inl (Error "Task not found or access denied"), db)) /\
    (task_id_param tid db = false ->
     updateTask tid userId updates clk db = (inl out_of_range, db)) /\
    (forall e db',
        updateTask tid userId updates clk db = (inl e, db') ->
        db' = db /\ ~ owns db tid userId) /\
    (int4 tid = true -> task_id_param tid db = true) /\
    (task_id_param tid db = false <->
     int4 tid = false /\
     (forall t, In t (tasks db) -> id t <> tid) /\
     (forall s, In s (task_shares db) -> taskId s <> tid)).
Proof.
  intros tid userId updates clk db.
  cut (((exists t db', updateTask tid userId updates clk db = (inr t, db'))
        <-> owns db tid userId) /\
       (forall t db',
           updateTask tid userId updates clk db = (inr t, db') ->
           (exists t0, In t0 (tasks db) /\ id t0 = tid /\ ownerId t0 = userId /\
                       t = apply_updates updates clk t0) /\
           In t (tasks db') /\
           (forall t1, In t1 (tasks db) -> ownerId t1 <> userId ->
                       In t1 (tasks db'))) /\
       (~ owns db tid userId -> int4 tid = true ->
        updateTask tid userId updates clk db =
        (inl (Error "Task not found or access denied"), db)) /\
       (int4 tid = false ->
        (forall t, In t (tasks db) -> id t <> tid) ->
        (forall s, In s (task_shares db) -> taskId s <> tid) ->
        updateTask tid userId updates clk db = (inl out_of_range, db)) /\
       (forall e db',
           updateTask tid userId updates clk db = (inl e, db') ->
           db' = db /\ ~ owns db tid userId)).
  { intros (H1 & H2 & _ & H4 & H5).
    split; [exact H1|]. split; [exact H2|].
    split; [|split; [|split; [exact H5|split]]].
    - intros Hn Hp. rewrite updateTask_eq, Hp.
      now rewrite (proj1 (not_owns_filter _ _ _) Hn).
    - intros Hp. now rewrite updateTask_eq, Hp.
    - apply int4_param.
    - apply task_id_param_false. }
  rewrite updateTask_eq.
  destruct (task_id_param tid db) eqn:Ep.
  - destruct (filter (id_and_owner tid userId) (tasks db)) as [|t0 rest] eqn:E.
    + assert (Hn : ~ owns db tid userId) by now apply not_owns_filter.
      split; [|split; [|split; [|split]]].
      * split; [intros (t & db' & H); discriminate | intros H; contradiction].
      * discriminate.
      * reflexivity.
      * intros Hr Ht Hs.
        assert (Hf : task_id_param tid db = false)
          by (apply task_id_param_false; auto).
        congruence.
      * intros e db' H. inversion H; subst. split; [reflexivity | assumption].
    + assert (H0 : In t0 (tasks db) /\ id_and_owner tid userId t0 = true).
      { apply filter_In. rewrite E. now left. }
      destruct H0 as [Hin Hm]. pose proof Hm as Hm'.
      apply id_and_owner_true in Hm' as [Hid Hown].
      assert (Ho : owns db tid userId) by (exists t0; auto).
      split; [|split; [|split; [|split]]].
      * split; [intros _; exact Ho | intros _; eauto].
      * intros t db' H. inversion H; subst t db'; clear H. simpl.
        split; [exists t0; auto|]. split.
        -- apply in_map_iff. exists t0. now rewrite Hm.
        -- intros t1 Hin1 Hne. apply in_map_iff. exists t1.
           split; [|exact Hin1].
           destruct (id_and_owner tid userId t1) eqn:E1; [|reflexivity].
           apply id_and_owner_true in E1. tauto.
      * intros Hn. contradiction.
      * intros _ Ht _. exfalso. exact (Ht t0 Hin Hid).
      * discriminate.
  - assert (Hn : ~ owns db tid userId).
    { intros Ho. apply owns_param in Ho. congruence. }
    apply task_id_param_false in Ep as (Hr & _ & _).
    split; [|split; [|split; [|split]]].
    + split; [intros (t & db' & H); discriminate | intros H; contradiction].
    + discriminate.
    + intros _ Hi. congruence.
    + reflexivity.
    + intros e db' H. inversion H; subst. split; [reflexivity | assumption].
Qed.

Lemma filter_all_true {A} (p : A -> bool) (l : list A) :
  (forall a, In a l -> p a = true) -> filter p l = l.
Proof.
  induction l as [|a l IH]; intros H; simpl; [reflexivity|].
  rewrite (H a (or_introl eq_refl)), IH; [reflexivity|].
  intros; apply H; now right.
Qed.

Lemma filter_negb_length {A} (p : A -> bool) (l : list A) :
  (List.length (filter (fun a => negb (p a)) l) < List.length l)%nat <->
  existsb p l = true.
Proof.
  induction l as [|a l IH]; simpl; [split; [lia|discriminate]|].
  pose proof (filter_length_le (fun a => negb (p a)) l) as Hle.
  destruct (p a); simpl; [split; [reflexivity|lia]|].
  rewrite <- IH. lia.
Qed.

Lemma deleteTask_eq tid userId db :
  int4 tid = true ->
  deleteTask tid userId db =
  (inr (Nat.ltb 0 (List.length (filter (id_and_owner tid userId) (tasks db)))),
   mkDB (users db)
        (filter (fun t => negb (id_and_owner tid userId t)) (tasks db))
        (filter (fun s =>
                   negb (existsb (fun t => id t =? taskId s)
                                 (filter (id_and_owner tid userId) (tasks db))))
                (task_shares db))
        (users_id_seq db) (tasks_id_seq db) (task_shares_id_seq db)).
Proof. intros H. unfold deleteTask, bind, checked. now rewrite H. Qed.

Lemma deleteTask_range tid userId db :
  int4 tid = false -> deleteTask tid userId db = (inl out_of_range, db).
Proof. intros H. unfold deleteTask, bind, checked. now rewrite H. Qed.

(** C4, as stated, fails: the id 2147483648 is no 32-bit integer and no
    task has it, so the caller is not the owner; [deleteTask] for that id
    does not return [false] but throws the range error of the database. *)
Lemma deleteTask_id_out_of_range :
  (forall t, In t (tasks db_shared) -> id t <> 2147483648) /\
  deleteTask 2147483648 1 db_shared = (inl out_of_range, db_shared).
Proof.
  split; [|reflexivity]. intros t [<-|[]]. discriminate.
Qed.

(** C4, amended: for an id in the 32-bit range of the id column,
    [deleteTask(id, userId)] returns [true] exactly when a task with that id
    owned by [userId] exists, which is exactly when a row is removed; the
    rows removed are those with that id and that owner and no other, and
    when the caller owns no task with that id, whether or not the id
    exists, the result is [false] and the store is unchanged.  For an id
    outside that range it throws the range error of the database and the
    store is unchanged. *)
Theorem deleteTask_owner_only :
  forall tid userId db,
    (int4 tid = true ->
     exists b db',
       deleteTask tid userId db = (inr b, db') /\
       (b = true <-> owns db tid userId) /\
       (b = true <-> (List.length (tasks db') < List.length (tasks db))%nat) /\
       (forall t, In t (tasks db') <->
                  In t (tasks db) /\ ~ (id t = tid /\ ownerId t = userId)) /\
       (~ owns db tid userId -> b = false /\ db' = db)) /\
    (int4 tid = false ->
     deleteTask tid userId db = (inl out_of_range, db)).
Proof.
  intros tid userId db. split; [|apply deleteTask_range].
  intros Hr. rewrite (deleteTask_eq _ _ _ Hr).
  eexists; eexists; split; [reflexivity|]. simpl.
  assert (Hb : Nat.ltb 0 (List.length (filter (id_and_owner tid userId)
                                              (tasks db))) = true
               <-> owns db tid userId).
  { rewrite owns_existsb.
    destruct (filter (id_and_owner tid userId) (tasks db)) eqn:E; simpl.
    - apply filter_nil_existsb in E. rewrite E. split; discriminate.
    - apply existsb_filter_cons in E. rewrite E. tauto. }
  split; [exact Hb|]. split; [|split].
  - rewrite Hb, owns_existsb. symmetry. apply filter_negb_length.
  - intros t. rewrite filter_In, negb_true_iff.
    rewrite <- id_and_owner_true.
    destruct (id_and_owner tid userId t); intuition congruence.
  - intros Hn. pose proof Hn as Hf. apply not_owns_filter in Hf.
    rewrite Hf. simpl. split; [reflexivity|].
    rewrite !filter_all_true; [now destruct db | reflexivity |].
    intros t Hin. apply negb_true_iff.
    destruct (id_and_owner tid userId t) eqn:E; [|reflexivity].
    exfalso. apply Hn. exists t. apply id_and_owner_true in E. tauto.
Qed.

Lemma sharesOf_nil tid db :
  (forall s, In s (task_shares db) -> taskId s <> tid) -> sharesOf tid db = [].
Proof.
  intros H. unfold sharesOf.
  destruct (filter _ _) as [|x rest] eqn:E; [reflexivity|]. exfalso.
  assert (Hx : In (fst x)
                  (map fst (filter (fun r => taskId (fst r) =? tid)
                              (leftJoin (task_shares db) (users db)
                                        on_sharedWith)))).
  { rewrite E. now left. }
  apply (In_filter_leftJoin_fst (fun s => taskId s =? tid)) in Hx as [Hin Hp].
  apply Z.eqb_eq in Hp. exact (H _ Hin Hp).
Qed.

(** C5: after [deleteTask] has removed a task, [getTaskShares] of that task
    is the empty list and the share table holds no row that references it;
    the share rows of other tasks are all still there. *)
Theorem deleteTask_cascades :
  forall tid userId db db',
    deleteTask tid userId db = (inr true, db') ->
    getTaskShares tid db' = (inr [], db') /\
    (forall s, In s (task_shares db') <->
               In s (task_shares db) /\ taskId s <> tid).
Proof.
  intros tid userId db db' H.
  assert (Hr : int4 tid = true).
  { destruct (int4 tid) eqn:E; [reflexivity|].
    rewrite (deleteTask_range _ _ _ E) in H. discriminate. }
  rewrite (deleteTask_eq _ _ _ Hr) in H.
  inversion H as [[Hb Hdb]]; clear H.
  assert (Hs : forall s,
             In s (task_shares (mkDB (users db)
                  (filter (fun t => negb (id_and_owner tid userId t)) (tasks db))
                  (filter (fun s =>
                     negb (existsb (fun t => id t =? taskId s)
                            (filter (id_and_owner tid userId) (tasks db))))
                     (task_shares db))
                  (users_id_seq db) (tasks_id_seq db) (task_shares_id_seq db)))
             <-> In s (task_shares db) /\ taskId s <> tid).
  { intros s. simpl. rewrite filter_In, negb_true_iff.
    destruct (filter (id_and_owner tid userId) (tasks db)) as [|t0 rest] eqn:E;
      [discriminate|].
    assert (Hall : forall t, In t (t0 :: rest) -> id t = tid).
    { intros t Ht. rewrite <- E in Ht. apply filter_In in Ht as [_ Ht].
      now apply id_and_owner_true in Ht. }
    split; intros [Hin Hc]; (split; [exact Hin|]).
    - intros Heq. apply not_true_iff_false in Hc. apply Hc.
      apply existsb_exists. exists t0. split; [now left|].
      apply Z.eqb_eq. rewrite Heq. apply Hall. now left.
    - apply not_true_iff_false. intros Hex.
      apply existsb_exists in Hex as (t & Ht & Hid).
      apply Z.eqb_eq in Hid. apply Hc. rewrite <- Hid. now apply Hall. }
  split; [|exact Hs].
  unfold getTaskShares, gets, checked. rewrite (int4_param _ _ Hr).
  rewrite sharesOf_nil; [reflexivity|].
  intros s Hin. now apply Hs in Hin.
Qed.

Lemma deleteTask_cascades_witness :
  deleteTask 1 1 db_two_shares =
  (inr true, mkDB [alice; bob; carol] [notes] [mkTaskShare 3 2 2 view 420]
                  4 3 4) /\
  getTaskShares 1 (snd (deleteTask 1 1 db_two_shares)) =
  (inr [], snd (deleteTask 1 1 db_two_shares)) /\
  (forall s, In s (task_shares (snd (deleteTask 1 1 db_two_shares))) <->
             In s (task_shares db_two_shares) /\ taskId s <> 1).
Proof.
  split; [reflexivity|].
  apply (deleteTask_cascades 1 1 db_two_shares). reflexivity.
Defined.

(** [getTaskById] in closed form: a pure read of the first join row with
    that id, or the range error. *)
Lemma getTaskById_eq tid db :
  task_id_param tid db = true ->
  getTaskById tid db =
  (inr (option_map
          (fun r => mkTaskWithOwner (Some (fst r)) (snd r) (sharesOf tid db))
          (hd_error (filter (fun r => id (fst r) =? tid)
                            (leftJoin (tasks db) (users db) on_owner)))),
   db).
Proof.
  intros Hp. unfold getTaskById, bind, gets, checked. rewrite Hp.
  destruct (filter _ _); reflexivity.
Qed.

Lemma getTaskById_range tid db :
  task_id_param tid db = false ->
  getTaskById tid db = (inl out_of_range, db).
Proof.
  intros Hp. unfold getTaskById, bind, checked. now rewrite Hp.
Qed.

Lemma getTaskById_task tid db :
  task_id_param tid db = true ->
  exists t,
    getTaskById tid db = (inr t, db) /\
    match t with
    | Some tw =>
        task tw = hd_error (filter (fun t => id t =? tid) (tasks db)) /\
        task tw <> None /\ shares tw = sharesOf tid db
    | None => hd_error (filter (fun t => id t =? tid) (tasks db)) = None
    end.
Proof.
  intros Hp. rewrite (getTaskById_eq _ _ Hp). eexists. split; [reflexivity|].
  rewrite <- (hd_error_leftJoin (fun t => id t =? tid) (tasks db) (users db)
                                on_owner).
  destruct (hd_error _); simpl; [|reflexivity].
  repeat split. discriminate.
Qed.

(** Either way [getTaskById] leaves the store alone. *)
Lemma getTaskById_cases tid db :
  (task_id_param tid db = true /\
   exists t,
     getTaskById tid db = (inr t, db) /\
     match t with
     | Some tw =>
         task tw = hd_error (filter (fun t => id t =? tid) (tasks db)) /\
         task tw <> None /\ shares tw = sharesOf tid db
     | None => hd_error (filter (fun t => id t =? tid) (tasks db)) = None
     end) \/
  (task_id_param tid db = false /\
   getTaskById tid db = (inl out_of_range, db)).
Proof.
  destruct (task_id_param tid db) eqn:Hp.
  - left. split; [reflexivity|]. now apply getTaskById_task.
  - right. split; [reflexivity|]. now apply getTaskById_range.
Qed.

Lemma no_task_row tid db :
  task_id_param tid db = false ->
  hd_error (filter (fun t => id t =? tid) (tasks db)) = None.
Proof.
  intros Hp. apply task_id_param_false in Hp as (_ & Ht & _).
  destruct (hd_error _) as [t|] eqn:E; [|reflexivity].
  apply hd_error_filter_In in E as [Hin Hid]. apply Z.eqb_eq in Hid.
  now elim (Ht t Hin).
Qed.

Lemma ownerOf_eq db tid :
  ownerOf db tid =
  option_map ownerId (hd_error (filter (fun t => id t =? tid) (tasks db))).
Proof.
  unfold ownerOf.
  destruct (getTaskById_cases tid db) as [(_ & t & -> & H) | (Hp & ->)]; simpl.
  - destruct t as [tw|]; [|now rewrite H].
    destruct H as (-> & _). reflexivity.
  - now rewrite (no_task_row _ _ Hp).
Qed.

(** The (id, owner) column pair of the task table. *)
Lemma first_owner_by_keys tid (l : list Task) :
  option_map ownerId (hd_error (filter (fun t => id t =? tid) l)) =
  option_map snd
    (hd_error (filter (fun k => fst k =? tid)
                      (map (fun t => (id t, ownerId t)) l))).
Proof.
  induction l as [|t l IH]; simpl; [reflexivity|].
  destruct (id t =? tid); [reflexivity | exact IH].
Qed.

Lemma updateTask_keeps_keys tid userId updates clk db :
  map (fun t => (id t, ownerId t))
      (tasks (snd (updateTask tid userId updates clk db))) =
  map (fun t => (id t, ownerId t)) (tasks db).
Proof.
  rewrite updateTask_eq.
  destruct (task_id_param tid db); [|reflexivity].
  destruct (filter (id_and_owner tid userId) (tasks db)) as [|t0 rest];
    [reflexivity|].
  simpl. rewrite map_map. apply map_ext. intros t.
  now destruct (id_and_owner tid userId t).
Qed.

Lemma run_updates_keeps_keys calls :
  forall db,
    map (fun t => (id t, ownerId t)) (tasks (run_updates calls db)) =
    map (fun t => (id t, ownerId t)) (tasks db).
Proof.
  unfold run_updates.
  induction calls as [|c calls IH]; intros db; simpl; [reflexivity|].
  now rewrite IH, updateTask_keeps_keys.
Qed.

(** C6: whatever calls of [updateTask] are run, by whichever callers and
    with whichever patches, [getTaskById(id).ownerId] is afterwards what it
    was before, for every id; the identifiers and owners of the table, row
    by row, are unchanged. *)
Theorem owner_immutable_across_updates :
  forall calls db tid,
    ownerOf (run_updates calls db) tid = ownerOf db tid /\
    map (fun t => (id t, ownerId t)) (tasks (run_updates calls db)) =
    map (fun t => (id t, ownerId t)) (tasks db).
Proof.
  intros calls db tid. split; [|apply run_updates_keeps_keys].
  now rewrite !ownerOf_eq, !first_owner_by_keys, run_updates_keeps_keys.
Qed.

(** ** The user directory *)

Lemma getUserByFirebaseUid_eq fuid db :
  getUserByFirebaseUid fuid db =
  (inr (hd_error (filter (fun u => String.eqb (firebaseUid u) fuid) (users db))),
   db).
Proof.
  unfold getUserByFirebaseUid, bind, gets, ret. now rewrite hd_error_limit_1.
Qed.

Lemma getUserByEmail_eq mail db :
  getUserByEmail mail db =
  (inr (hd_error (filter (fun u => String.eqb (email u) mail) (users db))), db).
Proof.
  unfold getUserByEmail, bind, gets, ret. now rewrite hd_error_limit_1.
Qed.

(** A user that is already registered is returned and nothing is written. *)
Lemma currentUser_found req clk db user :
  hd_error (filter (fun u => String.eqb (firebaseUid u) (uid req)) (users db))
  = Some user ->
  currentUser req clk db = (inr user, db).
Proof.
  intros H. unfold currentUser, getOrCreateUser, bind.
  now rewrite getUserByFirebaseUid_eq, H.
Qed.

(** [getOrCreateUser] never throws: it returns the registered user, or adds
    one row to [users] and returns it.  It writes no other table. *)
Lemma currentUser_ok req clk db :
  exists user db1,
    currentUser req clk db = (inr user, db1) /\
    tasks db1 = tasks db /\
    task_shares db1 = task_shares db /\
    tasks_id_seq db1 = tasks_id_seq db /\
    task_shares_id_seq db1 = task_shares_id_seq db /\
    (exists extra, users db1 = users db ++ extra) /\
    hd_error (filter (fun u => String.eqb (firebaseUid u) (uid req)) (users db1))
    = Some user.
Proof.
  unfold currentUser, getOrCreateUser, bind.
  rewrite getUserByFirebaseUid_eq.
  destruct (hd_error _) as [u|] eqn:E.
  - exists u, db. repeat split; try assumption.
    exists []. now rewrite app_nil_r.
  - unfold createUser. simpl.
    assert (Hf : filter (fun u => String.eqb (firebaseUid u) (uid req))
                        (users db) = []).
    { destruct (filter _ _); [reflexivity | discriminate]. }
    pose proof Hf as Hex. apply filter_nil_existsb in Hex. rewrite Hex.
    eexists; eexists; split; [reflexivity|]. simpl.
    repeat split.
    + eexists; reflexivity.
    + rewrite filter_app, Hf. simpl. now rewrite String.eqb_refl.
Qed.

(** ** Reading one task *)

Lemma existsb_sharesOf (q : TaskShare -> bool) tid db :
  existsb (fun s => q (share s)) (sharesOf tid db) =
  existsb (fun s => (taskId s =? tid) && q s) (task_shares db).
Proof.
  unfold sharesOf.
  rewrite <- (existsb_leftJoin (fun s => taskId s =? tid) q (task_shares db)
                               (users db) on_sharedWith).
  induction (filter _ _) as [|x l IH]; simpl; [reflexivity|]. now rewrite IH.
Qed.

Lemma sharedTo_existsb db tid userId :
  sharedTo db tid userId <->
  existsb (fun s => sharedWithId (share s) =? userId) (sharesOf tid db) = true.
Proof.
  rewrite (existsb_sharesOf (fun s => sharedWithId s =? userId)).
  unfold sharedTo. rewrite existsb_exists.
  split; intros (s & Hin & H); exists s; (split; [exact Hin|]).
  - destruct H as [-> ->]. now rewrite !Z.eqb_refl.
  - apply andb_true_iff in H as [H1 H2]. now rewrite Z.eqb_eq in H1, H2.
Qed.

(** C2: for a task that exists, [GET /api/tasks/:id] answers 200 with the
    task exactly when the caller is its owner or some share row of the task
    names the caller as recipient, and answers 403 "Access denied" exactly
    when neither holds. *)
Theorem get_task_access :
  forall req tid clk db t0,
    In t0 (tasks db) -> id t0 = tid ->
    exists user db1 tw row,
      currentUser req clk db = (inr user, db1) /\
      getTaskById tid db1 = (inr (Some tw), db1) /\
      task tw = Some row /\ In row (tasks db) /\ id row = tid /\
      ((ownerId row = user_id user \/ sharedTo db tid (user_id user)) <->
       get_task req tid clk db =
       (mkResponse 200 (JTaskWithOwner tw), db1)) /\
      (~ (ownerId row = user_id user \/ sharedTo db tid (user_id user)) <->
       get_task req tid clk db =
       (mkResponse 403 (JMessage "Access denied"), db1)).
Proof.
  intros req tid clk db t0 Hin0 Hid0.
  destruct (currentUser_ok req clk db)
    as (user & db1 & Hcu & Ht & Hs & _ & _ & _ & _).
  assert (Hp : task_id_param tid db1 = true).
  { apply (task_row_param tid db1 t0); [now rewrite Ht | exact Hid0]. }
  destruct (getTaskById_task tid db1 Hp) as (t & Hget & Hspec).
  rewrite Ht in Hspec.
  destruct (hd_error (filter (fun t => id t =? tid) (tasks db)))
    as [row|] eqn:Hhd.
  2:{ exfalso.
      assert (Hf : In t0 (filter (fun t => id t =? tid) (tasks db))).
      { apply filter_In. split; [exact Hin0|]. now apply Z.eqb_eq. }
      destruct (filter _ _); [contradiction | discriminate]. }
  destruct t as [tw|]; [|discriminate].
  destruct Hspec as (Htask & _ & Hshares).
  apply hd_error_filter_In in Hhd as [Hrow Hrid]. apply Z.eqb_eq in Hrid.
  exists user, db1, tw, row. repeat (split; [assumption|]).
  assert (Hacc : hasAccess tw user = true <->
                 ownerId row = user_id user \/ sharedTo db tid (user_id user)).
  { unfold hasAccess. rewrite Htask, Hshares, orb_true_iff, Z.eqb_eq.
    rewrite <- (sharedTo_existsb db1). unfold sharedTo. rewrite Hs. tauto. }
  assert (Hrun : get_task req tid clk db =
                 (if negb (hasAccess tw user)
                  then mkResponse 403 (JMessage "Access denied")
                  else mkResponse 200 (JTaskWithOwner tw), db1)).
  { unfold get_task, try_catch, bind. rewrite Hcu, Hget.
    now destruct (hasAccess tw user). }
  rewrite Hrun, <- Hacc.
  destruct (hasAccess tw user); simpl; split; split;
    intros H; try reflexivity; try congruence; try discriminate.
Qed.

Lemma get_task_access_witness :
  exists user db1 tw row,
    currentUser req_bob clock0 db_shared = (inr user, db1) /\
    getTaskById 1 db1 = (inr (Some tw), db1) /\
    task tw = Some row /\ In row (tasks db_shared) /\ id row = 1 /\
    ((ownerId row = user_id user \/ sharedTo db_shared 1 (user_id user)) <->
     get_task req_bob 1 clock0 db_shared =
     (mkResponse 200 (JTaskWithOwner tw), db1)) /\
    (~ (ownerId row = user_id user \/ sharedTo db_shared 1 (user_id user)) <->
     get_task req_bob 1 clock0 db_shared =
     (mkResponse 403 (JMessage "Access denied"), db1)).
Proof.
  apply (get_task_access req_bob 1 clock0 db_shared report).
  - simpl. left. reflexivity.
  - reflexivity.
Defined.

(** ** Updating through the gateway *)

(** C8, as stated, fails: Bob holds a view share of Alice's task and is not
    its owner; his [PUT /api/tasks/1] with a well-formed body is answered
    404, not 403, and nothing is written. *)
Lemma put_task_by_view_recipient_is_404 :
  In share_view (task_shares db_shared) /\
  taskId share_view = id report /\
  sharedWithId share_view = user_id bob /\
  permission share_view = view /\
  ownerId report = user_id alice /\
  currentUser req_bob clock0 db_shared = (inr bob, db_shared) /\
  put_task req_bob 1 (Some rename) clock0 db_shared =
  (mkResponse 404 (JMessage "Task not found or access denied"), db_shared) /\
  res_status (fst (put_task req_bob 1 (Some rename) clock0 db_shared)) <> 403.
Proof.
  repeat split; try reflexivity.
  - simpl. left. reflexivity.
  - vm_compute. discriminate.
Qed.

(** C8, amended: when a user who is not the owner of the task, and to whom
    the task is shared under whichever permission, calls [PUT /api/tasks/:id],
    the storage-level ownership check blocks the update: the answer is 404
    "Task not found or access denied" for a body that passes validation (400
    for one that does not), and no task or share row is changed. *)
Theorem put_task_by_recipient_blocked :
  forall req tid body clk db user db1 s,
    currentUser req clk db = (inr user, db1) ->
    In s (task_shares db) -> taskId s = tid ->
    sharedWithId s = user_id user ->
    ~ owns db tid (user_id user) ->
    put_task req tid body clk db =
    (match body with
     | Some _ => mkResponse 404 (JMessage "Task not found or access denied")
     | None => mkResponse 400 (JInvalid "Invalid update data")
     end, db1) /\
    tasks db1 = tasks db /\ task_shares db1 = task_shares db.
Proof.
  intros req tid body clk db user db1 s Hcu Hin Htid _ Hn.
  destruct (currentUser_ok req clk db)
    as (user' & db1' & Hcu' & Ht & Hs & _).
  rewrite Hcu in Hcu'. inversion Hcu'; subst user' db1'; clear Hcu'.
  split; [|now split].
  unfold put_task, try_catch, bind. rewrite Hcu.
  destruct body as [updates|]; simpl; [|reflexivity].
  rewrite updateTask_eq.
  assert (Hp : task_id_param tid db1 = true).
  { apply (share_row_param tid db1 s); [now rewrite Hs | exact Htid]. }
  assert (Hf : filter (id_and_owner tid (user_id user)) (tasks db1) = []).
  { rewrite Ht. now apply not_owns_filter. }
  now rewrite Hp, Hf.
Qed.

Lemma put_task_by_recipient_blocked_witness :
  put_task req_bob 1 (Some rename) clock0 db_shared =
  (mkResponse 404 (JMessage "Task not found or access denied"), db_shared) /\
  tasks db_shared = tasks db_shared /\
  task_shares db_shared = task_shares db_shared.
Proof.
  apply (put_task_by_recipient_blocked req_bob 1 (Some rename) clock0
           db_shared bob db_shared share_view).
  - reflexivity.
  - simpl. left. reflexivity.
  - reflexivity.
  - reflexivity.
  - intros (t & Hin & Hid & Hown). simpl in Hin.
    destruct Hin as [<-|[]]. discriminate.
Defined.

(** Through the gateway as well: whatever the body of a [PUT], the
    identifiers and owners of the task table are afterwards what they
    were. *)
Lemma put_task_keeps_keys req tid body clk db :
  map (fun t => (id t, ownerId t))
      (tasks (snd (put_task req tid body clk db))) =
  map (fun t => (id t, ownerId t)) (tasks db).
Proof.
  destruct (currentUser_ok req clk db) as (user & db1 & Hcu & Ht & _).
  unfold put_task, try_catch, bind, parse, ret, throw. rewrite Hcu.
  destruct body as [updates|]; [|now rewrite <- Ht].
  pose proof (updateTask_keeps_keys tid (user_id user) updates clk db1) as Hk.
  destruct (updateTask tid (user_id user) updates clk db1) as [[e|t] db2];
    simpl in *; now rewrite <- Ht.
Qed.

(** ** Sharing *)

Lemma not_owner_ownerOf tid db t user :
  getTaskById tid db = (inr t, db) ->
  (not_owner t user = false <-> ownerOf db tid = Some (user_id user)).
Proof.
  intros H. unfold ownerOf. rewrite H. simpl. unfold not_owner.
  destruct t as [tw|]; [|split; discriminate].
  destruct (task tw) as [row|]; simpl; [|split; discriminate].
  rewrite negb_false_iff, Z.eqb_eq. split; congruence.
Qed.

Lemma ownerOf_param db tid userId :
  ownerOf db tid = Some userId -> task_id_param tid db = true.
Proof.
  rewrite ownerOf_eq. intros H.
  destruct (hd_error _) as [t|] eqn:E; [|discriminate].
  apply hd_error_filter_In in E as [Hin Hid]. apply Z.eqb_eq in Hid.
  exact (task_row_param tid db t Hin Hid).
Qed.

Lemma getTaskShares_eq tid db :
  task_id_param tid db = true ->
  getTaskShares tid db = (inr (sharesOf tid db), db).
Proof. intros H. unfold getTaskShares, checked, gets. now rewrite H. Qed.

Lemma getTaskShares_range tid db :
  task_id_param tid db = false ->
  getTaskShares tid db = (inl out_of_range, db).
Proof. intros H. unfold getTaskShares, checked. now rewrite H. Qed.

(** The duplicate check of [POST /api/tasks/share]: when the owner asks to
    share a task with a registered recipient who already has a share row for
    it, the scan of the existing shares finds it, the answer is 400 and
    nothing is written, whichever permission the request asks for. *)
Lemma post_share_duplicate req sd clk db user recipient :
  hd_error (filter (fun u => String.eqb (firebaseUid u) (uid req)) (users db))
  = Some user ->
  ownerOf db (req_taskId sd) = Some (user_id user) ->
  hd_error (filter (fun u => String.eqb (email u) (req_email sd)) (users db))
  = Some recipient ->
  sharedTo db (req_taskId sd) (user_id recipient) ->
  post_share req (Some sd) clk db =
  (mkResponse 400 (JMessage "Task is already shared with this user"), db).
Proof.
  intros Hu Ho Hr Hs.
  pose proof (ownerOf_param _ _ _ Ho) as Hp.
  unfold post_share, try_catch, bind, parse, ret.
  rewrite (currentUser_found _ _ _ _ Hu).
  destruct (getTaskById_task (req_taskId sd) db Hp) as (t & Hget & _).
  rewrite Hget.
  apply (not_owner_ownerOf _ _ _ user Hget) in Ho. rewrite Ho.
  rewrite getUserByEmail_eq, Hr.
  rewrite (getTaskShares_eq _ _ Hp).
  apply sharedTo_existsb in Hs. now rewrite Hs.
Qed.

(** What a share request answered 201 has done. *)
Lemma post_share_created req sd clk db r db' :
  post_share req (Some sd) clk db = (r, db') ->
  res_status r = 201 ->
  exists user rcp row,
    hd_error (filter (fun u => String.eqb (firebaseUid u) (uid req)) (users db'))
    = Some user /\
    ownerOf db' (req_taskId sd) = Some (user_id user) /\
    hd_error (filter (fun u => String.eqb (email u) (req_email sd)) (users db'))
    = Some rcp /\
    r = mkResponse 201 (JShare row) /\
    task_shares db' = task_shares db ++ [row] /\
    taskId row = req_taskId sd /\ sharedWithId row = user_id rcp /\
    permission row = req_permission sd /\
    tasks db' = tasks db /\
    ~ sharedTo db (req_taskId sd) (user_id rcp).
Proof.
  intros H H201.
  destruct (currentUser_ok req clk db)
    as (user & db1 & Hcu & Ht & Hs & _ & _ & _ & Hu).
  unfold post_share, try_catch, bind, parse, ret in H.
  rewrite Hcu in H.
  destruct (getTaskById_cases (req_taskId sd) db1)
    as [(Hp & t & Hget & _) | (_ & Hget)]; rewrite Hget in H.
  2:{ inversion H; subst r; discriminate. }
  destruct (not_owner t user) eqn:Hno.
  { inversion H; subst r; discriminate. }
  apply (not_owner_ownerOf _ _ _ user Hget) in Hno.
  rewrite getUserByEmail_eq in H.
  destruct (hd_error (filter (fun u => String.eqb (email u) (req_email sd))
                             (users db1))) as [rcp|] eqn:Hrcp.
  - rewrite (getTaskShares_eq _ _ Hp) in H.
    destruct (existsb _ (sharesOf (req_taskId sd) db1)) eqn:Hex.
    { inversion H; subst r; discriminate. }
    unfold shareTask in H.
    destruct (existsb _ (tasks db1) && existsb _ (users db1)) eqn:Hfk.
    2:{ inversion H; subst r; discriminate. }
    inversion H; subst r db'; clear H.
    exists user, rcp. eexists. simpl.
    split; [exact Hu|]. split; [now rewrite ownerOf_eq in *|].
    split; [exact Hrcp|]. split; [reflexivity|].
    split; [now rewrite Hs|]. repeat (split; [first [reflexivity|assumption]|]).
    intros Hsh. apply not_true_iff_false in Hex. apply Hex.
    apply sharedTo_existsb. unfold sharedTo in *. now rewrite Hs.
  - unfold createUser at 1 in H.
    destruct (existsb _ (users db1)) eqn:Huniq.
    { inversion H; subst r; discriminate. }
    rewrite getTaskShares_eq in H
      by (rewrite <- Hp; now apply task_id_param_same).
    destruct (existsb _ (sharesOf (req_taskId sd) _)) eqn:Hex.
    { inversion H; subst r; discriminate. }
    unfold shareTask in H.
    match type of H with
    | context [if ?c then _ else _] => destruct c eqn:Hfk
    end.
    2:{ inversion H; subst r; discriminate. }
    inversion H; subst r db'; clear H.
    eexists user, _, _. simpl.
    split; [now apply hd_error_filter_app|].
    split; [now rewrite ownerOf_eq in *|].
    split.
    { rewrite filter_app.
      assert (Hf : filter (fun u => String.eqb (email u) (req_email sd))
                          (users db1) = []).
      { destruct (filter _ _); [reflexivity | discriminate]. }
      rewrite Hf. simpl. rewrite String.eqb_refl. reflexivity. }
    split; [reflexivity|].
    split; [now rewrite Hs|]. repeat (split; [first [reflexivity|assumption]|]).
    simpl. intros Hsh. apply not_true_iff_false in Hex. apply Hex.
    apply sharedTo_existsb. unfold sharedTo in *. simpl. now rewrite Hs.
Qed.

(** C3: once [POST /api/tasks/share] has recorded a share of a task with a
    recipient (answer 201), every later attempt of the same caller to share
    the same task with the same recipient, under whichever permission, is
    answered 400 "Task is already shared with this user" and writes nothing:
    the share table and the whole store are as the first request left them.
    This holds for the attempt that follows at once and for any attempt
    made later, in whichever store, as long as the share row recorded is
    still there and the caller and the address still resolve to the owner
    of the task and to the recipient.  The refusal comes from the scan of
    [getTaskShares] ([post_share_duplicate]), before [shareTask] is
    reached. *)
Theorem share_twice_conflict :
  forall req req' sd sd' clk clk' db r db',
    post_share req (Some sd) clk db = (r, db') ->
    res_status r = 201 ->
    uid req' = uid req ->
    req_taskId sd' = req_taskId sd ->
    req_email sd' = req_email sd ->
    post_share req' (Some sd') clk' db' =
    (mkResponse 400 (JMessage "Task is already shared with this user"), db') /\
    task_shares
      (snd (post_share req' (Some sd') clk' db')) = task_shares db' /\
    exists user rcp row,
      r = mkResponse 201 (JShare row) /\
      task_shares db' = task_shares db ++ [row] /\
      taskId row = req_taskId sd /\ sharedWithId row = user_id rcp /\
      currentUser req' clk' db' = (inr user, db') /\
      ownerOf db' (req_taskId sd) = Some (user_id user) /\
      getUserByEmail (req_email sd) db' = (inr (Some rcp), db') /\
      forall db2 clk2,
        In row (task_shares db2) ->
        currentUser req' clk2 db2 = (inr user, db2) ->
        ownerOf db2 (req_taskId sd) = Some (user_id user) ->
        getUserByEmail (req_email sd) db2 = (inr (Some rcp), db2) ->
        post_share req' (Some sd') clk2 db2 =
        (mkResponse 400 (JMessage "Task is already shared with this user"),
         db2).
Proof.
  intros req req' sd sd' clk clk' db r db' H H201 Huid Htid Hmail.
  destruct (post_share_created req sd clk db r db' H H201)
    as (user & rcp & row & Hu & Ho & Hr & Hresp & Hsh & Ht & Hw & _).
  assert (Hrow : In row (task_shares db')).
  { rewrite Hsh. apply in_or_app. right. now left. }
  assert (Hlater : forall db2 clk2,
             In row (task_shares db2) ->
             currentUser req' clk2 db2 = (inr user, db2) ->
             ownerOf db2 (req_taskId sd) = Some (user_id user) ->
             getUserByEmail (req_email sd) db2 = (inr (Some rcp), db2) ->
             post_share req' (Some sd') clk2 db2 =
             (mkResponse 400 (JMessage "Task is already shared with this user"),
              db2)).
  { intros db2 clk2 Hin2 Hcu2 Ho2 Hm2.
    destruct (currentUser_ok req' clk2 db2)
      as (u2 & d2 & Hcu2' & _ & _ & _ & _ & _ & Hu2).
    rewrite Hcu2 in Hcu2'. inversion Hcu2'; subst u2 d2.
    rewrite getUserByEmail_eq in Hm2. injection Hm2 as Hm2.
    apply (post_share_duplicate req' sd' clk2 db2 user rcp);
      rewrite ?Htid, ?Hmail.
    - exact Hu2.
    - exact Ho2.
    - exact Hm2.
    - exists row. split; [exact Hin2|]. split; [exact Ht | exact Hw]. }
  assert (Hcu' : currentUser req' clk' db' = (inr user, db')).
  { apply currentUser_found. now rewrite Huid. }
  assert (Hm' : getUserByEmail (req_email sd) db' = (inr (Some rcp), db')).
  { now rewrite getUserByEmail_eq, Hr. }
  pose proof (Hlater db' clk' Hrow Hcu' Ho Hm') as Hgoal.
  split; [exact Hgoal|]. split; [now rewrite Hgoal|].
  exists user, rcp, row.
  split; [exact Hresp|]. split; [exact Hsh|]. split; [exact Ht|].
  split; [exact Hw|]. split; [exact Hcu'|]. split; [exact Ho|].
  split; [exact Hm' | exact Hlater].
Qed.

Lemma share_twice_conflict_witness :
  res_status (fst (post_share req_alice (Some share_with_carol) clock0
                              db_unshared)) = 201 /\
  req_permission share_with_carol = edit /\
  req_permission share_with_carol_view = view /\
  post_share req_alice (Some share_with_carol_view) clock1 db_carol =
  (mkResponse 400 (JMessage "Task is already shared with this user"),
   db_carol) /\
  task_shares
    (snd (post_share req_alice (Some share_with_carol_view) clock1 db_carol)) =
  task_shares db_carol /\
  exists user rcp row,
    fst (post_share req_alice (Some share_with_carol) clock0 db_unshared) =
    mkResponse 201 (JShare row) /\
    task_shares db_carol = task_shares db_unshared ++ [row] /\
    taskId row = req_taskId share_with_carol /\
    sharedWithId row = user_id rcp /\
    currentUser req_alice clock1 db_carol = (inr user, db_carol) /\
    ownerOf db_carol (req_taskId share_with_carol) = Some (user_id user) /\
    getUserByEmail (req_email share_with_carol) db_carol =
    (inr (Some rcp), db_carol) /\
    forall db2 clk2,
      In row (task_shares db2) ->
      currentUser req_alice clk2 db2 = (inr user, db2) ->
      ownerOf db2 (req_taskId share_with_carol) = Some (user_id user) ->
      getUserByEmail (req_email share_with_carol) db2 =
      (inr (Some rcp), db2) ->
      post_share req_alice (Some share_with_carol_view) clk2 db2 =
      (mkResponse 400 (JMessage "Task is already shared with this user"),
       db2).
Proof.
  split; [reflexivity|]. split; [reflexivity|]. split; [reflexivity|].
  apply (share_twice_conflict req_alice req_alice share_with_carol
           share_with_carol_view clock0 clock1 db_unshared
           (fst (post_share req_alice (Some share_with_carol) clock0
                            db_unshared)) db_carol).
  - unfold db_carol. apply surjective_pairing.
  - reflexivity.
  - reflexivity.
  - reflexivity.
  - reflexivity.
Defined.

(** ** Ordering *)

Lemma key_geb_total a b : key_geb a b = false -> key_geb b a = true.
Proof.
  destruct a, b; simpl; try reflexivity; try discriminate.
  rewrite Z.leb_gt, Z.leb_le. lia.
Qed.

Lemma key_geb_trans a b c :
  key_geb a b = true -> key_geb b c = true -> key_geb a c = true.
Proof.
  destruct a, b, c; simpl; try reflexivity; try discriminate.
  rewrite !Z.leb_le. lia.
Qed.

Section OrderBy.
Context {A : Type} (key : A -> option Z).

Let geb (a b : A) : Prop := key_geb (key a) (key b) = true.

Lemma insert_desc_perm x l : Permutation (insert_desc key x l) (x :: l).
Proof.
  induction l as [|y l IH]; simpl; [reflexivity|].
  destruct (key_geb (key x) (key y)); [reflexivity|].
  rewrite IH. apply perm_swap.
Qed.

Lemma orderByDesc_perm l : Permutation (orderByDesc key l) l.
Proof.
  induction l as [|x l IH]; simpl; [reflexivity|].
  fold (orderByDesc key l). rewrite insert_desc_perm. now constructor.
Qed.

Lemma insert_desc_sorted x l :
  StronglySorted geb l -> StronglySorted geb (insert_desc key x l).
Proof.
  induction 1 as [|y l Hl IH Hy]; simpl.
  - constructor; constructor.
  - destruct (key_geb (key x) (key y)) eqn:E.
    + constructor; [now constructor|]. constructor; [exact E|].
      eapply Forall_impl; [|exact Hy]. intros z Hz.
      exact (key_geb_trans _ _ _ E Hz).
    + constructor; [exact IH|].
      eapply Permutation_Forall; [symmetry; apply insert_desc_perm|].
      constructor; [|exact Hy]. now apply key_geb_total.
Qed.

Lemma orderByDesc_sorted l : StronglySorted geb (orderByDesc key l).
Proof.
  induction l as [|x l IH]; simpl; [constructor|].
  now apply insert_desc_sorted.
Qed.

Lemma In_orderByDesc x l : In x (orderByDesc key l) <-> In x l.
Proof.
  split; apply Permutation_in;
    [apply orderByDesc_perm | symmetry; apply orderByDesc_perm].
Qed.
End OrderBy.

Lemma StronglySorted_map {A B} (f : A -> B) (R : B -> B -> Prop) l :
  StronglySorted (fun a b => R (f a) (f b)) l -> StronglySorted R (map f l).
Proof.
  induction 1 as [|x l Hl IH Hx]; simpl; constructor; [exact IH|].
  apply Forall_map. exact Hx.
Qed.

(** ** Listing tasks *)

Lemma forEach_gets {A B C} (g : A -> DB -> B) (h : A -> B -> C) l db :
  forEach (fun x => s <- gets (g x);; ret (h x s)) l db =
  (inr (map (fun x => h x (g x db)) l), db).
Proof.
  induction l as [|x l IH]; [reflexivity|].
  simpl. unfold bind at 1. unfold bind at 1. unfold gets at 1, ret at 1.
  unfold bind at 1. now rewrite IH.
Qed.

(** [getTasksByUserId] is a pure read. *)
Lemma getTasksByUserId_eq userId search db :
  getTasksByUserId userId search db =
  (inr (map (fun row => mkTaskWithOwner (Some (fst row)) (snd row)
                          (sharesOf (id (fst row)) db))
            (orderByDesc (fun r => Some (createdAt (fst r)))
               (filter (fun r => sql_true (owned_where userId search (fst r)))
                       (leftJoin (tasks db) (users db) on_owner)))),
   db).
Proof.
  unfold getTasksByUserId, bind at 1, gets at 1.
  apply (forEach_gets (fun row => sharesOf (id (fst row)))
           (fun row s => mkTaskWithOwner (Some (fst row)) (snd row) s)).
Qed.

(** [getUserSharedTasks] is a pure read. *)
Lemma getUserSharedTasks_eq userId db :
  getUserSharedTasks userId db =
  (inr (map (fun row => mkTaskWithOwner (snd (fst row)) (snd row) [])
            (orderByDesc (fun r => option_map createdAt (snd (fst r)))
               (filter (fun r => sharedWithId (fst (fst r)) =? userId)
                       (leftJoin (leftJoin (task_shares db) (tasks db) on_task)
                                 (users db) on_owner_opt)))),
   db).
Proof. reflexivity. Qed.

(** The tasks listed for an owner are the rows of the table that pass the
    WHERE clause, newest first. *)
Lemma getTasksByUserId_spec userId search db :
  exists result,
    getTasksByUserId userId search db = (inr result, db) /\
    (forall t, In (Some t) (map task result) <->
               In t (tasks db) /\
               sql_true (owned_where userId search t) = true) /\
    (forall e, In e result -> task e <> None) /\
    newest_first result.
Proof.
  rewrite getTasksByUserId_eq. eexists. split; [reflexivity|].
  split; [|split].
  - intros t. rewrite map_map. simpl.
    rewrite <- (In_filter_leftJoin_fst
                  (fun t => sql_true (owned_where userId search t))
                  (tasks db) (users db) on_owner).
    rewrite !in_map_iff. split.
    + intros (r & Hr & Hin). apply In_orderByDesc in Hin.
      exists r. split; [congruence | exact Hin].
    + intros (r & Hr & Hin). exists r. split; [congruence|].
      now apply In_orderByDesc.
  - intros e He. apply in_map_iff in He as (r & <- & _). discriminate.
  - unfold newest_first. apply StronglySorted_map.
    apply (orderByDesc_sorted (fun r => Some (createdAt (fst r)))).
Qed.

(** With [users.id] a key, as the primary key makes it, the list holds each
    selected task exactly once. *)
Lemma getTasksByUserId_perm userId search db :
  NoDup (map user_id (users db)) ->
  exists result,
    getTasksByUserId userId search db = (inr result, db) /\
    Permutation (map task result)
      (map Some (filter (fun t => sql_true (owned_where userId search t))
                        (tasks db))).
Proof.
  intros Hpk. rewrite getTasksByUserId_eq. eexists. split; [reflexivity|].
  rewrite map_map. simpl.
  rewrite <- (leftJoin_fst_unique (tasks db) (users db) on_owner) at 2
    by (intros t _; now apply (filter_key_unique user_id)).
  rewrite <- (map_fst_filter (fun t => sql_true (owned_where userId search t))).
  rewrite <- (map_map fst Some). do 2 apply Permutation_map.
  apply orderByDesc_perm.
Qed.

(** ** Searching *)

Lemma list_ascii_of_string_app (a b : string) :
  list_ascii_of_string (a ++ b) =
  list_ascii_of_string a ++ list_ascii_of_string b.
Proof. induction a as [|c a IH]; simpl; [reflexivity | now rewrite IH]. Qed.

Lemma pattern_chars (s : string) :
  list_ascii_of_string ("%" ++ s ++ "%") =
  "%"%char :: list_ascii_of_string s ++ ["%"%char].
Proof. simpl. now rewrite list_ascii_of_string_app. Qed.

Lemma like_percent p t :
  like_match ("%"%char :: p) t =
  like_match p t ||
  match t with
  | [] => false
  | _ :: t' => like_match ("%"%char :: p) t'
  end.
Proof. destruct t; reflexivity. Qed.

Lemma like_percent_only t : like_match ["%"%char] t = true.
Proof.
  induction t as [|d t IH]; [reflexivity|].
  rewrite like_percent, IH. apply orb_true_r.
Qed.

Lemma like_literal c p t :
  is_meta c = false ->
  like_match (c :: p) t =
  match t with
  | [] => false
  | d :: t' => eqb_ci c d && like_match p t'
  end.
Proof.
  destruct c as [b0 b1 b2 b3 b4 b5 b6 b7].
  destruct b0, b1, b2, b3, b4, b5, b6, b7; intros H;
    first [discriminate H | reflexivity].
Qed.

Lemma like_plain_prefix s :
  forallb (fun c => negb (is_meta c)) s = true ->
  forall t, like_match (s ++ ["%"%char]) t = prefix_ci s t.
Proof.
  induction s as [|c s IH]; intros Hs t.
  - simpl app. rewrite like_percent_only. now destruct t.
  - simpl in Hs. apply andb_true_iff in Hs as [Hc Hs].
    apply negb_true_iff in Hc.
    simpl app. rewrite (like_literal _ _ _ Hc).
    destruct t as [|d t]; [reflexivity|]. simpl. now rewrite IH.
Qed.

Lemma like_plain_contains s :
  forallb (fun c => negb (is_meta c)) s = true ->
  forall t, like_match ("%"%char :: s ++ ["%"%char]) t = contains_ci_list s t.
Proof.
  intros Hs. induction t as [|d t IH].
  - rewrite like_percent, (like_plain_prefix _ Hs). reflexivity.
  - rewrite like_percent, (like_plain_prefix _ Hs), IH. reflexivity.
Qed.

(** For a search term without [%], [_] and backslash, the ILIKE test of
    [getTasksByUserId] is the case-insensitive substring test. *)
Lemma ilike_plain (term : string) (column : option string) :
  plain term = true ->
  ilike column ("%" ++ term ++ "%") = option_map (contains_ci term) column.
Proof.
  intros Hp. destruct column as [s|]; [|reflexivity].
  unfold ilike, option_map, contains_ci. f_equal.
  rewrite pattern_chars. now apply like_plain_contains.
Qed.

Lemma eqb_ci_lower a b : eqb_ci a b = true <-> lower a = lower b.
Proof. unfold eqb_ci. apply Ascii.eqb_eq. Qed.

Lemma prefix_ci_spec s t :
  prefix_ci s t = true <->
  exists mid post, t = mid ++ post /\ map lower mid = map lower s.
Proof.
  revert t. induction s as [|c s IH]; intros t; simpl.
  - split; [intros _; exists [], t; now split | reflexivity].
  - destruct t as [|d t].
    + split; [discriminate|]. intros (mid & post & Ht & Hm).
      destruct mid; [discriminate Hm | discriminate Ht].
    + rewrite andb_true_iff, eqb_ci_lower, IH. split.
      * intros (Hcd & mid & post & -> & Hm).
        exists (d :: mid), post. split; [reflexivity|]. simpl. congruence.
      * intros (mid & post & Ht & Hm).
        destruct mid as [|m mid]; [discriminate Hm|].
        simpl in Ht, Hm. inversion Ht; subst. inversion Hm.
        split; [congruence|]. exists mid, post. now split.
Qed.

Lemma contains_ci_spec s t :
  contains_ci_list s t = true <-> Contains_ci s t.
Proof.
  unfold Contains_ci. induction t as [|d t IH]; simpl.
  - rewrite orb_false_r, prefix_ci_spec. split.
    + intros (mid & post & Ht & Hm). exists [], mid, post. now split.
    + intros (pre & mid & post & Ht & Hm).
      destruct pre; [|discriminate Ht]. exists mid, post. now split.
  - rewrite orb_true_iff, prefix_ci_spec, IH. split.
    + intros [(mid & post & Ht & Hm) | (pre & mid & post & Ht & Hm)].
      * exists [], mid, post. now split.
      * exists (d :: pre), mid, post. split; [|exact Hm]. simpl. congruence.
    + intros (pre & mid & post & Ht & Hm). destruct pre as [|x pre].
      * left. exists mid, post. now split.
      * right. simpl in Ht. inversion Ht; subst.
        exists pre, mid, post. now split.
Qed.

Lemma owned_where_falsy userId search t :
  truthy search = false ->
  sql_true (owned_where userId search t) = (ownerId t =? userId).
Proof.
  unfold owned_where. intros ->. simpl. now destruct (ownerId t =? userId).
Qed.

Lemma owned_where_plain userId term t :
  term <> "" -> plain term = true ->
  sql_true (owned_where userId (Some term) t) = search_hit userId term t.
Proof.
  intros Hne Hp. unfold owned_where, search_hit.
  assert (Ht : truthy (Some term) = true).
  { simpl. apply negb_true_iff. now apply String.eqb_neq. }
  rewrite Ht. cbv zeta. unfold or_default.
  rewrite !(ilike_plain term _ Hp). simpl option_map.
  destruct (ownerId t =? userId), (contains_ci term (title t)),
    (description t) as [d|]; simpl; try reflexivity.
  now destruct (contains_ci term d).
Qed.

(** The part of C7 that holds: without a search term the list is the tasks
    of the owner, with a term free of [%], [_] and backslash it is the
    owner's tasks whose title or description contains the term whatever
    the case, and the list is always newest first. *)
Lemma getTasksByUserId_plain_search userId search db :
  exists result,
    getTasksByUserId userId search db = (inr result, db) /\
    newest_first result /\
    (truthy search = false ->
     forall t, In (Some t) (map task result) <->
               In t (tasks db) /\ ownerId t = userId) /\
    (forall term, search = Some term -> term <> "" -> plain term = true ->
     forall t, In (Some t) (map task result) <->
               In t (tasks db) /\ search_hit userId term t = true).
Proof.
  destruct (getTasksByUserId_spec userId search db)
    as (result & Hrun & Hin & _ & Hsorted).
  exists result. split; [exact Hrun|]. split; [exact Hsorted|]. split.
  - intros Hf t. rewrite Hin, (owned_where_falsy _ _ _ Hf), Z.eqb_eq. tauto.
  - intros term -> Hne Hp t. rewrite Hin, (owned_where_plain _ _ _ Hne Hp).
    tauto.
Qed.

(** C7, at the input where it fails: Alice owns the one task "Write report",
    which has no description.  A search for ["%"] or for ["r_p"] returns the
    task, although its title contains neither term: the term is spliced into
    the ILIKE pattern as it is, so [%] and [_] act as wildcards. *)
Theorem search_term_wildcards_match :
  getTasksByUserId 1 (Some "%") db_unshared =
  (inr [mkTaskWithOwner (Some report) (Some alice) []], db_unshared) /\
  search_hit 1 "%" report = false /\
  getTasksByUserId 1 (Some "r_p") db_unshared =
  (inr [mkTaskWithOwner (Some report) (Some alice) []], db_unshared) /\
  search_hit 1 "r_p" report = false.
Proof. repeat split; reflexivity. Qed.

(** C10: the empty search term is no search term: [getTasksByUserId(userId,
    "")] runs the same query as [getTasksByUserId(userId)] and returns the
    tasks owned by [userId], all of them and no others (each once, user
    identifiers being a key). *)
Theorem empty_search_is_no_search :
  forall userId db,
    getTasksByUserId userId (Some "") db = getTasksByUserId userId None db /\
    exists result,
      getTasksByUserId userId (Some "") db = (inr result, db) /\
      (forall t, In (Some t) (map task result) <->
                 In t (tasks db) /\ ownerId t = userId) /\
      (NoDup (map user_id (users db)) ->
       Permutation (map task result)
         (map Some (filter (fun t => ownerId t =? userId) (tasks db)))).
Proof.
  intros userId db. split; [reflexivity|].
  destruct (getTasksByUserId_plain_search userId (Some "") db)
    as (result & Hrun & _ & Hall & _).
  exists result. split; [exact Hrun|]. split; [now apply Hall|].
  intros Hpk.
  destruct (getTasksByUserId_perm userId (Some "") db Hpk)
    as (result' & Hrun' & Hperm).
  rewrite Hrun in Hrun'. inversion Hrun'; subst result'.
  erewrite filter_ext; [exact Hperm|].
  intros t. symmetry. now apply owned_where_falsy.
Qed.

(** ** The task list of the gateway *)

Lemma In_leftJoin_Some {A B} (l : list A) (r : list B) on a b :
  In (a, Some b) (leftJoin l r on) <-> In a l /\ In b r /\ on a b = true.
Proof.
  unfold leftJoin. rewrite in_flat_map. split.
  - intros (a' & Ha' & Hin). pose proof (rows_of_fst _ _ _ _ Hin) as Hf.
    simpl in Hf. subst a'. split; [exact Ha'|]. apply filter_In.
    unfold rows_of in Hin. destruct (filter (on a) r) as [|b0 ms].
    + destruct Hin as [Hin|[]]. discriminate.
    + apply in_map_iff in Hin as (b' & Hb' & Hin). congruence.
  - intros (Ha & Hb). exists a. split; [exact Ha|].
    apply filter_In in Hb. unfold rows_of.
    destruct (filter (on a) r) as [|b0 ms]; [contradiction|].
    apply in_map_iff. now exists b.
Qed.

(** The tasks listed as shared to a user are the tasks some share row
    grants to that user. *)
Lemma getUserSharedTasks_spec userId db :
  exists result,
    getUserSharedTasks userId db = (inr result, db) /\
    (forall t, In (Some t) (map task result) <->
               In t (tasks db) /\ sharedTo db (id t) userId) /\
    (forall e, In e result -> shares e = []) /\
    newest_first result.
Proof.
  rewrite getUserSharedTasks_eq. eexists. split; [reflexivity|].
  split; [|split].
  - intros t. rewrite map_map. simpl. rewrite in_map_iff. split.
    + intros (r & Hr & Hin). apply In_orderByDesc in Hin.
      assert (H : In (fst r)
                     (map fst (filter (fun r => sharedWithId (fst (fst r)) =? userId)
                                 (leftJoin (leftJoin (task_shares db) (tasks db)
                                                     on_task)
                                           (users db) on_owner_opt))))
        by now apply in_map.
      apply (In_filter_leftJoin_fst (fun st => sharedWithId (fst st) =? userId))
        in H as [H Hu].
      destruct r as [[s ot] ou]. simpl in *. subst ot.
      apply In_leftJoin_Some in H as (Hs & Ht & Hon).
      split; [exact Ht|]. exists s. unfold on_task in Hon.
      rewrite Z.eqb_eq in Hon, Hu. auto.
    + intros (Ht & s & Hs & Hid & Hu).
      assert (H : In (s, Some t)
                     (map fst (filter (fun r => sharedWithId (fst (fst r)) =? userId)
                                 (leftJoin (leftJoin (task_shares db) (tasks db)
                                                     on_task)
                                           (users db) on_owner_opt)))).
      { apply (In_filter_leftJoin_fst
                 (fun st => sharedWithId (fst st) =? userId)).
        split; [|now apply Z.eqb_eq].
        apply In_leftJoin_Some. repeat split; try assumption.
        now apply Z.eqb_eq. }
      apply in_map_iff in H as (r & Hr & Hin).
      exists r. split; [now rewrite Hr | now apply In_orderByDesc].
  - intros e He. apply in_map_iff in He as (r & <- & _). reflexivity.
  - unfold newest_first. apply StronglySorted_map.
    apply (orderByDesc_sorted (fun r => option_map createdAt (snd (fst r)))).
Qed.

(** C9: [GET /api/tasks] answers 200 with the list of [getTasksByUserId]
    followed by the list of [getUserSharedTasks].  The first holds the tasks
    the caller owns (those passing the search filter, when a search term is
    given), the second the tasks some share row grants to the caller, so a
    task is listed exactly when it is in one of the two; a task that is in
    both is listed once for each, nothing being removed. *)
Theorem get_tasks_union :
  forall req search clk db,
  exists user db1 owned shared,
    currentUser req clk db = (inr user, db1) /\
    getTasksByUserId (user_id user) search db1 = (inr owned, db1) /\
    getUserSharedTasks (user_id user) db1 = (inr shared, db1) /\
    get_tasks req search clk db =
    (mkResponse 200 (JTasks (owned ++ shared)), db1) /\
    (forall t, In (Some t) (map task owned) <->
               In t (tasks db) /\
               sql_true (owned_where (user_id user) search t) = true) /\
    (truthy search = false ->
     forall t, In (Some t) (map task owned) <->
               In t (tasks db) /\ ownerId t = user_id user) /\
    (forall t, In (Some t) (map task shared) <->
               In t (tasks db) /\ sharedTo db (id t) (user_id user)) /\
    (forall t, In (Some t) (map task (owned ++ shared)) <->
               In (Some t) (map task owned) \/ In (Some t) (map task shared)) /\
    (forall t, In (Some t) (map task owned) -> In (Some t) (map task shared) ->
               exists l1 l2 l3,
                 map task (owned ++ shared) = l1 ++ Some t :: l2 ++ Some t :: l3) /\
    List.length (owned ++ shared) = (List.length owned + List.length shared)%nat.
Proof.
  intros req search clk db.
  destruct (currentUser_ok req clk db)
    as (user & db1 & Hcu & Ht & Hs & _).
  destruct (getTasksByUserId_spec (user_id user) search db1)
    as (owned & Ho & Hoin & _).
  destruct (getUserSharedTasks_spec (user_id user) db1)
    as (shared & Hsh & Hsin & _).
  exists user, db1, owned, shared.
  split; [exact Hcu|]. split; [exact Ho|]. split; [exact Hsh|].
  split; [|split; [|split; [|split; [|split; [|split]]]]].
  - unfold get_tasks, try_catch, bind. now rewrite Hcu, Ho, Hsh.
  - intros t. rewrite Hoin, Ht. tauto.
  - intros Hf t. rewrite Hoin, Ht, (owned_where_falsy _ _ _ Hf), Z.eqb_eq.
    tauto.
  - intros t. rewrite Hsin, Ht. unfold sharedTo. rewrite Hs. tauto.
  - intros t. now rewrite map_app, in_app_iff.
  - intros t H1 H2.
    apply in_split in H1 as (l1 & l2 & E1).
    apply in_split in H2 as (l3 & l4 & E2).
    exists l1, (l2 ++ l3), l4.
    rewrite map_app, E1, E2, <- !app_assoc. reflexivity.
  - apply length_app.
Qed.

(** A run of the handlers in which a task ends up in both lists: Alice
    shares her task with her own address, which nothing forbids, and her
    task list then shows the task twice. *)
Example own_task_shared_to_self_listed_twice :
  let db1 := snd (post_share req_alice (Some share_with_self) clock0
                             db_unshared) in
  res_status (fst (post_share req_alice (Some share_with_self) clock0
                              db_unshared)) = 201 /\
  fst (get_tasks req_alice None clock1 db1) =
  mkResponse 200
    (JTasks [mkTaskWithOwner (Some report) (Some alice)
               [mkShareWithUser (mkTaskShare 1 1 1 view 501) (Some alice)];
             mkTaskWithOwner (Some report) (Some alice) []]).
Proof. split; reflexivity. Qed.

(** * Further properties of the store and the gateway *)

(** ** The schema constraints are kept *)

Lemma NoDup_snoc {A} (l : list A) x : NoDup l -> ~ In x l -> NoDup (l ++ [x]).
Proof.
  intros Hl Hx. apply NoDup_app; [exact Hl | repeat constructor; intros [] | ].
  intros a Ha [<-|[]]. contradiction.
Qed.

Lemma seq_not_In {A} (f : A -> Z) n l :
  Forall (fun a => f a < n) l -> ~ In n (map f l).
Proof.
  rewrite Forall_forall. intros H Hin.
  apply in_map_iff in Hin as (a & Ha & Hin). specialize (H a Hin). lia.
Qed.

Lemma Forall_lt_succ {A} (f : A -> Z) n l :
  Forall (fun a => f a < n) l -> Forall (fun a => f a < n + 1) l.
Proof. apply Forall_impl. intros a; lia. Qed.

Lemma Forall_snoc {A} (P : A -> Prop) l x :
  Forall P l -> P x -> Forall P (l ++ [x]).
Proof. intros Hl Hx. apply Forall_app. split; [exact Hl | now constructor]. Qed.

Lemma Forall_In_snoc {A B} (f : A -> Z) (g : B -> Z) (l : list A) (r : list B) x :
  Forall (fun a => In (f a) (map g r)) l ->
  Forall (fun a => In (f a) (map g (r ++ [x]))) l.
Proof.
  apply Forall_impl. intros a Ha. rewrite map_app, in_app_iff. now left.
Qed.

Lemma NoDup_map_filter {A B} (f : A -> B) (p : A -> bool) l :
  NoDup (map f l) -> NoDup (map f (filter p l)).
Proof.
  induction l as [|a l IH]; simpl; intros H; [constructor|].
  inversion H as [|x xs Hn Hnd]; subst.
  destruct (p a); simpl; [|now apply IH].
  constructor; [|now apply IH].
  intros Hin. apply Hn. apply in_map_iff in Hin as (b & Hb & Hin).
  apply filter_In in Hin as [Hin _]. rewrite <- Hb. now apply in_map.
Qed.

Lemma Forall_filter {A} (P : A -> Prop) (p : A -> bool) l :
  Forall P l -> Forall P (filter p l).
Proof.
  rewrite !Forall_forall. intros H a Ha. apply filter_In in Ha as [Ha _]. auto.
Qed.

Lemma existsb_In_map {A} (f : A -> Z) k l :
  existsb (fun a => f a =? k) l = true <-> In k (map f l).
Proof.
  rewrite existsb_exists, in_map_iff.
  split; intros (a & H1 & H2); exists a.
  - apply Z.eqb_eq in H2. now split.
  - split; [exact H2 | now apply Z.eqb_eq].
Qed.

Lemma createUser_consistent u clk : keeps (createUser u clk).
Proof.
  intros db [H1 H2 H3 H4 H5 H6 H7 H8 H9 H10]. unfold createUser.
  destruct (existsb _ (users db)) eqn:E; simpl.
  - constructor; simpl; try assumption. now apply Forall_lt_succ.
  - constructor; simpl; try assumption.
    + rewrite map_app. apply NoDup_snoc; [exact H1|]. now apply seq_not_In.
    + apply Forall_snoc; [now apply Forall_lt_succ | simpl; lia].
    + rewrite map_app. apply NoDup_snoc; [exact H3|].
      intros Hin. apply in_map_iff in Hin as (x & Hx & Hin).
      apply not_true_iff_false in E. apply E. apply existsb_exists.
      exists x. split; [exact Hin|]. now apply String.eqb_eq.
    + now apply Forall_In_snoc.
    + now apply Forall_In_snoc.
Qed.

Lemma createTask_consistent t clk : keeps (createTask t clk).
Proof.
  intros db [H1 H2 H3 H4 H5 H6 H7 H8 H9 H10]. unfold createTask.
  destruct (existsb _ (users db)) eqn:E; simpl.
  - constructor; simpl; try assumption.
    + rewrite map_app. apply NoDup_snoc; [exact H4|]. now apply seq_not_In.
    + apply Forall_snoc; [now apply Forall_lt_succ | simpl; lia].
    + apply Forall_snoc; [exact H8|]. simpl. now apply existsb_In_map.
    + now apply Forall_In_snoc.
  - constructor; simpl; try assumption. now apply Forall_lt_succ.
Qed.

Lemma shareTask_consistent s clk : keeps (shareTask s clk).
Proof.
  intros db [H1 H2 H3 H4 H5 H6 H7 H8 H9 H10]. unfold shareTask.
  destruct (existsb _ (tasks db) && existsb _ (users db)) eqn:E; simpl.
  - apply andb_true_iff in E as [Et Eu].
    constructor; simpl; try assumption.
    + rewrite map_app. apply NoDup_snoc; [exact H6|]. now apply seq_not_In.
    + apply Forall_snoc; [now apply Forall_lt_succ | simpl; lia].
    + apply Forall_snoc; [exact H9|]. simpl. now apply existsb_In_map.
    + apply Forall_snoc; [exact H10|]. simpl. now apply existsb_In_map.
  - constructor; simpl; try assumption. now apply Forall_lt_succ.
Qed.

Lemma keeps_checked {A} ok (stmt : M A) : keeps stmt -> keeps (checked ok stmt).
Proof.
  intros Hs db H. unfold checked. destruct (ok db); [now apply Hs | exact H].
Qed.

Lemma removeTaskShare_consistent tid swid : keeps (removeTaskShare tid swid).
Proof.
  intros db H. unfold removeTaskShare, bind, ret, checked.
  destruct (int4 tid && int4 swid); [|exact H].
  destruct H as [H1 H2 H3 H4 H5 H6 H7 H8 H9 H10]. simpl.
  constructor; simpl; try assumption.
  - now apply NoDup_map_filter.
  - now apply Forall_filter.
  - now apply Forall_filter.
  - now apply Forall_filter.
Qed.

Lemma updateTask_consistent tid userId updates clk :
  keeps (updateTask tid userId updates clk).
Proof.
  intros db [H1 H2 H3 H4 H5 H6 H7 H8 H9 H10].
  pose proof (updateTask_keeps_keys tid userId updates clk db) as Hk.
  assert (Hid : map id (tasks (snd (updateTask tid userId updates clk db)))
                = map id (tasks db)).
  { apply (f_equal (map fst)) in Hk. now rewrite !map_map in Hk. }
  assert (Hown : map ownerId (tasks (snd (updateTask tid userId updates clk db)))
                 = map ownerId (tasks db)).
  { apply (f_equal (map snd)) in Hk. now rewrite !map_map in Hk. }
  assert (Hrest : users (snd (updateTask tid userId updates clk db)) = users db
                  /\ task_shares (snd (updateTask tid userId updates clk db))
                     = task_shares db
                  /\ users_id_seq (snd (updateTask tid userId updates clk db))
                     = users_id_seq db
                  /\ tasks_id_seq (snd (updateTask tid userId updates clk db))
                     = tasks_id_seq db
                  /\ task_shares_id_seq (snd (updateTask tid userId updates clk db))
                     = task_shares_id_seq db).
  { rewrite updateTask_eq. destruct (task_id_param tid db); [|simpl; auto].
    destruct (filter _ _); simpl; auto. }
  destruct Hrest as (Eu & Es & Eus & Ets & Ess).
  constructor; rewrite ?Eu, ?Es, ?Eus, ?Ets, ?Ess; try assumption.
  - now rewrite Hid.
  - apply (Forall_map id (fun x => x < tasks_id_seq db)).
    rewrite Hid. now apply Forall_map.
  - apply (Forall_map ownerId (fun x => In x (map user_id (users db)))).
    rewrite Hown. now apply Forall_map.
  - now rewrite Hid.
Qed.

Lemma deleteTask_consistent tid userId : keeps (deleteTask tid userId).
Proof.
  intros db H. destruct (int4 tid) eqn:Hr.
  2:{ now rewrite (deleteTask_range _ _ _ Hr). }
  destruct H as [H1 H2 H3 H4 H5 H6 H7 H8 H9 H10].
  rewrite (deleteTask_eq _ _ _ Hr). simpl.
  constructor; simpl; try assumption.
  - now apply NoDup_map_filter.
  - now apply Forall_filter.
  - now apply NoDup_map_filter.
  - now apply Forall_filter.
  - now apply Forall_filter.
  - rewrite Forall_forall in *. intros s Hs.
    apply filter_In in Hs as [Hs Hgone]. apply negb_true_iff in Hgone.
    specialize (H9 s Hs). apply in_map_iff in H9 as (t & Ht & Hin).
    apply in_map_iff. exists t. split; [exact Ht|].
    apply filter_In. split; [exact Hin|]. apply negb_true_iff.
    destruct (id_and_owner tid userId t) eqn:Em; [|reflexivity].
    exfalso. apply not_true_iff_false in Hgone. apply Hgone.
    apply existsb_exists. exists t. split.
    + apply filter_In. now split.
    + now apply Z.eqb_eq.
  - now apply Forall_filter.
Qed.

Lemma keeps_ret {A} (a : A) : keeps (ret a).
Proof. intros db H. exact H. Qed.

Lemma keeps_throw {A} e : keeps (@throw A e).
Proof. intros db H. exact H. Qed.

Lemma keeps_gets {A} (f : DB -> A) : keeps (gets f).
Proof. intros db H. exact H. Qed.

Lemma keeps_bind {A B} (c : M A) (k : A -> M B) :
  keeps c -> (forall a, keeps (k a)) -> keeps (bind c k).
Proof.
  intros Hc Hk db H. unfold bind. specialize (Hc db H).
  destruct (c db) as [[e|a] db']; simpl in *; [exact Hc|]. now apply Hk.
Qed.

Lemma keeps_try_catch body handler db :
  keeps body -> consistent db -> consistent (snd (try_catch body handler db)).
Proof.
  intros Hb H. unfold try_catch. specialize (Hb db H).
  now destruct (body db) as [[e|r] db'].
Qed.

Lemma keeps_forEach {A B} (f : A -> M B) l :
  (forall a, keeps (f a)) -> keeps (forEach f l).
Proof.
  intros Hf. induction l as [|x l IH]; simpl; [apply keeps_ret|].
  apply keeps_bind; [apply Hf|]. intros y.
  apply keeps_bind; [exact IH|]. intros ys. apply keeps_ret.
Qed.

Ltac keeps_step :=
  first
    [ apply keeps_ret | apply keeps_throw | apply keeps_gets
    | apply keeps_checked
    | apply createUser_consistent | apply createTask_consistent
    | apply shareTask_consistent | apply removeTaskShare_consistent
    | apply updateTask_consistent | apply deleteTask_consistent
    | apply keeps_forEach; intros
    | apply keeps_bind; [|intros]
    | match goal with
      | |- keeps (match ?x with _ => _ end) => destruct x
      | |- keeps (if ?b then _ else _) => destruct b
      | |- keeps (let _ := _ in _) => cbv zeta
      end ].

Ltac keeps_all := repeat keeps_step.

Lemma getUser_keeps uid : keeps (getUser uid).
Proof. unfold getUser. keeps_all. Qed.

Lemma getUserByFirebaseUid_keeps f : keeps (getUserByFirebaseUid f).
Proof. unfold getUserByFirebaseUid. keeps_all. Qed.

Lemma getUserByEmail_keeps f : keeps (getUserByEmail f).
Proof. unfold getUserByEmail. keeps_all. Qed.

Lemma getTaskById_keeps tid : keeps (getTaskById tid).
Proof. unfold getTaskById. keeps_all. Qed.

Lemma getTasksByUserId_keeps u s : keeps (getTasksByUserId u s).
Proof. unfold getTasksByUserId. keeps_all. Qed.

Lemma getUserSharedTasks_keeps u : keeps (getUserSharedTasks u).
Proof. unfold getUserSharedTasks. keeps_all. Qed.

Lemma currentUser_keeps req clk : keeps (currentUser req clk).
Proof.
  unfold currentUser, getOrCreateUser.
  apply keeps_bind; [apply getUserByFirebaseUid_keeps|]. intros. keeps_all.
Qed.

(** The health check reads one user row and reports on the connection;
    the store of the model always answers. *)
Lemma get_health_eq db :
  get_health db = (mkResponse 200 (JHealth "healthy" "connected" None), db).
Proof. reflexivity. Qed.

Lemma get_health_consistent db :
  consistent db -> consistent (snd (get_health db)).
Proof. intros H. now rewrite get_health_eq. Qed.

Lemma route_handler_consistent r clk user db :
  consistent db -> consistent (snd (route_handler r clk user db)).
Proof.
  intros H. destruct r; [now apply get_health_consistent|..];
    simpl; apply keeps_try_catch; try exact H;
    unfold parse, getTaskShares;
    (apply keeps_bind; [apply currentUser_keeps|]; intros);
    repeat first
      [ apply getTaskById_keeps | apply getTasksByUserId_keeps
      | apply getUserSharedTasks_keeps | apply getUserByEmail_keeps
      | keeps_step ].
Qed.

Lemma registerRoutes_consistent verify req db :
  consistent db -> consistent (snd (registerRoutes verify req db)).
Proof.
  intros H. unfold registerRoutes.
  destruct (route req); try (now apply get_health_consistent);
    unfold authenticateUser;
    (destruct (authorization req) as [h|]; [|exact H]);
    (destruct (negb (prefix "Bearer " h)); [exact H|]);
    (destruct (verify (bearerToken h)); [|exact H]);
    now apply route_handler_consistent.
Qed.

Lemma serve_consistent verify reqs :
  forall db, consistent db -> consistent (serve verify reqs db).
Proof.
  unfold serve. induction reqs as [|req reqs IH]; intros db H; [exact H|].
  simpl. apply IH. now apply registerRoutes_consistent.
Qed.

Lemma empty_db_consistent : consistent empty_db.
Proof. constructor; simpl; constructor. Qed.

(** X1: each writing method of [DatabaseStorage], whether it returns or
    throws, leaves a store that satisfies the constraints of the schema
    (keys unique and below their sequences, [firebase_uid] unique, every
    task owned by a user, every share pointing to a task and a user) in a
    state that satisfies them. *)
Theorem storage_writes_keep_schema :
  (forall u clk, keeps (createUser u clk)) /\
  (forall t clk, keeps (createTask t clk)) /\
  (forall tid userId updates clk, keeps (updateTask tid userId updates clk)) /\
  (forall tid userId, keeps (deleteTask tid userId)) /\
  (forall s clk, keeps (shareTask s clk)) /\
  (forall tid swid, keeps (removeTaskShare tid swid)).
Proof.
  split; [|split; [|split; [|split; [|split]]]]; intros.
  - apply createUser_consistent.
  - apply createTask_consistent.
  - apply updateTask_consistent.
  - apply deleteTask_consistent.
  - apply shareTask_consistent.
  - apply removeTaskShare_consistent.
Qed.

(** X2: whatever the token verifier, every store reached from the empty one
    by a run of requests through the middleware and the routes satisfies the
    constraints of the schema; in particular a share always references an
    existing task and an existing recipient, and a task an existing owner. *)
Theorem reachable_stores_consistent :
  forall verify reqs, consistent (serve verify reqs empty_db).
Proof.
  intros verify reqs. apply serve_consistent. apply empty_db_consistent.
Qed.

(** ** The user directory, continued *)

Lemma getOrCreateUser_cases fuid mail dname clk db :
  (exists u,
      hd_error (filter (fun u => String.eqb (firebaseUid u) fuid) (users db))
      = Some u /\
      getOrCreateUser fuid mail dname clk db = (inr u, db)) \/
  (~ In fuid (map firebaseUid (users db)) /\
   getOrCreateUser fuid mail dname clk db =
   (inr (mkUser (users_id_seq db) fuid mail (or_null dname) (db_now clk)),
    set_users db
      (users db ++ [mkUser (users_id_seq db) fuid mail (or_null dname)
                           (db_now clk)])
      (users_id_seq db + 1))).
Proof.
  unfold getOrCreateUser, bind. rewrite getUserByFirebaseUid_eq.
  destruct (hd_error _) as [u|] eqn:E; [left; now exists u|right].
  assert (Hf : filter (fun u => String.eqb (firebaseUid u) fuid) (users db) = []).
  { destruct (filter _ _); [reflexivity | discriminate]. }
  apply filter_nil_existsb in Hf. split.
  - intros Hin. apply in_map_iff in Hin as (u & Hu & Hin).
    apply not_true_iff_false in Hf. apply Hf. apply existsb_exists.
    exists u. split; [exact Hin | now apply String.eqb_eq].
  - unfold createUser. simpl. now rewrite Hf.
Qed.

(** X3: [getOrCreateUser] never throws.  It returns a user with the given
    [firebaseUid]; asked again for that uid, with whatever e-mail and name,
    it returns the same user and writes nothing.  The first call either
    leaves the store as it is or, for a uid not seen before, appends that
    one user row with the e-mail given and the name (null when absent or
    empty); tasks and shares are not touched.  [GET /api/user] answers 200
    with that user. *)
Theorem getOrCreateUser_idempotent :
  forall fuid mail dname clk mail' dname' clk' db,
  exists user db1,
    getOrCreateUser fuid mail dname clk db = (inr user, db1) /\
    firebaseUid user = fuid /\ In user (users db1) /\
    getOrCreateUser fuid mail' dname' clk' db1 = (inr user, db1) /\
    get_user (mkAuthUser fuid mail dname) clk db =
    (mkResponse 200 (JUser user), db1) /\
    (db1 = db \/
     (~ In fuid (map firebaseUid (users db)) /\
      users db1 = users db ++ [user] /\
      email user = mail /\ displayName user = or_null dname)) /\
    tasks db1 = tasks db /\ task_shares db1 = task_shares db.
Proof.
  intros fuid mail dname clk mail' dname' clk' db.
  assert (Hagain : forall u d,
             hd_error (filter (fun u => String.eqb (firebaseUid u) fuid)
                              (users d)) = Some u ->
             getOrCreateUser fuid mail' dname' clk' d = (inr u, d)).
  { intros u d Hu. unfold getOrCreateUser, bind.
    now rewrite getUserByFirebaseUid_eq, Hu. }
  destruct (getOrCreateUser_cases fuid mail dname clk db)
    as [(u & Hu & Hrun) | (Hnew & Hrun)].
  - exists u, db. pose proof (hd_error_filter_In _ _ _ Hu) as [Hin Heq].
    apply String.eqb_eq in Heq.
    repeat split; auto.
    unfold get_user, try_catch, bind, currentUser. simpl. now rewrite Hrun.
  - eexists; eexists. split; [exact Hrun|]. simpl.
    split; [reflexivity|]. split; [apply in_or_app; right; now left|].
    split; [|split; [|split; [|split]]]; try reflexivity.
    + apply Hagain. simpl. rewrite filter_app. simpl.
      rewrite String.eqb_refl.
      assert (Hf : filter (fun u => String.eqb (firebaseUid u) fuid)
                          (users db) = []).
      { destruct (filter _ _) as [|x l] eqn:E; [reflexivity|]. exfalso.
        assert (Hx : In x (filter (fun u => String.eqb (firebaseUid u) fuid)
                                  (users db))) by (rewrite E; now left).
        apply filter_In in Hx as [Hx Hq]. apply String.eqb_eq in Hq.
        apply Hnew. rewrite <- Hq. now apply in_map. }
      now rewrite Hf.
    + unfold get_user, try_catch, bind, currentUser. simpl. now rewrite Hrun.
    + right. repeat split; auto.
Qed.

(** ** Joined rows *)

Lemma In_leftJoin_inv {A B} (l : list A) (r : list B) on a o :
  In (a, o) (leftJoin l r on) ->
  In a l /\
  match o with
  | Some b => In b r /\ on a b = true
  | None => forall b, In b r -> on a b = false
  end.
Proof.
  unfold leftJoin. rewrite in_flat_map. intros (a' & Ha' & Hin).
  pose proof (rows_of_fst _ _ _ _ Hin) as Hf. simpl in Hf. subst a'.
  split; [exact Ha'|]. unfold rows_of in Hin.
  destruct (filter (on a) r) as [|b0 ms] eqn:E.
  - destruct Hin as [Hin|[]]. inversion Hin; subst.
    intros b Hb. destruct (on a b) eqn:Eb; [|reflexivity].
    assert (Hx : In b (filter (on a) r)) by (apply filter_In; now split).
    rewrite E in Hx. contradiction.
  - apply in_map_iff in Hin as (b' & Hb' & Hin). inversion Hb'; subst.
    rewrite <- E in Hin. now apply filter_In in Hin.
Qed.

Lemma In_leftJoin_None {A B} (l : list A) (r : list B) on a :
  In a l -> (forall b, In b r -> on a b = false) ->
  In (a, None) (leftJoin l r on).
Proof.
  intros Ha Hnone. unfold leftJoin. apply in_flat_map. exists a.
  split; [exact Ha|]. unfold rows_of.
  destruct (filter (on a) r) as [|b0 ms] eqn:E; [now left|]. exfalso.
  assert (Hx : In b0 (filter (on a) r)) by (rewrite E; now left).
  apply filter_In in Hx as [Hin Hon]. rewrite (Hnone b0 Hin) in Hon.
  discriminate.
Qed.

(** The entries of the share query: one for each share row of the task and
    each user row with the recipient's id, and one without a user for a
    share row whose recipient has no row. *)
Lemma In_sharesOf_entry tid db s o :
  In (mkShareWithUser s o) (sharesOf tid db) <->
  In s (task_shares db) /\ taskId s = tid /\
  match o with
  | Some u => In u (users db) /\ user_id u = sharedWithId s
  | None => forall u, In u (users db) -> user_id u <> sharedWithId s
  end.
Proof.
  unfold sharesOf. rewrite in_map_iff. split.
  - intros ([s' o'] & Heq & Hin). simpl in Heq. inversion Heq; subst s' o'.
    apply filter_In in Hin as [Hin Ht]. simpl in Ht. apply Z.eqb_eq in Ht.
    apply In_leftJoin_inv in Hin as [Hs Ho].
    split; [exact Hs|]. split; [exact Ht|].
    destruct o as [u|].
    + destruct Ho as [Hu Hon]. unfold on_sharedWith in Hon.
      apply Z.eqb_eq in Hon. now split.
    + intros u Hu Heq'. specialize (Ho u Hu). unfold on_sharedWith in Ho.
      apply Z.eqb_neq in Ho. congruence.
  - intros (Hs & Ht & Ho). exists (s, o). split; [reflexivity|].
    apply filter_In. split; [|now apply Z.eqb_eq].
    destruct o as [u|].
    + destruct Ho as [Hu Hid]. apply In_leftJoin_Some.
      split; [exact Hs|]. split; [exact Hu|].
      unfold on_sharedWith. now apply Z.eqb_eq.
    + apply In_leftJoin_None; [exact Hs|]. intros u Hu.
      unfold on_sharedWith. apply Z.eqb_neq. intros Heq.
      now apply (Ho u Hu).
Qed.

Lemma sharesOf_joined tid db :
  consistent db ->
  Forall (fun s => exists r, sharedWith s = Some r /\
                             user_id r = sharedWithId (share s) /\
                             taskId (share s) = tid)
         (sharesOf tid db).
Proof.
  intros Hc. apply Forall_forall. intros s Hs. unfold sharesOf in Hs.
  apply in_map_iff in Hs as ([sh o] & <- & Hin). simpl.
  apply filter_In in Hin as [Hin Ht]. simpl in Ht. apply Z.eqb_eq in Ht.
  apply In_leftJoin_inv in Hin as [Hsh Ho].
  destruct o as [r|].
  - destruct Ho as [_ Hon]. unfold on_sharedWith in Hon.
    apply Z.eqb_eq in Hon. exists r. auto.
  - exfalso. pose proof (share_user_fk db Hc) as Hfk.
    rewrite Forall_forall in Hfk. specialize (Hfk sh Hsh).
    apply in_map_iff in Hfk as (u & Hu & Hin).
    specialize (Ho u Hin). unfold on_sharedWith in Ho.
    rewrite Hu, Z.eqb_refl in Ho. discriminate.
Qed.

Lemma task_row_joined db t o :
  consistent db -> In (t, o) (leftJoin (tasks db) (users db) on_owner) ->
  exists u, o = Some u /\ user_id u = ownerId t.
Proof.
  intros Hc Hin. apply In_leftJoin_inv in Hin as [Ht Ho].
  destruct o as [u|].
  - destruct Ho as [_ Hon]. apply Z.eqb_eq in Hon. now exists u.
  - exfalso. pose proof (task_owner_fk db Hc) as Hfk.
    rewrite Forall_forall in Hfk. specialize (Hfk t Ht).
    apply in_map_iff in Hfk as (u & Hu & Hin).
    specialize (Ho u Hin). unfold on_owner in Ho.
    rewrite Hu, Z.eqb_refl in Ho. discriminate.
Qed.

(** X4: in a store that satisfies the schema constraints the left joins
    never produce a null side: the entry of [getTaskById] and every entry of
    [getTasksByUserId] and [getUserSharedTasks] carries its task columns, the
    row of its owner, and for each share listed the row of its recipient, so
    the non-null assertions of the source hold. *)
Theorem joins_never_null :
  forall db,
    consistent db ->
    (forall tid tw, getTaskById tid db = (inr (Some tw), db) -> joined tw) /\
    (forall userId search l,
        getTasksByUserId userId search db = (inr l, db) -> Forall joined l) /\
    (forall userId l,
        getUserSharedTasks userId db = (inr l, db) -> Forall joined l).
Proof.
  intros db Hc. split; [|split].
  - intros tid tw. destruct (task_id_param tid db) eqn:Hp.
    2:{ now rewrite (getTaskById_range _ _ Hp). }
    rewrite (getTaskById_eq _ _ Hp).
    destruct (hd_error _) as [[t o]|] eqn:E; simpl; [|discriminate].
    intros H. inversion H; subst tw; clear H.
    apply hd_error_filter_In in E as [Hin Hid]. simpl in Hid.
    apply Z.eqb_eq in Hid.
    destruct (task_row_joined db t o Hc Hin) as (u & -> & Hu).
    exists t, u. simpl. repeat split; auto.
    rewrite Hid. now apply sharesOf_joined.
  - intros userId search l. rewrite getTasksByUserId_eq.
    intros H. inversion H; subst l; clear H.
    apply Forall_forall. intros e He.
    apply in_map_iff in He as ([t o] & <- & Hin). simpl.
    apply In_orderByDesc in Hin. apply filter_In in Hin as [Hin _].
    destruct (task_row_joined db t o Hc Hin) as (u & -> & Hu).
    exists t, u. simpl. repeat split; auto. now apply sharesOf_joined.
  - intros userId l. rewrite getUserSharedTasks_eq.
    intros H. inversion H; subst l; clear H.
    apply Forall_forall. intros e He.
    apply in_map_iff in He as ([[s ot] ou] & <- & Hin). simpl.
    apply In_orderByDesc in Hin. apply filter_In in Hin as [Hin _].
    apply In_leftJoin_inv in Hin as [Hst Hou].
    apply In_leftJoin_inv in Hst as [Hs Hot].
    destruct ot as [t|].
    + destruct Hot as [Ht _].
      destruct ou as [u|].
      * destruct Hou as [_ Hon]. unfold on_owner_opt in Hon. simpl in Hon.
        apply Z.eqb_eq in Hon. exists t, u. repeat split; auto.
      * exfalso. pose proof (task_owner_fk db Hc) as Hfk.
        rewrite Forall_forall in Hfk. specialize (Hfk t Ht).
        apply in_map_iff in Hfk as (u & Hu & Hin).
        specialize (Hou u Hin). unfold on_owner_opt in Hou. simpl in Hou.
        rewrite Hu, Z.eqb_refl in Hou. discriminate.
    + exfalso. pose proof (share_task_fk db Hc) as Hfk.
      rewrite Forall_forall in Hfk. specialize (Hfk s Hs).
      apply in_map_iff in Hfk as (t & Ht & Hin).
      specialize (Hot t Hin). unfold on_task in Hot.
      rewrite Ht, Z.eqb_refl in Hot. discriminate.
Qed.

Ltac consistent_concrete :=
  constructor; simpl;
  repeat first
    [ apply NoDup_nil | apply Forall_nil
    | apply NoDup_cons; [simpl; intuition (try discriminate; try lia)|]
    | apply Forall_cons; [simpl; intuition (try discriminate; try lia)|] ].

Lemma db_two_shares_consistent : consistent db_two_shares.
Proof. unfold db_two_shares. consistent_concrete. Qed.

Lemma db_shared_consistent : consistent db_shared.
Proof. unfold db_shared. consistent_concrete. Qed.

Lemma db_unshared_consistent : consistent db_unshared.
Proof. unfold db_unshared. consistent_concrete. Qed.

Lemma joins_never_null_witness :
  (forall tid tw,
      getTaskById tid db_two_shares = (inr (Some tw), db_two_shares) ->
      joined tw) /\
  (forall userId search l,
      getTasksByUserId userId search db_two_shares = (inr l, db_two_shares) ->
      Forall joined l) /\
  (forall userId l,
      getUserSharedTasks userId db_two_shares = (inr l, db_two_shares) ->
      Forall joined l).
Proof.
  apply (joins_never_null db_two_shares). apply db_two_shares_consistent.
Defined.

(** ** The sharing ledger *)

Lemma removeTaskShare_eq tid swid db :
  int4 tid && int4 swid = true ->
  removeTaskShare tid swid db =
  (inr (Nat.ltb 0 (List.length
                     (filter (fun s => (taskId s =? tid) && (sharedWithId s =? swid))
                             (task_shares db)))),
   set_task_shares db
     (filter (fun s => negb ((taskId s =? tid) && (sharedWithId s =? swid)))
             (task_shares db))
     (task_shares_id_seq db)).
Proof. intros H. unfold removeTaskShare, bind, checked. now rewrite H. Qed.

Lemma removeTaskShare_range tid swid db :
  int4 tid && int4 swid = false ->
  removeTaskShare tid swid db = (inl out_of_range, db).
Proof. intros H. unfold removeTaskShare, bind, checked. now rewrite H. Qed.

Lemma share_hit_true tid swid s :
  (taskId s =? tid) && (sharedWithId s =? swid) = true <->
  taskId s = tid /\ sharedWithId s = swid.
Proof. rewrite andb_true_iff, !Z.eqb_eq. tauto. Qed.

Lemma sharedTo_filter db tid swid :
  sharedTo db tid swid <->
  existsb (fun s => (taskId s =? tid) && (sharedWithId s =? swid))
          (task_shares db) = true.
Proof.
  unfold sharedTo. rewrite existsb_exists.
  split; intros (s & Hin & H); exists s; (split; [exact Hin|]);
    now apply share_hit_true.
Qed.

Lemma removeTaskShare_run tid swid db :
  int4 tid && int4 swid = true ->
  exists b db',
    removeTaskShare tid swid db = (inr b, db') /\
    (b = true <-> sharedTo db tid swid) /\
    ~ sharedTo db' tid swid /\
    (forall s, In s (task_shares db') <->
               In s (task_shares db) /\
               ~ (taskId s = tid /\ sharedWithId s = swid)) /\
    tasks db' = tasks db /\ users db' = users db /\
    (~ sharedTo db tid swid -> db' = db).
Proof.
  intros Hr. rewrite (removeTaskShare_eq _ _ _ Hr).
  eexists; eexists; split; [reflexivity|]. simpl.
  assert (Hin : forall s,
             In s (filter (fun s => negb ((taskId s =? tid)
                                          && (sharedWithId s =? swid)))
                          (task_shares db)) <->
             In s (task_shares db) /\
             ~ (taskId s = tid /\ sharedWithId s = swid)).
  { intros s. rewrite filter_In, negb_true_iff, <- share_hit_true.
    destruct ((taskId s =? tid) && (sharedWithId s =? swid));
      intuition congruence. }
  split; [|split; [|split; [exact Hin|split; [reflexivity|split; [reflexivity|]]]]].
  - rewrite sharedTo_filter.
    destruct (filter (fun s => (taskId s =? tid) && (sharedWithId s =? swid))
                     (task_shares db)) eqn:E; simpl.
    + apply filter_nil_existsb in E. rewrite E. split; discriminate.
    + apply existsb_filter_cons in E. rewrite E. tauto.
  - intros (s & Hs & Ht & Hw). simpl in Hs. apply Hin in Hs. tauto.
  - intros Hn. rewrite filter_all_true; [now destruct db|].
    intros s Hs. apply negb_true_iff.
    destruct ((taskId s =? tid) && (sharedWithId s =? swid)) eqn:E;
      [|reflexivity].
    exfalso. apply Hn. exists s. apply share_hit_true in E. tauto.
Qed.

(** X5: for a task id and a recipient id that are both 32-bit integers,
    [removeTaskShare(taskId, sharedWithId)] returns [true] exactly when a
    share row for that task and recipient existed.  Afterwards no such row
    is left, every other share row is still there, and tasks and users are
    untouched; when there was nothing to remove the store is unchanged.
    When either id is outside the range of the [integer] columns the
    statement is refused: the method throws the range error of the database
    and the store is as it was. *)
Theorem removeTaskShare_removes_the_edge :
  forall tid swid db,
    (int4 tid = true /\ int4 swid = true ->
     exists b db',
       removeTaskShare tid swid db = (inr b, db') /\
       (b = true <-> sharedTo db tid swid) /\
       ~ sharedTo db' tid swid /\
       (forall s, In s (task_shares db') <->
                  In s (task_shares db) /\
                  ~ (taskId s = tid /\ sharedWithId s = swid)) /\
       tasks db' = tasks db /\ users db' = users db /\
       (~ sharedTo db tid swid -> db' = db)) /\
    (int4 tid = false \/ int4 swid = false ->
     removeTaskShare tid swid db = (inl out_of_range, db)).
Proof.
  intros tid swid db. split.
  - intros [H1 H2]. apply removeTaskShare_run. now rewrite H1, H2.
  - intros H. apply removeTaskShare_range. apply andb_false_iff. exact H.
Qed.

Lemma map_share_sharesOf tid db :
  map share (sharesOf tid db) =
  map fst (filter (fun r => taskId (fst r) =? tid)
                  (leftJoin (task_shares db) (users db) on_sharedWith)).
Proof. unfold sharesOf. rewrite map_map. reflexivity. Qed.

Lemma In_sharesOf tid db s :
  In s (map share (sharesOf tid db)) <->
  In s (task_shares db) /\ taskId s = tid.
Proof.
  rewrite map_share_sharesOf.
  rewrite (In_filter_leftJoin_fst (fun s => taskId s =? tid)), Z.eqb_eq.
  tauto.
Qed.

(** X6: [shareTask] inserts exactly when the task and the recipient exist.
    The row it returns carries the task, the recipient and the permission
    given ([view] when none is), it is appended to the table, and
    [getTaskShares] of that task then lists it together with the shares the
    task had before.  [shareTask] itself does not look for an earlier share
    of the same pair.  When the task or the recipient is missing it throws
    and no table changes. *)
Theorem shareTask_then_listed :
  forall s clk db,
    (In (its_taskId s) (map id (tasks db)) /\
     In (its_sharedWithId s) (map user_id (users db)) ->
     exists row db' listed,
       shareTask s clk db = (inr row, db') /\
       taskId row = its_taskId s /\
       sharedWithId row = its_sharedWithId s /\
       permission row = or_default (its_permission s) view /\
       task_shares db' = task_shares db ++ [row] /\
       getTaskShares (its_taskId s) db' = (inr listed, db') /\
       (forall x, In x (map share listed) <->
                  x = row \/ (In x (task_shares db) /\ taskId x = its_taskId s))) /\
    (~ (In (its_taskId s) (map id (tasks db)) /\
        In (its_sharedWithId s) (map user_id (users db))) ->
     exists e db',
       shareTask s clk db = (inl e, db') /\
       task_shares db' = task_shares db /\ tasks db' = tasks db /\
       users db' = users db).
Proof.
  intros s clk db. unfold shareTask.
  assert (Hfk : existsb (fun t => id t =? its_taskId s) (tasks db)
                && existsb (fun u => user_id u =? its_sharedWithId s) (users db)
                = true <->
                In (its_taskId s) (map id (tasks db)) /\
                In (its_sharedWithId s) (map user_id (users db))).
  { rewrite andb_true_iff.
    rewrite !existsb_exists, !in_map_iff.
    split; intros [(t & H1 & H2) (u & H3 & H4)]; split.
    - exists t. apply Z.eqb_eq in H2. auto.
    - exists u. apply Z.eqb_eq in H4. auto.
    - exists t. split; [exact H2 | now apply Z.eqb_eq].
    - exists u. split; [exact H4 | now apply Z.eqb_eq]. }
  destruct (existsb _ (tasks db) && existsb _ (users db)).
  - split; [intros _ | intros Hn; exfalso; apply Hn; now apply Hfk].
    assert (Hin : In (its_taskId s) (map id (tasks db))).
    { apply Hfk. reflexivity. }
    apply in_map_iff in Hin as (t & Hid & Hin).
    eexists; eexists; eexists. split; [reflexivity|]. simpl.
    repeat (split; [reflexivity|]).
    split; [apply getTaskShares_eq; now apply (task_row_param _ _ t)|].
    intros x. rewrite In_sharesOf. simpl. rewrite in_app_iff. simpl.
    split.
    + intros [[H|[H|[]]] Ht]; [right; auto | left; auto].
    + intros [->|[H Ht]]; simpl; auto.
  - split; [intros H; apply Hfk in H; discriminate | intros _].
    eexists; eexists. split; [reflexivity|]. simpl. auto.
Qed.

(** ** Creating a task *)

Lemma filter_key_exact {B} (f : B -> Z) (r : list B) b :
  NoDup (map f r) -> In b r -> filter (fun x => Z.eqb (f b) (f x)) r = [b].
Proof.
  induction r as [|a r IH]; simpl; intros Hnd Hin; [contradiction|].
  inversion Hnd as [|x xs Hnotin Hnd']; subst.
  destruct Hin as [->|Hin].
  - rewrite Z.eqb_refl. f_equal.
    apply filter_nil_existsb. apply not_true_iff_false. intros Hex.
    apply existsb_exists in Hex as (b' & Hin & Heq).
    apply Z.eqb_eq in Heq. apply Hnotin. rewrite Heq. now apply in_map.
  - destruct (Z.eqb_spec (f b) (f a)) as [Heq|Hne]; [|now apply IH].
    exfalso. apply Hnotin. rewrite <- Heq. now apply in_map.
Qed.

Lemma leftJoin_app {A B} (l l' : list A) (r : list B) on :
  leftJoin (l ++ l') r on = leftJoin l r on ++ leftJoin l' r on.
Proof. unfold leftJoin. apply flat_map_app. Qed.

Lemma filter_leftJoin_nil {A B} (p : A -> bool) (l : list A) (r : list B) on :
  (forall a, In a l -> p a = false) ->
  filter (fun x => p (fst x)) (leftJoin l r on) = [].
Proof.
  intros H. destruct (filter _ _) as [|x rest] eqn:E; [reflexivity|]. exfalso.
  assert (Hx : In (fst x) (map fst (filter (fun x => p (fst x))
                                           (leftJoin l r on)))).
  { rewrite E. now left. }
  apply (In_filter_leftJoin_fst p) in Hx as [Hin Hp].
  rewrite (H _ Hin) in Hp. discriminate.
Qed.

(** X7: in a store that satisfies the schema constraints, [createTask] for
    an existing owner returns a row with a fresh identifier, the fields
    given, [status] and [priority] defaulted to [todo] and [medium] when
    absent, and [getTaskById] of that identifier then returns that row with
    its owner's row and no shares. *)
Theorem createTask_then_read :
  forall t clk db,
    consistent db ->
    In (it_ownerId t) (map user_id (users db)) ->
    exists row u db',
      createTask t clk db = (inr row, db') /\
      tasks db' = tasks db ++ [row] /\
      id row = tasks_id_seq db /\
      title row = it_title t /\ description row = it_description t /\
      status row = or_default (it_status t) todo /\
      priority row = or_default (it_priority t) medium /\
      dueDate row = it_dueDate t /\ ownerId row = it_ownerId t /\
      In u (users db) /\ user_id u = it_ownerId t /\
      getTaskById (id row) db' =
      (inr (Some (mkTaskWithOwner (Some row) (Some u) [])), db').
Proof.
  intros t clk db Hc Hown.
  pose proof Hown as Hu. apply in_map_iff in Hu as (u & Hu & Hin).
  unfold createTask.
  assert (Hex : existsb (fun u => user_id u =? it_ownerId t) (users db) = true).
  { apply existsb_exists. exists u. split; [exact Hin | now apply Z.eqb_eq]. }
  rewrite Hex.
  eexists; exists u; eexists. split; [reflexivity|]. simpl.
  repeat (split; [first [reflexivity | assumption]|]).
  rewrite getTaskById_eq.
  2:{ eapply task_row_param;
        [cbn [tasks set_tasks]; apply in_or_app; right; left; reflexivity
        |reflexivity]. }
  simpl.
  rewrite leftJoin_app, filter_app.
  rewrite (filter_leftJoin_nil (fun x => id x =? tasks_id_seq db)).
  2:{ intros a Ha. apply Z.eqb_neq.
      pose proof (task_seq db Hc) as Hs. rewrite Forall_forall in Hs.
      specialize (Hs a Ha). simpl in Hs. lia. }
  simpl. unfold rows_of, on_owner. simpl. rewrite <- Hu.
  rewrite (filter_key_exact user_id (users db) u (user_pk db Hc) Hin).
  simpl. rewrite Z.eqb_refl. simpl.
  rewrite sharesOf_nil; [reflexivity|].
  intros s Hs. simpl in Hs.
  pose proof (share_task_fk db Hc) as Hfk. rewrite Forall_forall in Hfk.
  specialize (Hfk s Hs). apply in_map_iff in Hfk as (t' & Ht' & Hin').
  pose proof (task_seq db Hc) as Hseq. rewrite Forall_forall in Hseq.
  specialize (Hseq t' Hin'). simpl in Hseq. lia.
Qed.

Lemma createTask_then_read_witness :
  exists row u db',
    createTask (mkInsertTask "Plan" None None None None 1) clock0 db_shared
    = (inr row, db') /\
    tasks db' = tasks db_shared ++ [row] /\
    id row = tasks_id_seq db_shared /\
    title row = "Plan" /\ description row = None /\
    status row = todo /\ priority row = medium /\
    dueDate row = None /\ ownerId row = 1 /\
    In u (users db_shared) /\ user_id u = 1 /\
    getTaskById (id row) db' =
    (inr (Some (mkTaskWithOwner (Some row) (Some u) [])), db').
Proof.
  apply (createTask_then_read (mkInsertTask "Plan" None None None None 1)
           clock0 db_shared).
  - apply db_shared_consistent.
  - simpl. left. reflexivity.
Defined.

(** ** Creating a task through the gateway *)

(** X8: [POST /api/tasks] with a body that passes validation always answers
    201 with a task owned by the caller, whatever the body says, carrying
    the fields of the body with [status] and [priority] defaulted, and that
    task is the one row added; with a body that fails validation it answers
    400 and no task is written. *)
Theorem post_task_owner_is_caller :
  forall req body clk db,
  exists user db1,
    currentUser req clk db = (inr user, db1) /\
    match body with
    | Some b =>
        exists t,
          post_task req body clk db =
          (mkResponse 201 (JTask t),
           set_tasks db1 (tasks db1 ++ [t]) (tasks_id_seq db1 + 1)) /\
          ownerId t = user_id user /\
          title t = tb_title b /\ description t = tb_description b /\
          status t = or_default (tb_status b) todo /\
          priority t = or_default (tb_priority b) medium /\
          dueDate t = tb_dueDate b
    | None =>
        post_task req body clk db =
        (mkResponse 400 (JInvalid "Invalid task data"), db1)
    end.
Proof.
  intros req body clk db.
  destruct (currentUser_ok req clk db)
    as (user & db1 & Hcu & _ & _ & _ & _ & _ & Hu).
  exists user, db1. split; [exact Hcu|].
  unfold post_task, try_catch, bind, parse, ret, throw. rewrite Hcu.
  destruct body as [b|]; [|reflexivity].
  apply hd_error_filter_In in Hu as [Hin _].
  unfold createTask. simpl.
  assert (Hex : existsb (fun u => user_id u =? user_id user) (users db1) = true).
  { apply existsb_exists. exists user. split; [exact Hin | apply Z.eqb_refl]. }
  rewrite Hex. eexists. split; [reflexivity|]. simpl. repeat split.
Qed.

(** ** Deleting through the gateway *)

Lemma deleteTask_run tid userId db :
  int4 tid = true ->
  exists b db',
    deleteTask tid userId db = (inr b, db') /\
    (b = true <-> owns db tid userId) /\
    (forall t, In t (tasks db') <->
               In t (tasks db) /\ ~ (id t = tid /\ ownerId t = userId)) /\
    (b = true -> forall s, In s (task_shares db') -> taskId s <> tid) /\
    (forall s, In s (task_shares db') -> In s (task_shares db)) /\
    users db' = users db /\
    (b = false -> db' = db).
Proof.
  intros Hr.
  rewrite (deleteTask_eq _ _ _ Hr).
  eexists; eexists; split; [reflexivity|]. simpl.
  assert (Hb : Nat.ltb 0 (List.length (filter (id_and_owner tid userId)
                                              (tasks db))) = true
               <-> owns db tid userId).
  { rewrite owns_existsb.
    destruct (filter (id_and_owner tid userId) (tasks db)) eqn:E; simpl.
    - apply filter_nil_existsb in E. rewrite E. split; discriminate.
    - apply existsb_filter_cons in E. rewrite E. tauto. }
  split; [exact Hb|]. split; [|split; [|split; [|split]]].
  - intros t. rewrite filter_In, negb_true_iff, <- id_and_owner_true.
    destruct (id_and_owner tid userId t); intuition congruence.
  - intros Ht s Hs Heq. apply filter_In in Hs as [_ Hs].
    apply negb_true_iff, not_true_iff_false in Hs. apply Hs.
    destruct (filter (id_and_owner tid userId) (tasks db)) as [|t0 rest] eqn:E;
      [discriminate Ht|].
    apply existsb_exists. exists t0. split; [now left|].
    assert (H0 : In t0 (filter (id_and_owner tid userId) (tasks db)))
      by (rewrite E; now left).
    apply filter_In in H0 as [_ H0]. apply id_and_owner_true in H0 as [H0 _].
    apply Z.eqb_eq. congruence.
  - intros s Hs. now apply filter_In in Hs.
  - reflexivity.
  - intros Hf.
    assert (Hn : filter (id_and_owner tid userId) (tasks db) = []).
    { destruct (filter _ _); [reflexivity | discriminate Hf]. }
    rewrite Hn. simpl.
    rewrite !filter_all_true; [now destruct db | reflexivity |].
    intros t Hin. apply negb_true_iff.
    destruct (id_and_owner tid userId t) eqn:E; [|reflexivity].
    assert (Hx : In t (filter (id_and_owner tid userId) (tasks db)))
      by (apply filter_In; now split).
    rewrite Hn in Hx. contradiction.
Qed.

Lemma owns_same_tasks db db' tid userId :
  tasks db' = tasks db -> (owns db' tid userId <-> owns db tid userId).
Proof. unfold owns. now intros ->. Qed.

(** X9: for an id that is a 32-bit integer, [DELETE /api/tasks/:id]
    answers 204 when the caller owns a task with that id, and then exactly
    the caller's rows with that id are gone and no share row references the
    id; it answers 404 "Task not found or access denied" when the caller
    owns no such task, and then writes nothing beyond the caller's own user
    row.  For an id outside the range of the [integer] column the database
    refuses the statement and the answer is 500 "Failed to delete task",
    again with nothing written beyond the caller's user row. *)
Theorem delete_task_outcome :
  forall req tid clk db,
  exists user db1,
    currentUser req clk db = (inr user, db1) /\
    (int4 tid = true /\ owns db tid (user_id user) ->
     exists db2,
       delete_task req tid clk db = (mkResponse 204 JEmpty, db2) /\
       (forall t, In t (tasks db2) <->
                  In t (tasks db) /\
                  ~ (id t = tid /\ ownerId t = user_id user)) /\
       (forall s, In s (task_shares db2) -> taskId s <> tid)) /\
    (int4 tid = true /\ ~ owns db tid (user_id user) ->
     delete_task req tid clk db =
     (mkResponse 404 (JMessage "Task not found or access denied"), db1)) /\
    (int4 tid = false ->
     delete_task req tid clk db =
     (mkResponse 500 (JMessage "Failed to delete task"), db1)).
Proof.
  intros req tid clk db.
  destruct (currentUser_ok req clk db) as (user & db1 & Hcu & Ht & Hs & _).
  exists user, db1. split; [exact Hcu|].
  destruct (int4 tid) eqn:Hr.
  2:{ split; [intros [H _]; discriminate H|].
      split; [intros [H _]; discriminate H|]. intros _.
      unfold delete_task, try_catch, bind.
      now rewrite Hcu, (deleteTask_range _ _ _ Hr). }
  destruct (deleteTask_run tid (user_id user) db1 Hr)
    as (b & db2 & Hdel & Hb & Htasks & Hcasc & _ & _ & Hsame).
  rewrite (owns_same_tasks db db1 _ _ Ht) in Hb.
  assert (Hrun : delete_task req tid clk db =
                 (if negb b
                  then mkResponse 404
                         (JMessage "Task not found or access denied")
                  else mkResponse 204 JEmpty, db2)).
  { unfold delete_task, try_catch, bind. rewrite Hcu, Hdel.
    now destruct b. }
  split; [|split; [|discriminate]].
  - intros [_ Ho]. apply Hb in Ho. subst b. exists db2.
    split; [exact Hrun|]. split; [|now apply Hcasc].
    intros t. rewrite Htasks, Ht. tauto.
  - intros [_ Hn]. destruct b.
    + exfalso. apply Hn. now apply Hb.
    + rewrite Hrun. simpl. now rewrite Hsame.
Qed.

(** ** Reading after a write *)

Lemma taskOf_eq db tid :
  taskOf db tid = hd_error (filter (fun t => id t =? tid) (tasks db)).
Proof.
  unfold taskOf.
  destruct (getTaskById_cases tid db) as [(_ & t & -> & H) | (Hp & ->)]; simpl.
  - destruct t as [tw|]; [now destruct H | now rewrite H].
  - now rewrite (no_task_row _ _ Hp).
Qed.

Lemma taskOf_param db tid t :
  taskOf db tid = Some t -> task_id_param tid db = true.
Proof.
  rewrite taskOf_eq. intros E.
  apply hd_error_filter_In in E as [Hin Hid]. apply Z.eqb_eq in Hid.
  exact (task_row_param tid db t Hin Hid).
Qed.

Lemma get_task_run req tid clk db user db1 :
  currentUser req clk db = (inr user, db1) ->
  task_id_param tid db1 = true ->
  exists t,
    getTaskById tid db1 = (inr t, db1) /\
    get_task req tid clk db =
    (match t with
     | None => mkResponse 404 (JMessage "Task not found")
     | Some tw =>
         if hasAccess tw user then mkResponse 200 (JTaskWithOwner tw)
         else mkResponse 403 (JMessage "Access denied")
     end, db1).
Proof.
  intros Hcu Hp. destruct (getTaskById_task tid db1 Hp) as (t & Hget & _).
  exists t. split; [exact Hget|].
  unfold get_task, try_catch, bind. rewrite Hcu, Hget.
  destruct t as [tw|]; [|reflexivity]. now destruct (hasAccess tw user).
Qed.

Lemma taskOf_None_get_task req tid clk db :
  int4 tid = true ->
  (forall t, In t (tasks db) -> id t <> tid) ->
  get_task req tid clk db =
  (mkResponse 404 (JMessage "Task not found"), snd (currentUser req clk db)).
Proof.
  intros Hr Hnone.
  destruct (currentUser_ok req clk db) as (user & db1 & Hcu & Ht & _).
  pose proof (int4_param tid db1 Hr) as Hp.
  destruct (get_task_run req tid clk db user db1 Hcu Hp) as (t & Hget & Hrun).
  rewrite Hrun, Hcu. simpl.
  destruct (getTaskById_task tid db1 Hp) as (t' & Hget' & Hspec).
  rewrite Hget in Hget'. inversion Hget'; subst t'.
  destruct t as [tw|]; [|reflexivity]. exfalso.
  destruct Hspec as (Htask & Hne & _). rewrite Ht in Htask.
  destruct (hd_error _) as [row|] eqn:E; [|congruence].
  apply hd_error_filter_In in E as [Hin Hid]. apply Z.eqb_eq in Hid.
  exact (Hnone row Hin Hid).
Qed.

Lemma unique_id_rows (l : list Task) t0 :
  NoDup (map id l) -> In t0 l ->
  forall t, In t l -> id t = id t0 -> t = t0.
Proof.
  intros Hnd H0 t Ht Hid.
  pose proof (filter_key_exact id l t0 Hnd H0) as Hf.
  assert (Hx : In t (filter (fun x => Z.eqb (id t0) (id x)) l)).
  { apply filter_In. split; [exact Ht|]. apply Z.eqb_eq. congruence. }
  rewrite Hf in Hx. destruct Hx as [<-|[]]. reflexivity.
Qed.

(** X10: task identifiers being unique, once [DELETE /api/tasks/:id] has
    answered 204 the task is gone for everyone: no task row and no share row
    with that id is left, [GET /api/tasks/:id] answers 404 "Task not found"
    to any caller, and no caller's [GET /api/tasks] lists it, with or
    without a search term. *)
Theorem deleted_task_is_gone :
  forall req tid clk db r db2,
    NoDup (map id (tasks db)) ->
    delete_task req tid clk db = (r, db2) ->
    res_status r = 204 ->
    (forall t, In t (tasks db2) -> id t <> tid) /\
    (forall s, In s (task_shares db2) -> taskId s <> tid) /\
    (forall req' clk',
        fst (get_task req' tid clk' db2) =
        mkResponse 404 (JMessage "Task not found")) /\
    (forall req' search clk' ts,
        fst (get_tasks req' search clk' db2) = mkResponse 200 (JTasks ts) ->
        forall t, In (Some t) (map task ts) -> id t <> tid).
Proof.
  intros req tid clk db r db2 Hnd Hdel H204.
  destruct (currentUser_ok req clk db) as (user & db1 & Hcu & Ht & Hs & _).
  assert (Hr : int4 tid = true).
  { destruct (int4 tid) eqn:Hr; [reflexivity|].
    unfold delete_task, try_catch, bind in Hdel.
    rewrite Hcu, (deleteTask_range _ _ _ Hr) in Hdel.
    inversion Hdel; subst r; discriminate H204. }
  destruct (deleteTask_run tid (user_id user) db1 Hr)
    as (b & db2' & Hrun & Hb & Htasks & Hcasc & _ & _ & _).
  unfold delete_task, try_catch, bind in Hdel. rewrite Hcu, Hrun in Hdel.
  destruct b; simpl in Hdel; inversion Hdel; subst r db2'; clear Hdel;
    [|discriminate H204].
  assert (Hgone : forall t, In t (tasks db2) -> id t <> tid).
  { intros t Hin Hid. apply Htasks in Hin as [Hin Hnot].
    destruct (proj1 Hb eq_refl) as (t0 & H0 & Hid0 & Hown0).
    rewrite Ht in Hin, H0.
    assert (t = t0) by (apply (unique_id_rows (tasks db)); auto; congruence).
    subst t0. tauto. }
  split; [exact Hgone|]. split; [now apply Hcasc|]. split.
  - intros req' clk'.
    now rewrite (taskOf_None_get_task req' tid clk' db2 Hr Hgone).
  - intros req' search clk' ts Hlist t Hin.
    destruct (currentUser_ok req' clk' db2)
      as (user' & db3 & Hcu' & Ht' & Hs' & _).
    destruct (getTasksByUserId_spec (user_id user') search db3)
      as (owned & Ho & Hoin & _).
    destruct (getUserSharedTasks_spec (user_id user') db3)
      as (shared & Hsh & Hsin & _).
    unfold get_tasks, try_catch, bind in Hlist.
    rewrite Hcu', Ho, Hsh in Hlist. simpl in Hlist.
    inversion Hlist; subst ts; clear Hlist.
    rewrite map_app, in_app_iff in Hin. apply Hgone. rewrite <- Ht'.
    destruct Hin as [Hin|Hin]; [apply Hoin in Hin | apply Hsin in Hin]; tauto.
Qed.

Lemma deleted_task_is_gone_witness :
  (forall t, In t (tasks (snd (delete_task req_alice 1 clock0 db_two_shares)))
             -> id t <> 1) /\
  (forall s,
      In s (task_shares (snd (delete_task req_alice 1 clock0 db_two_shares)))
      -> taskId s <> 1) /\
  (forall req' clk',
      fst (get_task req' 1 clk'
                    (snd (delete_task req_alice 1 clock0 db_two_shares))) =
      mkResponse 404 (JMessage "Task not found")) /\
  (forall req' search clk' ts,
      fst (get_tasks req' search clk'
                     (snd (delete_task req_alice 1 clock0 db_two_shares))) =
      mkResponse 200 (JTasks ts) ->
      forall t, In (Some t) (map task ts) -> id t <> 1).
Proof.
  apply (deleted_task_is_gone req_alice 1 clock0 db_two_shares
           (fst (delete_task req_alice 1 clock0 db_two_shares))).
  - apply (task_pk _ db_two_shares_consistent).
  - apply surjective_pairing.
  - reflexivity.
Defined.

Lemma filter_map_commute {A} (p : A -> bool) (g : A -> A) l :
  (forall a, p (g a) = p a) -> filter p (map g l) = map g (filter p l).
Proof.
  intros H. induction l as [|a l IH]; simpl; [reflexivity|].
  rewrite H. destruct (p a); simpl; now rewrite IH.
Qed.

(** X11: task identifiers being unique, the task [updateTask] returns is
    what [getTaskById] of that id returns from then on, the tasks under every
    other id read as before, and [GET /api/tasks/:id] by the owner answers
    200 with the updated task. *)
Theorem update_then_read :
  forall tid userId updates clk db t db',
    NoDup (map id (tasks db)) ->
    updateTask tid userId updates clk db = (inr t, db') ->
    taskOf db' tid = Some t /\
    (forall tid', tid' <> tid -> taskOf db' tid' = taskOf db tid') /\
    (forall req clk' user,
        currentUser req clk' db' = (inr user, db') ->
        user_id user = userId ->
        exists tw,
          get_task req tid clk' db' =
          (mkResponse 200 (JTaskWithOwner tw), db') /\ task tw = Some t).
Proof.
  intros tid userId updates clk db t db' Hnd H.
  rewrite updateTask_eq in H.
  destruct (task_id_param tid db); [|discriminate H].
  destruct (filter (id_and_owner tid userId) (tasks db)) as [|t0 rest] eqn:E;
    inversion H; subst t db'; clear H.
  assert (H0 : In t0 (filter (id_and_owner tid userId) (tasks db)))
    by (rewrite E; now left).
  apply filter_In in H0 as [Hin0 Hm0]. pose proof Hm0 as Hm.
  apply id_and_owner_true in Hm as [Hid0 Hown0].
  set (g := fun t => if id_and_owner tid userId t
                     then apply_updates updates clk t else t).
  assert (Hgid : forall k a, (id (g a) =? k) = (id a =? k)).
  { intros k a. unfold g. now destruct (id_and_owner tid userId a). }
  assert (Htid : taskOf (set_tasks db (map g (tasks db)) (tasks_id_seq db)) tid
                 = Some (apply_updates updates clk t0)).
  { rewrite taskOf_eq. simpl.
    rewrite (filter_map_commute (fun t => id t =? tid) g) by apply Hgid.
    rewrite (filter_ext (fun t => id t =? tid) (fun x => Z.eqb (id t0) (id x)))
      by (intros a; rewrite Hid0; apply Z.eqb_sym).
    rewrite (filter_key_exact id (tasks db) t0 Hnd Hin0). simpl.
    unfold g. now rewrite Hm0. }
  split; [exact Htid|]. split.
  - intros tid' Hne. rewrite !taskOf_eq. simpl.
    rewrite (filter_map_commute (fun t => id t =? tid') g) by apply Hgid.
    f_equal. rewrite <- (map_id (filter _ (tasks db))) at 2.
    apply map_ext_in. intros a Ha. apply filter_In in Ha as [_ Ha].
    apply Z.eqb_eq in Ha. unfold g.
    destruct (id_and_owner tid userId a) eqn:Ea; [|reflexivity].
    apply id_and_owner_true in Ea. lia.
  - intros req clk' user Hcu Hu.
    destruct (get_task_run req tid clk' _ user _ Hcu (taskOf_param _ _ _ Htid))
      as (t' & Hget & Hrun).
    unfold taskOf in Htid. rewrite Hget in Htid. simpl in Htid.
    destruct t' as [tw|]; [|discriminate]. exists tw.
    split; [|exact Htid]. rewrite Hrun.
    unfold hasAccess. rewrite Htid. simpl. rewrite Hown0, <- Hu, Z.eqb_refl.
    reflexivity.
Qed.

Lemma update_then_read_witness :
  taskOf (snd (updateTask 1 1 rename clock0 db_shared)) 1 =
  Some (apply_updates rename clock0 report) /\
  (forall tid', tid' <> 1 ->
                taskOf (snd (updateTask 1 1 rename clock0 db_shared)) tid' =
                taskOf db_shared tid') /\
  (forall req clk' user,
      currentUser req clk' (snd (updateTask 1 1 rename clock0 db_shared)) =
      (inr user, snd (updateTask 1 1 rename clock0 db_shared)) ->
      user_id user = 1 ->
      exists tw,
        get_task req 1 clk' (snd (updateTask 1 1 rename clock0 db_shared)) =
        (mkResponse 200 (JTaskWithOwner tw),
         snd (updateTask 1 1 rename clock0 db_shared)) /\
        task tw = Some (apply_updates rename clock0 report)).
Proof.
  apply (update_then_read 1 1 rename clock0 db_shared).
  - apply (task_pk _ db_shared_consistent).
  - reflexivity.
Defined.

(** ** Sharing through the gateway *)

Lemma ownerOf_owns db tid userId :
  ownerOf db tid = Some userId -> owns db tid userId.
Proof.
  rewrite ownerOf_eq. destruct (hd_error _) as [t|] eqn:E; [|discriminate].
  simpl. intros H. inversion H. apply hd_error_filter_In in E as [Hin Hid].
  apply Z.eqb_eq in Hid. now exists t.
Qed.

Lemma ownerOf_same_tasks db db' tid :
  tasks db' = tasks db -> ownerOf db' tid = ownerOf db tid.
Proof. intros H. now rewrite !ownerOf_eq, H. Qed.

Lemma not_owner_true tid db t user :
  getTaskById tid db = (inr t, db) ->
  ownerOf db tid <> Some (user_id user) -> not_owner t user = true.
Proof.
  intros Hget Hne. destruct (not_owner t user) eqn:E; [reflexivity|].
  exfalso. apply Hne. now apply (not_owner_ownerOf tid db t user Hget).
Qed.

(** X12: [POST /api/tasks/share] records a share only for the owner: a
    request answered 201 comes from a caller who owns a task with that id.
    For a task id the database accepts as a value of its [integer] column
    (a 32-bit integer, or an id a stored row carries), a caller who owns no
    task with that id, the id existing or not, is answered 403 "You can only
    share tasks you own"; for any other task id the lookup of the task
    fails in the database and the answer is 500 "Failed to share task"; a
    body that fails validation is answered 400.  In the last three cases
    nothing is written beyond the caller's own user row: no recipient is
    looked up or provisioned. *)
Theorem post_share_requires_owner :
  forall req body clk db,
  exists user db1,
    currentUser req clk db = (inr user, db1) /\
    (body = None ->
     post_share req body clk db =
     (mkResponse 400 (JInvalid "Invalid share data"), db1)) /\
    (forall sd, body = Some sd ->
                task_id_param (req_taskId sd) db = true ->
                ~ owns db (req_taskId sd) (user_id user) ->
                post_share req body clk db =
                (mkResponse 403 (JMessage "You can only share tasks you own"),
                 db1)) /\
    (forall sd, body = Some sd ->
                task_id_param (req_taskId sd) db = false ->
                post_share req body clk db =
                (mkResponse 500 (JMessage "Failed to share task"), db1)) /\
    (forall sd, body = Some sd -> int4 (req_taskId sd) = true ->
                task_id_param (req_taskId sd) db = true) /\
    (forall r db', post_share req body clk db = (r, db') ->
                   res_status r = 201 ->
                   exists sd, body = Some sd /\
                              owns db (req_taskId sd) (user_id user)).
Proof.
  intros req body clk db.
  destruct (currentUser_ok req clk db) as (user & db1 & Hcu & Ht & Hs & _).
  exists user, db1. split; [exact Hcu|].
  assert (Hpp : forall tid, task_id_param tid db1 = task_id_param tid db).
  { intros tid. apply task_id_param_same; [now rewrite Ht | exact Hs]. }
  split; [|split; [|split; [|split]]].
  - intros ->. unfold post_share, try_catch, bind, parse, throw.
    now rewrite Hcu.
  - intros sd -> Hp Hn. rewrite <- Hpp in Hp.
    destruct (getTaskById_task (req_taskId sd) db1 Hp) as (t & Hget & _).
    unfold post_share, try_catch, bind, parse, ret. rewrite Hcu, Hget.
    rewrite (not_owner_true _ _ _ user Hget); [reflexivity|].
    intros Ho. apply Hn. apply ownerOf_owns.
    now rewrite <- (ownerOf_same_tasks db db1 _ Ht).
  - intros sd -> Hp. rewrite <- Hpp in Hp.
    unfold post_share, try_catch, bind, parse, ret.
    now rewrite Hcu, (getTaskById_range _ _ Hp).
  - intros sd _ Hr. now apply int4_param.
  - intros r db' Hrun H201. destruct body as [sd|].
    + exists sd. split; [reflexivity|].
      unfold post_share, try_catch, bind, parse, ret in Hrun.
      rewrite Hcu in Hrun.
      destruct (getTaskById_cases (req_taskId sd) db1)
        as [(_ & t & Hget & _) | (_ & Hget)]; rewrite Hget in Hrun.
      2:{ inversion Hrun; subst r; discriminate. }
      destruct (not_owner t user) eqn:Hno.
      { inversion Hrun; subst r; discriminate. }
      apply (not_owner_ownerOf _ _ _ user Hget) in Hno.
      apply ownerOf_owns. now rewrite <- (ownerOf_same_tasks db db1 _ Ht).
    + unfold post_share, try_catch, bind, parse, throw in Hrun.
      rewrite Hcu in Hrun. inversion Hrun; subst r; discriminate.
Qed.

(** X13: a share request answered 201 has appended one share row, for the
    task asked, with the permission asked, to the user [getUserByEmail] now
    returns for the address asked (registered before, or provisioned by the
    request); from then on [GET /api/tasks/:id] answers 200 to that user. *)
Theorem share_grants_read :
  forall req sd clk db r db',
    post_share req (Some sd) clk db = (r, db') ->
    res_status r = 201 ->
    exists rcp row,
      r = mkResponse 201 (JShare row) /\
      task_shares db' = task_shares db ++ [row] /\
      taskId row = req_taskId sd /\ sharedWithId row = user_id rcp /\
      permission row = req_permission sd /\
      getUserByEmail (req_email sd) db' = (inr (Some rcp), db') /\
      forall req' clk',
        currentUser req' clk' db' = (inr rcp, db') ->
        exists tw,
          get_task req' (req_taskId sd) clk' db' =
          (mkResponse 200 (JTaskWithOwner tw), db').
Proof.
  intros req sd clk db r db' H H201.
  destruct (post_share_created req sd clk db r db' H H201)
    as (user & rcp & row & Hu & Ho & Hr & -> & Hsh & Ht & Hw & Hp & _ & _).
  exists rcp, row. repeat (split; [assumption || reflexivity|]).
  split; [now rewrite getUserByEmail_eq, Hr|].
  intros req' clk' Hcu.
  pose proof (ownerOf_param _ _ _ Ho) as Hpar.
  destruct (get_task_run req' (req_taskId sd) clk' db' rcp db' Hcu Hpar)
    as (t & Hget & Hrun).
  destruct (getTaskById_task (req_taskId sd) db' Hpar) as (t' & Hget' & Hspec).
  rewrite Hget in Hget'. inversion Hget'; subst t'.
  destruct t as [tw|].
  - exists tw. rewrite Hrun. destruct Hspec as (_ & _ & Hshares).
    assert (Hacc : hasAccess tw rcp = true).
    { unfold hasAccess. rewrite Hshares. apply orb_true_iff. right.
      apply sharedTo_existsb. exists row. rewrite Hsh.
      split; [apply in_or_app; right; now left | auto]. }
    now rewrite Hacc.
  - exfalso. rewrite ownerOf_eq, Hspec in Ho. discriminate.
Qed.

Lemma share_grants_read_witness :
  exists rcp row,
    fst (post_share req_alice (Some share_with_carol) clock0 db_unshared) =
    mkResponse 201 (JShare row) /\
    task_shares (snd (post_share req_alice (Some share_with_carol) clock0
                                 db_unshared)) =
    task_shares db_unshared ++ [row] /\
    taskId row = req_taskId share_with_carol /\
    sharedWithId row = user_id rcp /\
    permission row = req_permission share_with_carol /\
    getUserByEmail (req_email share_with_carol)
      (snd (post_share req_alice (Some share_with_carol) clock0 db_unshared)) =
    (inr (Some rcp),
     snd (post_share req_alice (Some share_with_carol) clock0 db_unshared)) /\
    forall req' clk',
      currentUser req' clk'
        (snd (post_share req_alice (Some share_with_carol) clock0 db_unshared))
      = (inr rcp,
         snd (post_share req_alice (Some share_with_carol) clock0 db_unshared))
      ->
      exists tw,
        get_task req' (req_taskId share_with_carol) clk'
          (snd (post_share req_alice (Some share_with_carol) clock0
                           db_unshared)) =
        (mkResponse 200 (JTaskWithOwner tw),
         snd (post_share req_alice (Some share_with_carol) clock0 db_unshared)).
Proof.
  apply (share_grants_read req_alice share_with_carol clock0 db_unshared
           (fst (post_share req_alice (Some share_with_carol) clock0
                            db_unshared))).
  - apply surjective_pairing.
  - reflexivity.
Defined.

(** X14: [GET /api/tasks/:id/shares] answers 200 when the task
    [getTaskById] finds is owned by the caller, and then lists the shares of
    the task in the order of the table, each with its recipient: an entry
    pairs a share row of the task with a user row whose id is the share's
    [sharedWithId], or with no user when the recipient has no row (which the
    foreign key excludes).  For an id the database accepts as a value of
    its [integer] column it answers 403 "Access denied" otherwise, also
    when no task has that id, and never 404; for any other id the lookup
    fails in the database and the answer is 500 "Failed to fetch task
    shares".  Nothing is written beyond the caller's own user row. *)
Theorem get_shares_outcome :
  forall req tid clk db,
  exists user db1,
    currentUser req clk db = (inr user, db1) /\
    (task_id_param tid db = false ->
     get_shares req tid clk db =
     (mkResponse 500 (JMessage "Failed to fetch task shares"), db1)) /\
    (task_id_param tid db = true ->
     ownerOf db tid <> Some (user_id user) ->
     get_shares req tid clk db =
     (mkResponse 403 (JMessage "Access denied"), db1)) /\
    (ownerOf db tid = Some (user_id user) ->
     exists ss,
       get_shares req tid clk db = (mkResponse 200 (JShares ss), db1) /\
       (forall s o,
           In (mkShareWithUser s o) ss <->
           In s (task_shares db) /\ taskId s = tid /\
           match o with
           | Some u => In u (users db1) /\ user_id u = sharedWithId s
           | None => forall u, In u (users db1) -> user_id u <> sharedWithId s
           end) /\
       (forall s, In s (map share ss) <->
                  In s (task_shares db) /\ taskId s = tid) /\
       (NoDup (map user_id (users db1)) ->
        map share ss = filter (fun s => taskId s =? tid) (task_shares db)) /\
       (consistent db ->
        Forall (fun e => exists u, sharedWith e = Some u /\
                                   user_id u = sharedWithId (share e)) ss)) /\
    (int4 tid = true -> task_id_param tid db = true).
Proof.
  intros req tid clk db.
  destruct (currentUser_ok req clk db) as (user & db1 & Hcu & Ht & Hs & _).
  exists user, db1. split; [exact Hcu|].
  assert (Hpp : task_id_param tid db1 = task_id_param tid db).
  { apply task_id_param_same; [now rewrite Ht | exact Hs]. }
  rewrite <- (ownerOf_same_tasks db db1 tid Ht), <- Hpp.
  split; [|split; [|split; [|apply int4_param]]].
  - intros Hp. unfold get_shares, try_catch, bind.
    now rewrite Hcu, (getTaskById_range _ _ Hp).
  - intros Hp Hne.
    destruct (getTaskById_task tid db1 Hp) as (t & Hget & _).
    unfold get_shares, try_catch, bind. rewrite Hcu, Hget.
    now rewrite (not_owner_true _ _ _ user Hget Hne).
  - intros Ho. pose proof (ownerOf_param _ _ _ Ho) as Hp.
    destruct (getTaskById_task tid db1 Hp) as (t & Hget & _).
    apply (not_owner_ownerOf _ _ _ user Hget) in Ho.
    exists (sharesOf tid db1). split; [|split; [|split; [|split]]].
    + unfold get_shares, try_catch, bind.
      now rewrite Hcu, Hget, Ho, (getTaskShares_eq _ _ Hp).
    + intros s o. rewrite In_sharesOf_entry, Hs. tauto.
    + intros s. rewrite In_sharesOf, Hs. tauto.
    + intros Hnd. rewrite map_share_sharesOf, <- Hs.
      rewrite <- (leftJoin_fst_unique (task_shares db1) (users db1)
                                      on_sharedWith) at 2
        by (intros s _; now apply (filter_key_unique user_id)).
      apply (map_fst_filter (fun s => taskId s =? tid)).
    + intros Hc.
      assert (Hc1 : consistent db1).
      { pose proof (currentUser_keeps req clk db Hc) as H1.
        now rewrite Hcu in H1. }
      eapply Forall_impl; [|exact (sharesOf_joined tid db1 Hc1)].
      intros e (u & Hu & Hid & _). now exists u.
Qed.

(** X15: [DELETE /api/tasks/:id/shares/:userId], for a task id and a
    recipient id that are 32-bit integers, answers 403 unless the task found
    is owned by the caller, 404 "Share not found" when the owner asks to
    remove a share that does not exist, and 204 otherwise.  After a 204 the
    share rows of that task and recipient are gone, the others and the
    tasks are as before, and the former recipient, unless it is the owner,
    is answered 403 by [GET /api/tasks/:id].  When the database refuses an
    id as no value of its [integer] columns (the task id in the lookup of
    the task, or either id in the delete statement of the owner), the answer
    is 500 "Failed to remove task share" and nothing is removed. *)
Theorem delete_share_outcome :
  forall req tid swid clk db,
  exists user db1,
    currentUser req clk db = (inr user, db1) /\
    (task_id_param tid db = false ->
     delete_share req tid swid clk db =
     (mkResponse 500 (JMessage "Failed to remove task share"), db1)) /\
    (task_id_param tid db = true ->
     ownerOf db tid <> Some (user_id user) ->
     delete_share req tid swid clk db =
     (mkResponse 403 (JMessage "Access denied"), db1)) /\
    (ownerOf db tid = Some (user_id user) ->
     int4 tid = false \/ int4 swid = false ->
     delete_share req tid swid clk db =
     (mkResponse 500 (JMessage "Failed to remove task share"), db1)) /\
    (ownerOf db tid = Some (user_id user) ->
     int4 tid = true -> int4 swid = true ->
     ~ sharedTo db tid swid ->
     delete_share req tid swid clk db =
     (mkResponse 404 (JMessage "Share not found"), db1)) /\
    (ownerOf db tid = Some (user_id user) ->
     int4 tid = true -> int4 swid = true ->
     sharedTo db tid swid ->
     exists db2,
       delete_share req tid swid clk db = (mkResponse 204 JEmpty, db2) /\
       ~ sharedTo db2 tid swid /\
       tasks db2 = tasks db /\
       (forall s, In s (task_shares db2) <->
                  In s (task_shares db) /\
                  ~ (taskId s = tid /\ sharedWithId s = swid)) /\
       (swid <> user_id user ->
        forall req' clk' user',
          currentUser req' clk' db2 = (inr user', db2) ->
          user_id user' = swid ->
          get_task req' tid clk' db2 =
          (mkResponse 403 (JMessage "Access denied"), db2))) /\
    (int4 tid = true -> task_id_param tid db = true).
Proof.
  intros req tid swid clk db.
  destruct (currentUser_ok req clk db) as (user & db1 & Hcu & Ht & Hs & _).
  exists user, db1. split; [exact Hcu|].
  assert (Hpp : task_id_param tid db1 = task_id_param tid db).
  { apply task_id_param_same; [now rewrite Ht | exact Hs]. }
  assert (Hsh : sharedTo db1 tid swid <-> sharedTo db tid swid).
  { unfold sharedTo. now rewrite Hs. }
  rewrite <- (ownerOf_same_tasks db db1 tid Ht), <- Hpp.
  split; [|split; [|split; [|split; [|split; [|apply int4_param]]]]].
  - intros Hp. unfold delete_share, try_catch, bind.
    now rewrite Hcu, (getTaskById_range _ _ Hp).
  - intros Hp Hne.
    destruct (getTaskById_task tid db1 Hp) as (t & Hget & _).
    unfold delete_share, try_catch, bind. rewrite Hcu, Hget.
    now rewrite (not_owner_true _ _ _ user Hget Hne).
  - intros Ho Hr. pose proof (ownerOf_param _ _ _ Ho) as Hp.
    destruct (getTaskById_task tid db1 Hp) as (t & Hget & _).
    apply (not_owner_ownerOf _ _ _ user Hget) in Ho.
    apply andb_false_iff in Hr.
    unfold delete_share, try_catch, bind.
    now rewrite Hcu, Hget, Ho, (removeTaskShare_range _ _ _ Hr).
  - intros Ho Hr1 Hr2 Hn. pose proof (ownerOf_param _ _ _ Ho) as Hp.
    destruct (getTaskById_task tid db1 Hp) as (t & Hget & _).
    assert (Hr : int4 tid && int4 swid = true) by now rewrite Hr1, Hr2.
    destruct (removeTaskShare_run tid swid db1 Hr)
      as (b & db2 & Hrm & Hb & Hgone & Hrest & Htasks & Husers & Hsame).
    apply (not_owner_ownerOf _ _ _ user Hget) in Ho.
    unfold delete_share, try_catch, bind. rewrite Hcu, Hget, Ho, Hrm.
    destruct b; [exfalso; apply Hn, Hsh, Hb; reflexivity|].
    simpl. rewrite Hsame; [reflexivity|]. now rewrite Hsh.
  - intros Ho Hr1 Hr2 Hy. pose proof Ho as Ho'.
    pose proof (ownerOf_param _ _ _ Ho) as Hp.
    destruct (getTaskById_task tid db1 Hp) as (t & Hget & _).
    assert (Hr : int4 tid && int4 swid = true) by now rewrite Hr1, Hr2.
    destruct (removeTaskShare_run tid swid db1 Hr)
      as (b & db2 & Hrm & Hb & Hgone & Hrest & Htasks & Husers & Hsame).
    apply (not_owner_ownerOf _ _ _ user Hget) in Ho.
    exists db2. split; [|split; [exact Hgone|split; [congruence|split]]].
    + unfold delete_share, try_catch, bind. rewrite Hcu, Hget, Ho, Hrm.
      destruct b; [reflexivity|].
      apply Hsh, Hb in Hy. discriminate.
    + intros s. rewrite Hrest, Hs. tauto.
    + intros Hne req' clk' user' Hcu' Hu'.
      pose proof (int4_param tid db2 Hr1) as Hp2.
      destruct (get_task_run req' tid clk' db2 user' db2 Hcu' Hp2)
        as (t2 & Hget2 & Hrun2).
      destruct (getTaskById_task tid db2 Hp2) as (t2' & Hget2' & Hspec).
      rewrite Hget2 in Hget2'. inversion Hget2'; subst t2'.
      rewrite Hrun2. destruct t2 as [tw|].
      * destruct Hspec as (Htask & _ & Hshares).
        assert (Hacc : hasAccess tw user' = false).
        { unfold hasAccess. rewrite Hshares, Htask. apply orb_false_iff.
          split.
          - rewrite ownerOf_eq in Ho'. rewrite Htasks.
            destruct (hd_error _) as [row|]; [|reflexivity].
            simpl in Ho'. inversion Ho'. apply Z.eqb_neq. congruence.
          - apply not_true_iff_false. intros Hex.
            apply sharedTo_existsb in Hex. rewrite Hu' in Hex. tauto. }
        now rewrite Hacc.
      * exfalso. rewrite ownerOf_eq, <- Htasks, Hspec in Ho'. discriminate.
Qed.

(** ** What a caller who is not the owner can change *)

Lemma deleteTask_other_shares tid userId db s :
  In s (task_shares db) -> taskId s <> tid ->
  In s (task_shares (snd (deleteTask tid userId db))).
Proof.
  intros Hin Hne. destruct (int4 tid) eqn:Hr.
  2:{ now rewrite (deleteTask_range _ _ _ Hr). }
  rewrite (deleteTask_eq _ _ _ Hr). simpl.
  apply filter_In. split; [exact Hin|]. apply negb_true_iff.
  apply not_true_iff_false. intros Hex.
  apply existsb_exists in Hex as (t & Ht & Hid).
  apply filter_In in Ht as [_ Ht]. apply id_and_owner_true in Ht as [Ht _].
  apply Z.eqb_eq in Hid. congruence.
Qed.

Lemma reads_leave_store req clk db :
  forall tid search,
    snd (get_user req clk db) = snd (currentUser req clk db) /\
    snd (get_tasks req search clk db) = snd (currentUser req clk db) /\
    snd (get_task req tid clk db) = snd (currentUser req clk db) /\
    snd (get_shares req tid clk db) = snd (currentUser req clk db).
Proof.
  intros tid search.
  destruct (currentUser_ok req clk db) as (user & db1 & Hcu & _).
  rewrite Hcu. simpl. repeat split.
  - unfold get_user, try_catch, bind. now rewrite Hcu.
  - unfold get_tasks, try_catch, bind.
    rewrite Hcu, getTasksByUserId_eq, getUserSharedTasks_eq. reflexivity.
  - destruct (getTaskById_cases tid db1) as [(Hp & _) | (_ & Hget)].
    + destruct (get_task_run req tid clk db user db1 Hcu Hp) as (t & _ & ->).
      reflexivity.
    + unfold get_task, try_catch, bind. now rewrite Hcu, Hget.
  - unfold get_shares, try_catch, bind. rewrite Hcu.
    destruct (getTaskById_cases tid db1)
      as [(Hp & t & Hget & _) | (_ & Hget)]; rewrite Hget; [|reflexivity].
    destruct (not_owner t user); [reflexivity|].
    now rewrite (getTaskShares_eq _ _ Hp).
Qed.

Lemma same_task_refl tid db db1 :
  tasks db1 = tasks db -> task_shares db1 = task_shares db ->
  same_task tid db db1.
Proof. intros Ht Hs. unfold same_task. rewrite Ht, Hs. split; tauto. Qed.

(** X16: whatever route a caller uses and whatever it sends, a task the
    caller does not own is out of its reach: the rows of that task are still
    in the task table afterwards, unchanged, and the share rows of that task
    are exactly what they were. *)
Theorem non_owner_cannot_write :
  forall r clk req db tid,
  exists user db1,
    currentUser req clk db = (inr user, db1) /\
    (~ owns db tid (user_id user) ->
     same_task tid db (snd (route_handler r clk req db))).
Proof.
  intros r clk req db tid.
  destruct (currentUser_ok req clk db) as (user & db1 & Hcu & Ht & Hs & _).
  exists user, db1. split; [exact Hcu|]. intros Hn.
  assert (Hn1 : ~ owns db1 tid (user_id user)).
  { unfold owns in *. now rewrite Ht. }
  assert (Hread : same_task tid db (snd (currentUser req clk db))).
  { rewrite Hcu. now apply same_task_refl. }
  destruct (reads_leave_store req clk db tid None) as (Hr1 & _ & Hr3 & Hr4).
  destruct r as [| |search|tid'|body|tid' body|tid'|body|tid'|tid' swid];
    simpl.
  - now apply same_task_refl.
  - now rewrite Hr1.
  - destruct (reads_leave_store req clk db tid search) as (_ & -> & _).
    exact Hread.
  - destruct (reads_leave_store req clk db tid' None) as (_ & _ & -> & _).
    exact Hread.
  - (* POST /api/tasks *)
    unfold post_task, try_catch, bind, parse, ret, throw. rewrite Hcu.
    destruct body as [b|]; [|now apply same_task_refl].
    unfold createTask.
    destruct (existsb _ (users db1)); simpl; split; simpl;
      try (intros t Hin _; rewrite Ht; try apply in_or_app; auto);
      try (intros s _; rewrite Hs; tauto).
  - (* PUT /api/tasks/:id *)
    unfold put_task, try_catch, bind, parse, ret, throw. rewrite Hcu.
    destruct body as [updates|]; [|now apply same_task_refl].
    rewrite updateTask_eq.
    destruct (task_id_param tid' db1); [|now apply same_task_refl].
    destruct (filter (id_and_owner tid' (user_id user)) (tasks db1))
      as [|t0 rest] eqn:E; simpl.
    { now apply same_task_refl. }
    split; simpl; [|intros s _; rewrite Hs; tauto].
    intros t Hin Hid. apply in_map_iff. exists t. rewrite Ht.
    split; [|exact Hin].
    destruct (id_and_owner tid' (user_id user) t) eqn:Em; [|reflexivity].
    exfalso. apply Hn. exists t. apply id_and_owner_true in Em.
    destruct Em as [_ Em]. auto.
  - (* DELETE /api/tasks/:id *)
    destruct (int4 tid') eqn:Hr'.
    2:{ unfold delete_task, try_catch, bind.
        rewrite Hcu, (deleteTask_range _ _ _ Hr').
        now apply same_task_refl. }
    destruct (deleteTask_run tid' (user_id user) db1 Hr')
      as (b & db2 & Hdel & Hb & Htasks & _ & Hsub & _ & _).
    assert (Hsnd : snd (delete_task req tid' clk db) = db2).
    { unfold delete_task, try_catch, bind. rewrite Hcu, Hdel.
      now destruct b. }
    rewrite Hsnd. split.
    + intros t Hin Hid. apply Htasks. rewrite Ht. split; [exact Hin|].
      intros [_ Hown]. apply Hn. now exists t.
    + intros s Hid. split.
      * intros Hin. rewrite <- Hs. now apply Hsub.
      * intros Hin. rewrite <- Hs in Hin.
        destruct (Z.eq_dec tid' tid) as [->|Hne].
        -- assert (b = false).
           { destruct b; [|reflexivity]. exfalso. apply Hn1. now apply Hb. }
           subst b.
           destruct (deleteTask_run tid (user_id user) db1 Hr')
             as (b' & db2' & Hdel' & _ & _ & _ & _ & _ & Hsame).
           rewrite Hdel in Hdel'. inversion Hdel'; subst b' db2'.
           now rewrite Hsame.
        -- replace db2 with (snd (deleteTask tid' (user_id user) db1))
             by now rewrite Hdel.
           apply deleteTask_other_shares; [exact Hin | congruence].
  - (* POST /api/tasks/share *)
    destruct body as [sd|].
    2:{ unfold post_share, try_catch, bind, parse, throw. rewrite Hcu.
        now apply same_task_refl. }
    unfold post_share, try_catch, bind, parse, ret. rewrite Hcu.
    destruct (getTaskById_cases (req_taskId sd) db1)
      as [(Hp & t & Hget & _) | (_ & Hget)]; rewrite Hget;
      [|now apply same_task_refl].
    destruct (not_owner t user) eqn:Hno; [now apply same_task_refl|].
    apply (not_owner_ownerOf _ _ _ user Hget) in Hno.
    apply ownerOf_owns in Hno.
    assert (Hne : req_taskId sd <> tid)
      by (intros E; rewrite E in Hno; contradiction).
    rewrite getUserByEmail_eq.
    destruct (hd_error (filter _ (users db1))) as [rcp|].
    + rewrite (getTaskShares_eq _ _ Hp).
      destruct (existsb _ (sharesOf (req_taskId sd) db1));
        [now apply same_task_refl|].
      unfold shareTask.
      destruct (existsb _ (tasks db1) && existsb _ (users db1)); simpl;
        (split; simpl; [intros x Hin _; now rewrite Ht|]);
        intros s Hid; rewrite ?in_app_iff, Hs; simpl; [|tauto].
      split; [intros [H|[<-|[]]]; [exact H | simpl in Hid; congruence]
             | auto].
    + unfold createUser at 1.
      destruct (existsb _ (users db1)); [now apply same_task_refl|].
      rewrite getTaskShares_eq
        by (rewrite <- Hp; now apply task_id_param_same).
      destruct (existsb _ (sharesOf (req_taskId sd) _));
        [now apply same_task_refl|].
      unfold shareTask.
      match goal with
      | |- context [if ?c then _ else _] => destruct c
      end; simpl;
        (split; simpl; [intros x Hin _; now rewrite Ht|]);
        intros s Hid; rewrite ?in_app_iff, Hs; simpl; [|tauto].
      split; [intros [H|[<-|[]]]; [exact H | simpl in Hid; congruence]
             | auto].
  - destruct (reads_leave_store req clk db tid' None) as (_ & _ & _ & ->).
    exact Hread.
  - (* DELETE /api/tasks/:id/shares/:userId *)
    unfold delete_share, try_catch, bind. rewrite Hcu.
    destruct (getTaskById_cases tid' db1)
      as [(Hp & t & Hget & _) | (_ & Hget)]; rewrite Hget;
      [|now apply same_task_refl].
    destruct (not_owner t user) eqn:Hno; [now apply same_task_refl|].
    apply (not_owner_ownerOf _ _ _ user Hget) in Hno.
    apply ownerOf_owns in Hno.
    assert (Hne : tid' <> tid)
      by (intros E; rewrite E in Hno; contradiction).
    destruct (int4 tid' && int4 swid) eqn:Hr'.
    2:{ rewrite (removeTaskShare_range _ _ _ Hr').
        now apply same_task_refl. }
    destruct (removeTaskShare_run tid' swid db1 Hr')
      as (b & db2 & Hrm & _ & _ & Hrest & Htasks & _ & _).
    rewrite Hrm.
    assert (Hst : same_task tid db db2).
    { split.
      - intros x Hin _. now rewrite Htasks, Ht.
      - intros s Hid. rewrite Hrest, Hs. split; [tauto|].
        intros Hin. split; [exact Hin|]. intros [H _]. congruence. }
    now destruct b.
Qed.

(** X17: the four reading routes ([GET /api/user], [GET /api/tasks],
    [GET /api/tasks/:id], [GET /api/tasks/:id/shares]) leave the store as
    [getOrCreateUser] left it: tasks and shares are untouched, and the only
    row a read can add is the caller's own user row, on first sight of the
    uid. *)
Theorem reads_write_only_the_caller :
  forall req clk db tid search,
    snd (get_user req clk db) = snd (currentUser req clk db) /\
    snd (get_tasks req search clk db) = snd (currentUser req clk db) /\
    snd (get_task req tid clk db) = snd (currentUser req clk db) /\
    snd (get_shares req tid clk db) = snd (currentUser req clk db) /\
    tasks (snd (currentUser req clk db)) = tasks db /\
    task_shares (snd (currentUser req clk db)) = task_shares db /\
    (snd (currentUser req clk db) = db \/
     exists u, users (snd (currentUser req clk db)) = users db ++ [u] /\
               firebaseUid u = uid req /\
               ~ In (uid req) (map firebaseUid (users db))).
Proof.
  intros req clk db tid search.
  destruct (reads_leave_store req clk db tid search) as (H1 & H2 & H3 & H4).
  repeat (split; [assumption|]).
  unfold currentUser.
  destruct (getOrCreateUser_cases (uid req) (auth_email req) (name req) clk db)
    as [(u & _ & ->) | (Hnew & ->)]; simpl.
  - repeat split. now left.
  - repeat split. right. eexists. repeat split. exact Hnew.
Qed.

(** ** A first sign-in *)

Lemma owned_where_owner userId search t :
  sql_true (owned_where userId search t) = true -> ownerId t = userId.
Proof.
  unfold owned_where. destruct (truthy search).
  - cbv zeta. destruct (ownerId t =? userId) eqn:E.
    + intros _. now apply Z.eqb_eq.
    + match goal with
      | |- context [sql_and _ ?x] => destruct x as [[|]|]
      end; discriminate.
  - simpl. destruct (ownerId t =? userId) eqn:E; [|discriminate].
    intros _. now apply Z.eqb_eq.
Qed.

Lemma getTasksByUserId_none userId search db :
  (forall t, In t (tasks db) -> ownerId t <> userId) ->
  getTasksByUserId userId search db = (inr [], db).
Proof.
  intros H. rewrite getTasksByUserId_eq.
  rewrite (filter_leftJoin_nil
             (fun t => sql_true (owned_where userId search t))).
  - reflexivity.
  - intros t Hin. apply not_true_iff_false. intros Ht.
    apply owned_where_owner in Ht. exact (H t Hin Ht).
Qed.

Lemma getUserSharedTasks_none userId db :
  (forall s, In s (task_shares db) -> sharedWithId s <> userId) ->
  getUserSharedTasks userId db = (inr [], db).
Proof.
  intros H. rewrite getUserSharedTasks_eq.
  rewrite (filter_leftJoin_nil (fun st => sharedWithId (fst st) =? userId)).
  - reflexivity.
  - intros [s ot] Hin. simpl. apply Z.eqb_neq. apply H.
    apply (In_leftJoin_fst (task_shares db) (tasks db) on_task).
    apply in_map_iff. exists (s, ot). now split.
Qed.

(** X18: in a store that satisfies the schema constraints, a caller whose
    uid has not been seen gets a new user row with a fresh identifier, and
    [GET /api/tasks] answers 200 with the empty list, whatever shares were
    recorded for the caller's e-mail address before: the user is looked up
    by uid, and a recipient provisioned by a share has a uid of its own. *)
Theorem first_sign_in_lists_nothing :
  forall req search clk db,
    consistent db ->
    ~ In (uid req) (map firebaseUid (users db)) ->
    exists user,
      get_tasks req search clk db =
      (mkResponse 200 (JTasks []),
       set_users db (users db ++ [user]) (users_id_seq db + 1)) /\
      user_id user = users_id_seq db /\
      firebaseUid user = uid req /\ email user = auth_email req.
Proof.
  intros req search clk db Hc Hnew.
  destruct (getOrCreateUser_cases (uid req) (auth_email req) (name req) clk db)
    as [(u & Hu & _) | (_ & Hrun)].
  { exfalso. apply hd_error_filter_In in Hu as [Hin Heq].
    apply String.eqb_eq in Heq. apply Hnew. rewrite <- Heq. now apply in_map. }
  set (user := mkUser (users_id_seq db) (uid req) (auth_email req)
                      (or_null (name req)) (db_now clk)) in *.
  set (db1 := set_users db (users db ++ [user]) (users_id_seq db + 1)) in *.
  assert (Hbelow : forall k, In k (map user_id (users db)) ->
                             k <> users_id_seq db).
  { intros k Hk. apply in_map_iff in Hk as (u & Hu & Hin).
    pose proof (user_seq db Hc) as Hseq. rewrite Forall_forall in Hseq.
    specialize (Hseq u Hin). simpl in Hseq. lia. }
  assert (Ho : getTasksByUserId (users_id_seq db) search db1 = (inr [], db1)).
  { apply getTasksByUserId_none. simpl. intros t Ht.
    pose proof (task_owner_fk db Hc) as Hfk. rewrite Forall_forall in Hfk.
    apply Hbelow. now apply Hfk. }
  assert (Hs : getUserSharedTasks (users_id_seq db) db1 = (inr [], db1)).
  { apply getUserSharedTasks_none. simpl. intros s Hs.
    pose proof (share_user_fk db Hc) as Hfk. rewrite Forall_forall in Hfk.
    apply Hbelow. now apply Hfk. }
  exists user. split; [|repeat split].
  unfold get_tasks, try_catch, bind, currentUser. rewrite Hrun.
  cbv beta iota. change (user_id user) with (users_id_seq db).
  now rewrite Ho, Hs.
Qed.

Lemma first_sign_in_lists_nothing_witness :
  res_status (fst (post_share req_alice (Some share_with_carol) clock0
                              db_unshared)) = 201 /\
  exists user,
    get_tasks req_carol None clock1
      (snd (post_share req_alice (Some share_with_carol) clock0 db_unshared)) =
    (mkResponse 200 (JTasks []),
     set_users
       (snd (post_share req_alice (Some share_with_carol) clock0 db_unshared))
       (users (snd (post_share req_alice (Some share_with_carol) clock0
                               db_unshared)) ++ [user])
       (users_id_seq (snd (post_share req_alice (Some share_with_carol) clock0
                                      db_unshared)) + 1)) /\
    user_id user =
    users_id_seq (snd (post_share req_alice (Some share_with_carol) clock0
                                  db_unshared)) /\
    firebaseUid user = uid req_carol /\ email user = auth_email req_carol.
Proof.
  split; [reflexivity|].
  apply (first_sign_in_lists_nothing req_carol None clock1
           (snd (post_share req_alice (Some share_with_carol) clock0
                            db_unshared))).
  - apply (route_handler_consistent (POST_share (Some share_with_carol))
             clock0 req_alice db_unshared db_unshared_consistent).
  - vm_compute. intuition discriminate.
Defined.

(** ** Searching, continued *)

(** X19: on ASCII text, that is when the search term and the titles and
    descriptions of the owner's tasks are in ASCII, for a non-empty search
    term without [%], [_] and backslash, [getTasksByUserId] returns, newest
    first, the tasks of the owner whose title, or description when there
    is one, contains the term with the case of the letters A to Z ignored,
    and no other; each such task once, user identifiers being a key.
    Nothing is stated for text with other letters, where the database
    folds case by its locale. *)
Theorem search_plain_term_exact :
  forall userId term db,
    term <> "" -> plain term = true ->
    ascii_text term = true ->
    (forall t, In t (tasks db) -> ownerId t = userId -> ascii_task t = true) ->
    exists result,
      getTasksByUserId userId (Some term) db = (inr result, db) /\
      newest_first result /\
      (forall t, In (Some t) (map task result) <->
                 In t (tasks db) /\ ownerId t = userId /\
                 (Contains_ci (list_ascii_of_string term)
                              (list_ascii_of_string (title t)) \/
                  exists d, description t = Some d /\
                            Contains_ci (list_ascii_of_string term)
                                        (list_ascii_of_string d))) /\
      (NoDup (map user_id (users db)) ->
       Permutation (map task result)
                   (map Some (filter (search_hit userId term) (tasks db)))).
Proof.
  intros userId term db Hne Hp _ _.
  destruct (getTasksByUserId_plain_search userId (Some term) db)
    as (result & Hrun & Hsorted & _ & Hhit).
  exists result. split; [exact Hrun|]. split; [exact Hsorted|]. split.
  - intros t. rewrite (Hhit term eq_refl Hne Hp t).
    unfold search_hit. rewrite andb_true_iff, orb_true_iff, Z.eqb_eq.
    unfold contains_ci. rewrite contains_ci_spec.
    destruct (description t) as [d|].
    + rewrite contains_ci_spec. split.
      * intros (Hin & Ho & [H|H]); repeat split; auto.
        right. now exists d.
      * intros (Hin & Ho & [H|(d' & Hd & H)]); repeat split; auto.
        inversion Hd; subst. auto.
    + split.
      * intros (Hin & Ho & [H|H]); [|discriminate]. repeat split; auto.
      * intros (Hin & Ho & [H|(d' & Hd & H)]); [|discriminate].
        repeat split; auto.
  - intros Hpk.
    destruct (getTasksByUserId_perm userId (Some term) db Hpk)
      as (result' & Hrun' & Hperm).
    rewrite Hrun in Hrun'. inversion Hrun'; subst result'.
    erewrite filter_ext; [exact Hperm|].
    intros t. symmetry. now apply owned_where_plain.
Qed.

Lemma search_plain_term_exact_witness :
  exists result,
    getTasksByUserId 1 (Some "REPORT") db_two_shares
    = (inr result, db_two_shares) /\
    newest_first result /\
    (forall t, In (Some t) (map task result) <->
               In t (tasks db_two_shares) /\ ownerId t = 1 /\
               (Contains_ci (list_ascii_of_string "REPORT")
                            (list_ascii_of_string (title t)) \/
                exists d, description t = Some d /\
                          Contains_ci (list_ascii_of_string "REPORT")
                                      (list_ascii_of_string d))) /\
    (NoDup (map user_id (users db_two_shares)) ->
     Permutation (map task result)
                 (map Some (filter (search_hit 1 "REPORT")
                                   (tasks db_two_shares)))).
Proof.
  apply (search_plain_term_exact 1 "REPORT" db_two_shares).
  - discriminate.
  - reflexivity.
  - reflexivity.
  - intros t Hin _. simpl in Hin.
    repeat (destruct Hin as [<-|Hin]; [reflexivity|]). contradiction.
Defined.

Lemma like_percents p t :
  p <> [] -> forallb (Ascii.eqb "%"%char) p = true -> like_match p t = true.
Proof.
  induction p as [|c p IH]; intros Hne Hall; [congruence|].
  cbn [forallb] in Hall. apply andb_true_iff in Hall as [Hc Hall].
  apply Ascii.eqb_eq in Hc. subst c.
  destruct p as [|c' p'].
  - apply like_percent_only.
  - rewrite like_percent, IH; [reflexivity | discriminate | exact Hall].
Qed.

(** X20: a search term made of [%] signs only filters nothing:
    [getTasksByUserId] returns for it what it returns without a search term,
    all the tasks of the owner. *)
Theorem search_percent_filters_nothing :
  forall userId term db,
    term <> "" ->
    forallb (Ascii.eqb "%"%char) (list_ascii_of_string term) = true ->
    getTasksByUserId userId (Some term) db = getTasksByUserId userId None db.
Proof.
  intros userId term db Hne Hall.
  rewrite !getTasksByUserId_eq. do 3 f_equal. f_equal.
  apply filter_ext. intros [t o]. simpl.
  unfold owned_where.
  assert (Ht : truthy (Some term) = true).
  { simpl. apply negb_true_iff. now apply String.eqb_neq. }
  rewrite Ht. cbv zeta. unfold or_default, ilike at 1.
  rewrite pattern_chars, like_percents.
  - match goal with
    | |- context [sql_or (Some true) ?x] => destruct x as [[|]|]
    end; now destruct (ownerId t =? userId).
  - discriminate.
  - cbn [forallb]. rewrite Ascii.eqb_refl, forallb_app, Hall. reflexivity.
Qed.

Lemma search_percent_filters_nothing_witness :
  getTasksByUserId 1 (Some "%%") db_two_shares =
  getTasksByUserId 1 None db_two_shares.
Proof.
  apply (search_percent_filters_nothing 1 "%%" db_two_shares).
  - discriminate.
  - reflexivity.
Defined.

(** ** The middleware *)

Lemma substring_all s : substring 0 (String.length s) s = s.
Proof. induction s as [|c s IH]; simpl; [reflexivity | now rewrite IH]. Qed.

Lemma substring_split n : forall s,
  (n <= String.length s)%nat ->
  s = (substring 0 n s ++ substring n (String.length s - n) s)%string.
Proof.
  induction n as [|n IH]; intros s Hn.
  - rewrite Nat.sub_0_r, substring_all. now destruct s.
  - destruct s as [|c s]; simpl in *; [lia|].
    f_equal. apply IH. lia.
Qed.

Lemma prefix_length s1 : forall s2,
  prefix s1 s2 = true -> (String.length s1 <= String.length s2)%nat.
Proof.
  induction s1 as [|a s1 IH]; intros s2 H; simpl; [lia|].
  destruct s2 as [|b s2]; simpl in *; [discriminate|].
  destruct (ascii_dec a b); [|discriminate]. apply IH in H. lia.
Qed.

Lemma bearer_header h :
  prefix "Bearer " h = true <-> exists tok, h = ("Bearer " ++ tok)%string.
Proof.
  split.
  - intros H. exists (bearerToken h). unfold bearerToken.
    pose proof (prefix_length _ _ H) as Hlen. simpl in Hlen.
    rewrite (substring_split 7 h Hlen) at 1. f_equal.
    now apply prefix_correct in H.
  - intros (tok & ->). apply prefix_correct. simpl.
    now destruct tok.
Qed.

Lemma bearerToken_app tok : bearerToken ("Bearer " ++ tok) = tok.
Proof.
  unfold bearerToken. simpl. rewrite Nat.sub_0_r. apply substring_all.
Qed.

Lemma answers_ret S r : In (res_status r) S -> answers S (ret r).
Proof. intros H db r' db' E. inversion E; subst. exact H. Qed.

Lemma answers_bind {A} S (c : M A) (k : A -> M Response) :
  (forall a, answers S (k a)) -> answers S (bind c k).
Proof.
  intros H db r db'. unfold bind.
  destruct (c db) as [[e|a] d]; [discriminate|]. apply H.
Qed.

Lemma try_catch_status S body handler db :
  answers S body -> (forall e, In (res_status (handler e)) S) ->
  In (res_status (fst (try_catch body handler db))) S.
Proof.
  intros Hb Hh. unfold try_catch.
  destruct (body db) as [[e|r] d] eqn:E; simpl; [apply Hh|].
  exact (Hb db r d E).
Qed.

Ltac answers_step :=
  first
    [ apply answers_ret; simpl; auto 10
    | apply answers_bind; intros
    | match goal with
      | |- answers _ (match ?x with _ => _ end) => destruct x
      | |- answers _ (if ?b then _ else _) => destruct b
      | |- answers _ (let _ := _ in _) => cbv zeta
      end ].

Lemma route_eq_health r : r = GET_health \/ r <> GET_health.
Proof. destruct r; (now left) || (right; discriminate). Qed.

(** No route answers 401: that status is the middleware's. *)
Lemma route_handler_status r clk user db :
  In (res_status (fst (route_handler r clk user db)))
     [200; 201; 204; 400; 403; 404; 500].
Proof.
  destruct r; cbn [route_handler];
    [rewrite get_health_eq; simpl; auto|..];
    unfold get_user, get_tasks, get_task, post_task, put_task, delete_task,
      post_share, get_shares, delete_share;
    apply try_catch_status;
    try (repeat answers_step);
    try (intros e; destruct e; simpl; auto 10).
  destruct (String.eqb message _); simpl; auto 10.
Qed.

(** X21: every route but the health check is behind the middleware: a
    request for one of them reaches its route exactly when its
    [Authorization] header is ["Bearer "] followed by a token the verifier
    accepts, and the route then runs for the user of that token, the token
    being the header from its eighth character on.  Every other request for
    them is answered 401, no route ever answers 401 itself, and a request
    answered 401 leaves the store untouched.  [GET /api/health] is
    registered before the middleware and without it: whatever its header,
    with or without a token, it is answered by the health check, which
    reports 200 as long as the store answers, never 401, and writes
    nothing. *)
Theorem bearer_token_gate :
  forall verify req db,
    (route req = GET_health ->
     registerRoutes verify req db = get_health db /\
     get_health db =
     (mkResponse 200 (JHealth "healthy" "connected" None), db)) /\
    (route req <> GET_health ->
     (forall tok,
         authorization req = Some ("Bearer " ++ tok)%string ->
         registerRoutes verify req db =
         match verify tok with
         | Some user => route_handler (route req) (clock req) user db
         | None => (mkResponse 401 (JMessage "Invalid token"), db)
         end) /\
     (res_status (fst (registerRoutes verify req db)) = 401 <->
      ~ exists tok user,
          authorization req = Some ("Bearer " ++ tok)%string /\
          verify tok = Some user)) /\
    (res_status (fst (registerRoutes verify req db)) = 401 ->
     route req <> GET_health /\
     snd (registerRoutes verify req db) = db).
Proof.
  intros verify req db.
  destruct (route_eq_health (route req)) as [Hh|Hh].
  { split; [|split].
    - intros _. unfold registerRoutes. rewrite Hh. now rewrite get_health_eq.
    - intros Hn. now elim Hn.
    - unfold registerRoutes. rewrite Hh, get_health_eq. discriminate. }
  assert (Hreg : registerRoutes verify req db =
                 authenticateUser verify (authorization req)
                   (route_handler (route req) (clock req)) db).
  { unfold registerRoutes. destruct (route req); [now elim Hh|..]; reflexivity. }
  assert (Hgate : forall tok,
             authorization req = Some ("Bearer " ++ tok)%string ->
             registerRoutes verify req db =
             match verify tok with
             | Some user => route_handler (route req) (clock req) user db
             | None => (mkResponse 401 (JMessage "Invalid token"), db)
             end).
  { intros tok Hhd. rewrite Hreg. unfold authenticateUser. rewrite Hhd.
    assert (Hp : prefix "Bearer " ("Bearer " ++ tok) = true)
      by (apply bearer_header; now exists tok).
    now rewrite Hp, bearerToken_app. }
  assert (Hno : forall user,
             res_status (fst (route_handler (route req) (clock req) user db))
             <> 401).
  { intros user H.
    pose proof (route_handler_status (route req) (clock req) user db) as Hs.
    rewrite H in Hs. simpl in Hs. intuition discriminate. }
  assert (Hmain :
    (res_status (fst (registerRoutes verify req db)) = 401 <->
     ~ exists tok user,
         authorization req = Some ("Bearer " ++ tok)%string /\
         verify tok = Some user) /\
    (res_status (fst (registerRoutes verify req db)) = 401 ->
     snd (registerRoutes verify req db) = db)).
  { destruct (authorization req) as [h|] eqn:Eh.
    - destruct (prefix "Bearer " h) eqn:Ep.
      + apply bearer_header in Ep as (tok & ->).
        rewrite (Hgate tok eq_refl).
        destruct (verify tok) as [user|] eqn:Ev.
        * split; [split|].
          -- intros H. exfalso. exact (Hno user H).
          -- intros Hn. exfalso. apply Hn. now exists tok, user.
          -- intros H. exfalso. exact (Hno user H).
        * split; [split|]; try reflexivity.
          intros _ (tok' & user & Ht & Hv).
          inversion Ht as [Heq].
          assert (tok' = tok).
          { rewrite <- (bearerToken_app tok'), <- (bearerToken_app tok).
            simpl. now rewrite Heq. }
          subst tok'. congruence.
      + rewrite Hreg. unfold authenticateUser. rewrite Ep. simpl.
        split; [split|]; try reflexivity.
        intros _ (tok & user & Ht & _).
        assert (Hp : prefix "Bearer " h = true)
          by (apply bearer_header; exists tok; now inversion Ht).
        congruence.
    - rewrite Hreg. unfold authenticateUser. simpl.
      split; [split|]; try reflexivity.
      intros _ (tok & user & Ht & _). discriminate. }
  destruct Hmain as [Hiff Hsnd].
  split; [intros E; now elim Hh|]. split.
  - intros _. split; [exact Hgate | exact Hiff].
  - intros H. split; [exact Hh | now apply Hsnd].
Qed.

(** ** The list of tasks shared to a user *)

Lemma on_owner_opt_unique db a :
  NoDup (map user_id (users db)) ->
  (List.length (filter (on_owner_opt a) (users db)) <= 1)%nat.
Proof.
  intros Hpk. unfold on_owner_opt. destruct (snd a) as [t|].
  - now apply (filter_key_unique user_id).
  - clear Hpk. induction (users db); simpl; [lia | assumption].
Qed.

(** X22: [getUserSharedTasks] lists, newest task first, the tasks some
    share row grants to the user, every entry with an empty [shares] list
    whatever shares the task has; in a store that satisfies the schema
    constraints the list has one entry for each share row addressed to the
    user. *)
Theorem shared_list_shape :
  forall userId db,
  exists result,
    getUserSharedTasks userId db = (inr result, db) /\
    Forall (fun e => shares e = []) result /\
    newest_first result /\
    (forall t, In (Some t) (map task result) <->
               In t (tasks db) /\ sharedTo db (id t) userId) /\
    (consistent db ->
     List.length result =
     List.length (filter (fun s => sharedWithId s =? userId) (task_shares db))).
Proof.
  intros userId db.
  destruct (getUserSharedTasks_spec userId db)
    as (result & Hrun & Hin & Hsh & Hsorted).
  exists result. split; [exact Hrun|].
  split; [now apply Forall_forall|]. split; [exact Hsorted|].
  split; [exact Hin|].
  intros Hc. rewrite getUserSharedTasks_eq in Hrun.
  inversion Hrun; subst result; clear Hrun.
  rewrite length_map.
  rewrite (Permutation_length (orderByDesc_perm _ _)).
  rewrite <- (length_map fst).
  rewrite (map_fst_filter (fun st => sharedWithId (fst st) =? userId)).
  rewrite leftJoin_fst_unique
    by (intros a _; apply on_owner_opt_unique, (user_pk db Hc)).
  rewrite <- (length_map fst).
  rewrite (map_fst_filter (fun s => sharedWithId s =? userId)).
  rewrite leftJoin_fst_unique; [reflexivity|].
  intros s _. apply (filter_key_unique id). apply (task_pk db Hc).
Qed.

(** ** Provisioning a recipient *)

(** X23: in a store that satisfies the schema constraints, when the owner
    shares a task with an address no user has, and the synthetic uid
    ["placeholder_<clock>_<address>"] is free, the answer is 201 and exactly
    two rows are written: a user with that uid, that address, no name and
    the next user identifier, and a share of the task to that user with the
    permission asked. *)
Theorem post_share_provisions_recipient :
  forall req sd clk db user,
    consistent db ->
    hd_error (filter (fun u => String.eqb (firebaseUid u) (uid req)) (users db))
    = Some user ->
    ownerOf db (req_taskId sd) = Some (user_id user) ->
    ~ In (req_email sd) (map email (users db)) ->
    ~ In (placeholderUid clk (req_email sd)) (map firebaseUid (users db)) ->
    post_share req (Some sd) clk db =
    (mkResponse 201
       (JShare (mkTaskShare (task_shares_id_seq db) (req_taskId sd)
                            (users_id_seq db) (req_permission sd)
                            (db_now clk))),
     mkDB (users db ++ [mkUser (users_id_seq db)
                               (placeholderUid clk (req_email sd))
                               (req_email sd) None (db_now clk)])
          (tasks db)
          (task_shares db ++ [mkTaskShare (task_shares_id_seq db)
                                          (req_taskId sd) (users_id_seq db)
                                          (req_permission sd) (db_now clk)])
          (users_id_seq db + 1) (tasks_id_seq db)
          (task_shares_id_seq db + 1)).
Proof.
  intros req sd clk db user Hc Hu Ho Hmail Hph.
  pose proof Ho as Hown. apply ownerOf_owns in Hown.
  destruct Hown as (t0 & Hin0 & Hid0 & _).
  unfold post_share, try_catch, bind, parse, ret.
  rewrite (currentUser_found _ _ _ _ Hu).
  pose proof (ownerOf_param _ _ _ Ho) as Hpar.
  destruct (getTaskById_task (req_taskId sd) db Hpar) as (t & Hget & _).
  rewrite Hget.
  apply (not_owner_ownerOf _ _ _ user Hget) in Ho. rewrite Ho.
  rewrite getUserByEmail_eq.
  assert (Hf : filter (fun u => String.eqb (email u) (req_email sd)) (users db)
               = []).
  { apply filter_nil_existsb. apply not_true_iff_false. intros Hex.
    apply existsb_exists in Hex as (u & Hin & Heq).
    apply String.eqb_eq in Heq. apply Hmail. rewrite <- Heq. now apply in_map. }
  rewrite Hf. cbn [hd_error].
  unfold createUser. cbn [iu_firebaseUid iu_email iu_displayName].
  assert (Hq : existsb (fun u => String.eqb (firebaseUid u)
                                   (placeholderUid clk (req_email sd)))
                       (users db) = false).
  { apply not_true_iff_false. intros Hex.
    apply existsb_exists in Hex as (u & Hin & Heq).
    apply String.eqb_eq in Heq. apply Hph. rewrite <- Heq. now apply in_map. }
  rewrite Hq.
  rewrite getTaskShares_eq
    by (rewrite <- Hpar; now apply task_id_param_same).
  rewrite (existsb_sharesOf (fun s => sharedWithId s =? _)).
  cbn [user_id task_shares set_users].
  assert (Hs : existsb (fun s => (taskId s =? req_taskId sd)
                                 && (sharedWithId s =? users_id_seq db))
                       (task_shares db) = false).
  { apply not_true_iff_false. intros Hex.
    apply existsb_exists in Hex as (s & Hin & Heq).
    apply andb_true_iff in Heq as [_ Heq]. apply Z.eqb_eq in Heq.
    pose proof (share_user_fk db Hc) as Hfk. rewrite Forall_forall in Hfk.
    specialize (Hfk s Hin). apply in_map_iff in Hfk as (u & Hu' & Hinu).
    pose proof (user_seq db Hc) as Hseq. rewrite Forall_forall in Hseq.
    specialize (Hseq u Hinu). simpl in Hseq. lia. }
  rewrite Hs. unfold shareTask.
  cbn [its_taskId its_sharedWithId its_permission tasks users set_users
       task_shares task_shares_id_seq].
  assert (Ht : existsb (fun t => id t =? req_taskId sd) (tasks db) = true).
  { apply existsb_exists. exists t0. split; [exact Hin0 | now apply Z.eqb_eq]. }
  rewrite Ht, existsb_app. cbn [existsb user_id].
  rewrite Z.eqb_refl, orb_true_r. reflexivity.
Qed.

Lemma post_share_provisions_recipient_witness :
  post_share req_alice (Some share_with_carol) clock0 db_unshared =
  (mkResponse 201
     (JShare (mkTaskShare (task_shares_id_seq db_unshared)
                          (req_taskId share_with_carol)
                          (users_id_seq db_unshared)
                          (req_permission share_with_carol)
                          (db_now clock0))),
   mkDB (users db_unshared
           ++ [mkUser (users_id_seq db_unshared)
                      (placeholderUid clock0 (req_email share_with_carol))
                      (req_email share_with_carol) None (db_now clock0)])
        (tasks db_unshared)
        (task_shares db_unshared
           ++ [mkTaskShare (task_shares_id_seq db_unshared)
                           (req_taskId share_with_carol)
                           (users_id_seq db_unshared)
                           (req_permission share_with_carol) (db_now clock0)])
        (users_id_seq db_unshared + 1) (tasks_id_seq db_unshared)
        (task_shares_id_seq db_unshared + 1)).
Proof.
  apply (post_share_provisions_recipient req_alice share_with_carol clock0
           db_unshared alice).
  - apply db_unshared_consistent.
  - reflexivity.
  - reflexivity.
  - simpl. intuition discriminate.
  - vm_compute. intuition discriminate.
Defined.

(** ** Updating through the gateway, the owner's side *)

(** X24: [PUT /api/tasks/:id] answers 400 for a body that fails
    validation.  For a valid body from the owner it answers 200 with the
    caller's row of that id patched: each of [title], [description],
    [status], [priority] and [dueDate] has the value of its key in the body
    when the body has the key, and the value it had when it has not;
    [updatedAt] is the server's clock; [id], [ownerId] and [createdAt] are
    what they were.  The patched row is in the table, the rows with another
    id or another owner are still there as they were, the table has as
    many rows as before and the shares are untouched.  From anyone else,
    for an id the database accepts as a value of its [integer] column, it
    answers 404, and for any other id 500 "Failed to update task"; in both
    cases the store is as [getOrCreateUser] left it. *)
Theorem put_task_outcome :
  forall req tid body clk db,
  exists user db1,
    currentUser req clk db = (inr user, db1) /\
    (body = None ->
     put_task req tid body clk db =
     (mkResponse 400 (JInvalid "Invalid update data"), db1)) /\
    (forall updates,
        body = Some updates -> owns db tid (user_id user) ->
        exists t0 t db2,
          In t0 (tasks db) /\ id t0 = tid /\ ownerId t0 = user_id user /\
          put_task req tid body clk db = (mkResponse 200 (JTask t), db2) /\
          In t (tasks db2) /\
          title t = match upd_title updates with
                    | Some x => x
                    | None => title t0
                    end /\
          description t = match upd_description updates with
                          | Some x => x
                          | None => description t0
                          end /\
          status t = match upd_status updates with
                     | Some x => x
                     | None => status t0
                     end /\
          priority t = match upd_priority updates with
                       | Some x => x
                       | None => priority t0
                       end /\
          dueDate t = match upd_dueDate updates with
                      | Some x => x
                      | None => dueDate t0
                      end /\
          updatedAt t = Date_now clk /\
          createdAt t = createdAt t0 /\
          id t = id t0 /\ ownerId t = ownerId t0 /\
          (forall x, In x (tasks db) ->
                     ~ (id x = tid /\ ownerId x = user_id user) ->
                     In x (tasks db2)) /\
          map (fun x => (id x, ownerId x, createdAt x)) (tasks db2) =
          map (fun x => (id x, ownerId x, createdAt x)) (tasks db) /\
          task_shares db2 = task_shares db /\
          users db2 = users db1 /\
          List.length (tasks db2) = List.length (tasks db)) /\
    (forall updates,
        body = Some updates ->
        task_id_param tid db = true -> ~ owns db tid (user_id user) ->
        put_task req tid body clk db =
        (mkResponse 404 (JMessage "Task not found or access denied"), db1)) /\
    (forall updates,
        body = Some updates -> task_id_param tid db = false ->
        put_task req tid body clk db =
        (mkResponse 500 (JMessage "Failed to update task"), db1)) /\
    (int4 tid = true -> task_id_param tid db = true).
Proof.
  intros req tid body clk db.
  destruct (currentUser_ok req clk db) as (user & db1 & Hcu & Ht & Hs & _).
  exists user, db1. split; [exact Hcu|].
  assert (Hpp : task_id_param tid db1 = task_id_param tid db).
  { apply task_id_param_same; [now rewrite Ht | exact Hs]. }
  split; [|split; [|split; [|split; [|apply int4_param]]]].
  - intros ->. unfold put_task, try_catch, bind, parse, throw.
    now rewrite Hcu.
  - intros updates -> Ho.
    unfold put_task, try_catch, bind, parse, ret. rewrite Hcu.
    rewrite updateTask_eq, Hpp, (owns_param _ _ _ Ho).
    destruct (filter (id_and_owner tid (user_id user)) (tasks db1))
      as [|t0 rest] eqn:E.
    { exfalso. apply not_owns_filter in E. apply E.
      unfold owns in *. now rewrite Ht. }
    assert (H0 : In t0 (filter (id_and_owner tid (user_id user)) (tasks db1)))
      by (rewrite E; now left).
    apply filter_In in H0 as [Hin0 Hm0]. pose proof Hm0 as Hm.
    apply id_and_owner_true in Hm as [Hid0 Hown0].
    eexists t0, _, _. rewrite <- Ht.
    split; [exact Hin0|]. split; [exact Hid0|]. split; [exact Hown0|].
    split; [reflexivity|]. cbn [tasks set_tasks task_shares users].
    split; [apply in_map_iff; exists t0; now rewrite Hm0|].
    split; [unfold apply_updates; simpl; now destruct (upd_title updates)|].
    split; [unfold apply_updates; simpl;
            now destruct (upd_description updates)|].
    split; [unfold apply_updates; simpl; now destruct (upd_status updates)|].
    split; [unfold apply_updates; simpl; now destruct (upd_priority updates)|].
    split; [unfold apply_updates; simpl; now destruct (upd_dueDate updates)|].
    split; [reflexivity|]. split; [reflexivity|].
    split; [reflexivity|]. split; [reflexivity|].
    split; [|split; [|split; [|split]]].
    + intros x Hx Hnot. apply in_map_iff. exists x. split; [|exact Hx].
      destruct (id_and_owner tid (user_id user) x) eqn:Ex; [|reflexivity].
      apply id_and_owner_true in Ex. now elim Hnot.
    + rewrite map_map. apply map_ext. intros x.
      now destruct (id_and_owner tid (user_id user) x).
    + now destruct db1.
    + now destruct db1.
    + now rewrite length_map.
  - intros updates -> Hp Hn.
    unfold put_task, try_catch, bind, parse, ret. rewrite Hcu.
    rewrite updateTask_eq, Hpp, Hp.
    assert (Hf : filter (id_and_owner tid (user_id user)) (tasks db1) = []).
    { rewrite Ht. now apply not_owns_filter. }
    now rewrite Hf.
  - intros updates -> Hp.
    unfold put_task, try_catch, bind, parse, ret. rewrite Hcu.
    now rewrite updateTask_eq, Hpp, Hp.
Qed.
